(** * FUNSD multi-branch feature-fusion classifier: model and properties

    A shallow embedding of the notebook [Funsd_Object_Detection_bert_large]:
    the data preparation cells, the dataset classes [SentimentData] and
    [SentimentData_test], the loaders, the module [RobertaClass]
    (constructor and [forward] pass), the accuracy helper
    [calcuate_accuracy] and the loops [train], [valid] and
    [test_label_generator].

    Conventions.
    - Floating-point numbers are an abstract type of scalars with the
      operations the code uses (class [Scalar]), among them the comparison
      and the NaN test of the pooling kernel; [float32] instantiates them
      with the IEEE 754 binary32 numbers of the Standard Library.
    - A rank-2 tensor of shape (B, W) is a list of B rows of W scalars, a
      rank-3 tensor of shape (B, H, W) a list of B lists of H rows.
    - A Python exception is an [Err] result. Stateful code runs in the
      monad [M] over the [World], which holds the module object and the
      state of the random generator; an exception leaves the world as it
      was when it was raised.
    - What the notebook takes from its libraries (the pretrained encoder,
      the tokenizer, the loss, the optimizer step, the seeded permutations)
      is a parameter. *)

From Stdlib Require Import ZArith Lia.
From Stdlib Require Import Floats.SpecFloat.
From stdpp Require Import base tactics option list strings gmap.

Open Scope string_scope.
Open Scope Z_scope.
Open Scope nat_scope.
Open Scope list_scope.

(** ** Exceptions *)

Inductive error : Type :=
  | DimMismatch (site : string)   (* RuntimeError raised by a shape check *)
  | KeyError (key : string)       (* dict or column lookup of a missing key *)
  | LabelError (label : nat)      (* KeyError of a Series for a row label *)
  | IndexError (site : string)    (* position or dimension out of range *)
  | ValueError (site : string)    (* a value of the wrong kind for the call *)
  | ZeroDivisionError.

Inductive result (A : Type) : Type :=
  | Ok (a : A)
  | Err (e : error).
Arguments Ok {A} a.
Arguments Err {A} e.

Definition rbind {A B} (r : result A) (k : A -> result B) : result B :=
  match r with
  | Ok a => k a
  | Err e => Err e
  end.

Definition rmap {A B} (f : A -> B) (r : result A) : result B :=
  match r with
  | Ok a => Ok (f a)
  | Err e => Err e
  end.

Fixpoint rmapM {A B} (f : A -> result B) (l : list A) : result (list B) :=
  match l with
  | [] => Ok []
  | a :: l' =>
      rbind (f a) (fun b => rbind (rmapM f l') (fun bs => Ok (b :: bs)))
  end.

Declare Scope result_scope.
Delimit Scope result_scope with res.
Notation "x <~ c1 ;; c2" := (rbind c1 (fun x => c2))
  (at level 100, c1 at next level, right associativity) : result_scope.

(** ** Scalars *)

Class Scalar (R : Type) : Type := {
  szero : R;
  sadd : R -> R -> R;
  smul : R -> R -> R;
  (* strict comparison, the [val > maxval] test of the pooling kernel *)
  sltb : R -> R -> bool;
  (* [std::isnan(val)], the other test of the pooling kernel *)
  sisnan : R -> bool;
  (* [a == b] on two scalars *)
  seqb : R -> R -> bool;
  stanh : R -> R;
  (* [x / (1 - 0.1)]: what [Dropout(0.1)] makes of an activation it keeps *)
  skeep : R -> R;
  (* conversions between the dtypes [torch.float] and [torch.long] *)
  sof_long : Z -> R;
  sto_long : R -> Z;
}.

(** The pooling kernel scans its window in order and replaces the running
    maximum when the next value is strictly greater or is NaN:
    [if ((val > maxval) || std::isnan(val)) maxval = val]. *)
Definition smax {R} `{Scalar R} (a b : R) : R :=
  if sltb a b || sisnan b then b else a.

(** Laws of the comparisons of IEEE 754 numbers: [<] is asymmetric, two
    numbers of which neither is NaN are ordered or equal, and a number that
    is not NaN is equal to itself. *)
Class FloatCompare (R : Type) `{Scalar R} : Prop := {
  sltb_asym : forall a b : R, sltb a b = true -> sltb b a = false;
  sltb_total : forall a b : R,
    sisnan a = false -> sisnan b = false ->
    sltb a b = false -> sltb b a = false -> seqb a b = true;
  seqb_refl : forall a : R, sisnan a = false -> seqb a a = true;
}.

(** ** Tensors and the layers of torch.nn *)

Section Tensors.
Context {R : Type} `{Scalar R}.

Definition Tensor1 : Type := list R.
Definition Tensor2 : Type := list (list R).
Definition Tensor3 : Type := list (list (list R)).
Definition LongTensor1 : Type := list Z.
Definition LongTensor2 : Type := list (list Z).

(** [t.unsqueeze(1)]: (B, W) -> (B, 1, W). *)
Definition unsqueeze1 (t : Tensor2) : Tensor3 := map (fun r => [r]) t.

Definition uniform_width (rows : list (list R)) : bool :=
  match rows with
  | [] => true
  | r :: rs => forallb (fun s => length s =? length r) rs
  end.

(** [torch.cat((x, y), 1)] on rank-3 tensors: the sizes must agree
    everywhere but in dimension 1. *)
Definition cat3 (x y : Tensor3) : result Tensor3 :=
  if (length x =? length y) && forallb uniform_width (zip_with app x y)
  then Ok (zip_with app x y)
  else Err (DimMismatch "cat").

(** [torch.cat(ts, 1)] on rank-2 tensors: equal numbers of rows, the rows
    are joined. *)
Definition cat2 (ts : list Tensor2) : result Tensor2 :=
  match ts with
  | [] => Err (ValueError "cat")
  | t :: rest =>
      if forallb (fun u => length u =? length t) rest
      then Ok (foldr (zip_with app) (replicate (length t) []) ts)
      else Err (DimMismatch "cat")
  end.

(** [MaxPool2d((2,1), stride=None)] on an input (C, H, W): in every
    channel rows 2h and 2h+1 are reduced to their element-wise maximum and
    an odd last row is dropped. The shape check of the pooling refuses an
    input with a dimension of size 0, and an output without rows. *)
Fixpoint pool_rows (rows : list (list R)) : list (list R) :=
  match rows with
  | r0 :: r1 :: rest => zip_with smax r0 r1 :: pool_rows rest
  | _ => []
  end.

Definition pool_check (x : Tensor3) : bool :=
  negb (length x =? 0) &&
  forallb (fun ex => (2 <=? length ex) &&
                     forallb (fun r => negb (length r =? 0)) ex) x.

Definition MaxPool2d (x : Tensor3) : result Tensor3 :=
  if pool_check x
  then Ok (map pool_rows x)
  else Err (DimMismatch "pooling").

(** [t.squeeze(1)] where dimension 1 has size 1: (B, 1, W) -> (B, W).
    [forward] squeezes only what [MaxPool2d] made of a stack of two rows
    (lemma [squeeze1_pool_stack]); for another size torch hands the
    tensor back with its rank, which is reported here as an error. *)
Definition squeeze1 (t : Tensor3) : result Tensor2 :=
  if forallb (fun ex => length ex =? 1) t
  then Ok (map (fun ex => hd [] ex) t)
  else Err (DimMismatch "squeeze").

(** [hidden_state[:, 0]]: the first position of every example. *)
Definition select_first (t : Tensor3) : result Tensor2 :=
  if forallb (fun ex => 1 <=? length ex) t
  then Ok (map (fun ex => hd [] ex) t)
  else Err (IndexError "hidden_state[:, 0]").

(** [torch.nn.Tanh()(t)]. *)
Definition Tanh (t : Tensor2) : Tensor2 := map (map stanh) t.

(** [torch.nn.Linear(in_features, out_features)]: [weight i j] is the
    entry of the (out, in) weight at row i and column j. *)
Record Linear : Type := mkLinear {
  in_features : nat;
  out_features : nat;
  weight : nat -> nat -> R;
  bias : nat -> R;
}.

Fixpoint dot_from (w : nat -> R) (j : nat) (x : list R) (acc : R) : R :=
  match x with
  | [] => acc
  | xj :: x' => dot_from w (S j) x' (sadd acc (smul xj (w j)))
  end.

Definition linear_row (l : Linear) (r : list R) : list R :=
  map (fun i => sadd (dot_from (weight l i) 0 r szero) (bias l i))
      (seq 0 (out_features l)).

(** [l(x)]: [x W^T + b], refused unless the rows have [in_features]
    entries. *)
Definition Linear_forward (l : Linear) (x : Tensor2) : result Tensor2 :=
  if forallb (fun r => length r =? in_features l) x
  then Ok (map (linear_row l) x)
  else Err (DimMismatch "linear").

(** The random generator: a sequence of Bernoulli draws ([true]: keep) and
    a cursor into it. *)
Record Generator : Type := mkGenerator {
  draws : nat -> bool;
  cursor : nat;
}.

Fixpoint drop_row (d : nat -> bool) (c : nat) (r : list R) : list R :=
  match r with
  | [] => []
  | x :: r' => (if d c then skeep x else szero) :: drop_row d (S c) r'
  end.

Fixpoint drop_rows (d : nat -> bool) (c : nat) (t : Tensor2) : Tensor2 * nat :=
  match t with
  | [] => ([], c)
  | r :: t' =>
      let '(u, c') := drop_rows d (c + length r) t' in
      (drop_row d c r :: u, c')
  end.

(** The pretrained encoder [AutoModel.from_pretrained('bert-base-uncased')]
    is a black box. It maps token ids, attention mask and token types to
    its last hidden state ([output_1[0]], of shape (B, L, hidden)) or
    raises. In evaluation mode its own dropout layers are the identity, so
    it is a function of its inputs; in training mode it also reads and
    advances the random generator. *)
Record Encoder : Type := mkEncoder {
  enc_eval : LongTensor2 -> LongTensor2 -> LongTensor2 -> result Tensor3;
  enc_train : Generator -> LongTensor2 -> LongTensor2 -> LongTensor2 ->
              result Tensor3 * Generator;
}.

(** ** The module *)

Record RobertaClass : Type := mkRobertaClass {
  l1 : Encoder;
  pre_classifier : Linear;
  h1 : Linear;
  h2 : Linear;
  h3 : Linear;
  h4 : Linear;
  hidden0 : Linear;
  hidden1 : Linear;
  hidden2 : Linear;
  hidden3 : Linear;
  hidden4 : Linear;
  classifier : Linear;
  (* [torch.nn.Module.training], set by [model.train()] and [model.eval()] *)
  training : bool;
}.

(** Initial values of a layer's weight and bias, by layer name. *)
Definition Init : Type := string -> (nat -> nat -> R) * (nat -> R).

Definition new_Linear (theta : Init) (name : string) (n_in n_out : nat) : Linear :=
  mkLinear n_in n_out (fst (theta name)) (snd (theta name)).

(** [RobertaClass.__init__]; a fresh module is in training mode. The
    layers [dropout] ([Dropout(0.1)]) and [pooling] ([MaxPool2d((2,1))])
    have no parameters and are the operations [self_dropout] and
    [MaxPool2d]. *)
Definition RobertaClass_init (bert : Encoder) (theta : Init) : RobertaClass :=
  {| l1 := bert;
     pre_classifier := new_Linear theta "pre_classifier" 768 768;
     h1 := new_Linear theta "h1" 768 768;
     h2 := new_Linear theta "h2" 768 768;
     h3 := new_Linear theta "h3" 768 768;
     h4 := new_Linear theta "h4" 768 768;
     hidden0 := new_Linear theta "hidden0" 2304 256;
     hidden1 := new_Linear theta "hidden1" 2048 768;
     hidden2 := new_Linear theta "hidden2" 3072 512;
     hidden3 := new_Linear theta "hidden3" 3072 3072;
     hidden4 := new_Linear theta "hidden4" 1024 768;
     classifier := new_Linear theta "classifier" 512 4;
     training := true |}.

(** [model.train()] and [model.eval()] set the mode and nothing else. *)
Definition set_training (b : bool) (m : RobertaClass) : RobertaClass :=
  {| l1 := l1 m; pre_classifier := pre_classifier m;
     h1 := h1 m; h2 := h2 m; h3 := h3 m; h4 := h4 m;
     hidden0 := hidden0 m; hidden1 := hidden1 m; hidden2 := hidden2 m;
     hidden3 := hidden3 m; hidden4 := hidden4 m;
     classifier := classifier m; training := b |}.

(** [model.parameters()]: everything an optimizer may update, that is all
    of the module but its mode. *)
Definition parameters (m : RobertaClass) :=
  (l1 m, pre_classifier m, h1 m, h2 m, h3 m, h4 m,
   hidden0 m, hidden1 m, hidden2 m, hidden3 m, hidden4 m, classifier m).

(** ** The world and the monad of stateful code *)

Record World : Type := mkWorld {
  model : RobertaClass;
  gen : Generator;
}.

Definition M (A : Type) : Type := World -> result A * World.

Definition ret {A} (a : A) : M A := fun w => (Ok a, w).

Definition bind {A B} (c : M A) (k : A -> M B) : M B :=
  fun w =>
    match c w with
    | (Ok a, w') => k a w'
    | (Err e, w') => (Err e, w')
    end.

Definition lift {A} (r : result A) : M A := fun w => (r, w).

(** [self.<layer>(x)] for a linear layer. *)
Definition self_call (layer : RobertaClass -> Linear) (x : Tensor2) : M Tensor2 :=
  fun w => (Linear_forward (layer (model w)) x, w).

(** [self.dropout(x)]: the identity in evaluation mode; in training mode
    every entry is zeroed or rescaled by the next draw. *)
Definition self_dropout (x : Tensor2) : M Tensor2 :=
  fun w =>
    if training (model w)
    then
      let '(y, c) := drop_rows (draws (gen w)) (cursor (gen w)) x in
      (Ok y, mkWorld (model w) (mkGenerator (draws (gen w)) c))
    else (Ok x, w).

(** [self.l1(input_ids=..., attention_mask=..., token_type_ids=...)[0]]. *)
Definition self_l1 (input_ids attention_mask token_type_ids : LongTensor2)
  : M Tensor3 :=
  fun w =>
    if training (model w)
    then
      let '(r, g) := enc_train (l1 (model w)) (gen w)
                       input_ids attention_mask token_type_ids in
      (r, mkWorld (model w) g)
    else (enc_eval (l1 (model w)) input_ids attention_mask token_type_ids, w).

(** [model.eval()] on the module object. *)
Definition model_eval : M unit :=
  fun w => (Ok tt, mkWorld (set_training false (model w)) (gen w)).

End Tensors.

Arguments Linear R : clear implicits.
Arguments Encoder R : clear implicits.
Arguments RobertaClass R : clear implicits.
Arguments World R : clear implicits.
Arguments M R A : clear implicits.
Arguments Tensor1 R : clear implicits.
Arguments Tensor2 R : clear implicits.
Arguments Tensor3 R : clear implicits.
Arguments Init R : clear implicits.

Declare Scope monad_scope.
Delimit Scope monad_scope with M.
Notation "x <- c1 ;; c2" := (bind c1 (fun x => c2))
  (at level 100, c1 at next level, right associativity) : monad_scope.

(** ** The forward pass *)

Section Forward.
Context {R : Type} `{Scalar R}.
Local Open Scope monad_scope.

(** [RobertaClass.forward], from the call of the encoder to the four
    local variables [pooler], [visual], [parsing] and [density] as they
    stand before the final concatenation. The body never reads the
    parameter [pos_emb], which may be any object. *)
Definition forward_branches {P : Type}
    (input_ids attention_mask token_type_ids : LongTensor2)
    (visual_feature char_density char_number parsing1 parsing2
     gcn_bert_base : Tensor2 R) (pos_emb : P) (visual : Tensor2 R)
  : M R (Tensor2 R * Tensor2 R * Tensor2 R * Tensor2 R) :=
  output_1 <- self_l1 input_ids attention_mask token_type_ids ;;
  let hidden_state := output_1 in
  pooler <- lift (select_first hidden_state) ;;

  pooler <- self_call pre_classifier pooler ;;
  let pooler := Tanh pooler in
  pooler <- self_dropout pooler ;;

  other <- lift (cat3 (unsqueeze1 pooler) (unsqueeze1 gcn_bert_base)) ;;
  other <- lift (rbind (MaxPool2d other) squeeze1) ;;
  other <- self_call h1 other ;;
  let other := Tanh other in
  other <- self_dropout other ;;
  let pooler := other in

  parsing <- lift (cat3 (unsqueeze1 parsing1) (unsqueeze1 parsing2)) ;;
  parsing <- lift (rbind (MaxPool2d parsing) squeeze1) ;;
  parsing <- self_call h2 parsing ;;
  let parsing := Tanh parsing in
  parsing <- self_dropout parsing ;;

  density <- lift (cat3 (unsqueeze1 char_density) (unsqueeze1 char_number)) ;;
  density <- lift (rbind (MaxPool2d density) squeeze1) ;;
  density <- self_call h3 density ;;
  let density := Tanh density in
  density <- self_dropout density ;;

  visual <- self_call hidden1 visual ;;
  let visual := Tanh visual in
  visual <- self_dropout visual ;;

  other <- lift (cat3 (unsqueeze1 visual) (unsqueeze1 visual_feature)) ;;
  other <- lift (rbind (MaxPool2d other) squeeze1) ;;
  other <- self_call h4 other ;;
  let other := Tanh other in
  other <- self_dropout other ;;
  let visual := other in

  ret (pooler, visual, parsing, density).

(** The concatenation [torch.cat((pooler,visual,parsing,char_density),1)]:
    the tensor handed to [hidden3]. *)
Definition forward_concat {P : Type}
    (input_ids attention_mask token_type_ids : LongTensor2)
    (visual_feature char_density char_number parsing1 parsing2
     gcn_bert_base : Tensor2 R) (pos_emb : P) (visual : Tensor2 R)
  : M R (Tensor2 R) :=
  branches <- forward_branches input_ids attention_mask token_type_ids
                visual_feature char_density char_number parsing1 parsing2
                gcn_bert_base pos_emb visual ;;
  let '(pooler, visual, parsing, density) := branches in
  lift (cat2 [pooler; visual; parsing; char_density]).

(** The projection stages after the concatenation. *)
Definition forward_head (pooler : Tensor2 R) : M R (Tensor2 R) :=
  pooler <- self_call hidden3 pooler ;;
  let pooler := Tanh pooler in
  pooler <- self_dropout pooler ;;

  pooler <- self_call hidden2 pooler ;;
  let pooler := Tanh pooler in
  pooler <- self_dropout pooler ;;

  output <- self_call classifier pooler ;;
  ret output.

(** [RobertaClass.forward]. *)
Definition forward {P : Type}
    (input_ids attention_mask token_type_ids : LongTensor2)
    (visual_feature char_density char_number parsing1 parsing2
     gcn_bert_base : Tensor2 R) (pos_emb : P) (visual : Tensor2 R)
  : M R (Tensor2 R) :=
  pooler <- forward_concat input_ids attention_mask token_type_ids
              visual_feature char_density char_number parsing1 parsing2
              gcn_bert_base pos_emb visual ;;
  forward_head pooler.

End Forward.

(** ** Batches and the three ways of reading one *)

Section Batches.
Context {R : Type} `{Scalar R}.
Local Open Scope result_scope.

(** A tensor as a batch or a sample carries it: a dtype and a rank. *)
Inductive Tensor : Type :=
  | Long0 (z : Z)
  | Long1 (v : LongTensor1)
  | Long2 (t : LongTensor2)
  | Float0 (x : R)
  | Float1 (v : Tensor1 R)
  | Float2 (t : Tensor2 R).

(** [data[key]] on the dict a loader yields. *)
Definition field (data : gmap string Tensor) (key : string) : result Tensor :=
  match data !! key with
  | Some t => Ok t
  | None => Err (KeyError key)
  end.

(** [t.to(device, dtype = torch.long)] and [t.to(device, dtype =
    torch.float)], for the rank the use of the value needs: token tensors
    and feature tensors go to [forward] with rank 2, targets are compared
    with rank 1. A tensor of another rank makes a later tensor operation
    raise; the model raises when the value is bound. *)
Definition to_long2 (t : Tensor) : result LongTensor2 :=
  match t with
  | Long2 t => Ok t
  | Float2 t => Ok (map (map sto_long) t)
  | _ => Err (DimMismatch "rank")
  end.

Definition to_long1 (t : Tensor) : result LongTensor1 :=
  match t with
  | Long1 v => Ok v
  | Float1 v => Ok (map sto_long v)
  | _ => Err (DimMismatch "rank")
  end.

(** [t.to(device, dtype=torch.float)] at any rank. *)
Definition to_float (t : Tensor) : Tensor :=
  match t with
  | Long0 z => Float0 (sof_long z)
  | Long1 v => Float1 (map sof_long v)
  | Long2 t => Float2 (map (map sof_long) t)
  | _ => t
  end.

Definition to_float2 (t : Tensor) : result (Tensor2 R) :=
  match t with
  | Float2 t => Ok t
  | Long2 t => Ok (map (map sof_long) t)
  | _ => Err (DimMismatch "rank")
  end.

(** The arguments of one call [model(ids, mask, token_type_ids, ...)], by
    the parameter of [forward] they are passed for. *)
Record ModelArgs : Type := mkModelArgs {
  arg_input_ids : LongTensor2;
  arg_attention_mask : LongTensor2;
  arg_token_type_ids : LongTensor2;
  arg_visual_feature : Tensor2 R;
  arg_char_density : Tensor2 R;
  arg_char_number : Tensor2 R;
  arg_parsing1 : Tensor2 R;
  arg_parsing2 : Tensor2 R;
  arg_gcn_bert_base : Tensor2 R;
  arg_pos_emb : Tensor;
  arg_visual : Tensor2 R;
}.

Definition model_call (a : ModelArgs) : M R (Tensor2 R) :=
  forward (arg_input_ids a) (arg_attention_mask a) (arg_token_type_ids a)
          (arg_visual_feature a) (arg_char_density a) (arg_char_number a)
          (arg_parsing1 a) (arg_parsing2 a) (arg_gcn_bert_base a)
          (arg_pos_emb a) (arg_visual a).

(** The assignments at the head of the loop body of [train] and the
    arguments of its call of the model. *)
Definition train_inputs (data : gmap string Tensor)
  : result (ModelArgs * LongTensor1) :=
  ids <~ rbind (field data "ids") to_long2 ;;
  mask <~ rbind (field data "mask") to_long2 ;;
  token_type_ids <~ rbind (field data "token_type_ids") to_long2 ;;
  targets <~ rbind (field data "targets") to_long1 ;;
  visual_feature <~ rbind (field data "visual_feature") to_float2 ;;
  gcn_bert_base <~ rbind (field data "gcn_bert_base") to_float2 ;;
  parsing1 <~ rbind (field data "parsing1") to_float2 ;;
  parsing2 <~ rbind (field data "parsing2") to_float2 ;;
  char_density <~ rbind (field data "char_density") to_float2 ;;
  char_number <~ rbind (field data "char_number") to_float2 ;;
  pos_emb <~ rmap to_float (field data "pos_emb") ;;
  visual <~ rbind (field data "visual") to_float2 ;;
  Ok (mkModelArgs ids mask token_type_ids visual_feature char_density
                  char_number parsing1 parsing2 gcn_bert_base pos_emb visual,
      targets).

(** The same for [valid]. *)
Definition valid_inputs (data : gmap string Tensor)
  : result (ModelArgs * LongTensor1) :=
  ids <~ rbind (field data "ids") to_long2 ;;
  mask <~ rbind (field data "mask") to_long2 ;;
  token_type_ids <~ rbind (field data "token_type_ids") to_long2 ;;
  targets <~ rbind (field data "targets") to_long1 ;;
  char_density <~ rbind (field data "char_density") to_float2 ;;
  char_number <~ rbind (field data "char_number") to_float2 ;;
  visual_feature <~ rbind (field data "visual_feature") to_float2 ;;
  gcn_bert_base <~ rbind (field data "gcn_bert_large") to_float2 ;;
  parsing1 <~ rbind (field data "parsing1") to_float2 ;;
  parsing2 <~ rbind (field data "parsing2") to_float2 ;;
  pos_emb <~ rmap to_float (field data "pos_emb") ;;
  visual <~ rbind (field data "visual") to_float2 ;;
  Ok (mkModelArgs ids mask token_type_ids visual_feature char_density
                  char_number parsing1 parsing2 gcn_bert_base pos_emb visual,
      targets).

(** The same for [test_label_generator], which reads no targets. *)
Definition test_inputs (data : gmap string Tensor) : result ModelArgs :=
  ids <~ rbind (field data "ids") to_long2 ;;
  mask <~ rbind (field data "mask") to_long2 ;;
  token_type_ids <~ rbind (field data "token_type_ids") to_long2 ;;
  visual_feature <~ rbind (field data "visual_feature") to_float2 ;;
  gcn_bert_base <~ rbind (field data "gcn_bert_base") to_float2 ;;
  parsing1 <~ rbind (field data "parsing1") to_float2 ;;
  parsing2 <~ rbind (field data "parsing2") to_float2 ;;
  char_density <~ rbind (field data "char_density") to_float2 ;;
  char_number <~ rbind (field data "char_number") to_float2 ;;
  pos_emb <~ rmap to_float (field data "pos_emb") ;;
  visual <~ rbind (field data "visual") to_float2 ;;
  Ok (mkModelArgs ids mask token_type_ids visual_feature char_density
                  char_number parsing1 parsing2 gcn_bert_base pos_emb visual).

(** ** Accuracy *)

(** [preds == targets] on rank-1 tensors, with torch's broadcasting of a
    tensor of one element. *)
Definition torch_eq (preds targets : LongTensor1) : result (list bool) :=
  if length preds =? length targets then Ok (zip_with Z.eqb preds targets)
  else if length preds =? 1 then Ok (map (Z.eqb (hd 0%Z preds)) targets)
  else if length targets =? 1
       then Ok (map (fun p => Z.eqb p (hd 0%Z targets)) preds)
  else Err (DimMismatch "eq").

(** [t.sum().item()] of a boolean tensor. *)
Definition sum_item (t : list bool) : Z :=
  Z.of_nat (length (filter (fun b => b = true) t)).

(** [calcuate_accuracy(preds, targets)]. *)
Definition calcuate_accuracy (preds targets : LongTensor1) : result Z :=
  n_correct <~ rmap sum_item (torch_eq preds targets) ;;
  Ok n_correct.

(** ** The evaluation loop *)

(** [outputs.squeeze()] on the (B, C) result of the model: every dimension
    of size 1 goes. *)
Definition squeeze (t : Tensor2 R) : Tensor :=
  match t with
  | [[x]] => Float0 x
  | [r] => Float1 r
  | _ =>
      if forallb (fun r => length r =? 1) t && negb (length t =? 0)
      then Float1 (map (fun r => hd szero r) t)
      else Float2 t
  end.

(** The column [torch.max] reports for a row: the first maximum, and the
    first NaN when the row holds one (the scan replaces its maximum by a
    value that is not [<=] it and stops at a NaN). *)
Fixpoint argmax_from (best : R) (best_i i : nat) (r : list R) : nat :=
  match r with
  | [] => best_i
  | x :: r' =>
      if sisnan x then i
      else if sltb best x then argmax_from x i (S i) r'
      else argmax_from best best_i (S i) r'
  end.

Definition argmax (r : list R) : result Z :=
  match r with
  | [] => Err (IndexError "max")
  | x :: r' => Ok (Z.of_nat (if sisnan x then 0 else argmax_from x 0 1 r'))
  end.

(** [big_val, big_idx = torch.max(outputs.data, dim=1)]: the indices. *)
Definition torch_max_dim1 (outputs : Tensor) : result LongTensor1 :=
  match outputs with
  | Float2 t => rmapM argmax t
  | _ => Err (IndexError "dim")
  end.

(** The accumulators of [valid]. *)
Record Counters : Type := mkCounters {
  n_correct : Z;
  tr_loss : R;
  nb_tr_steps : Z;
  nb_tr_examples : Z;
  output_list : list Z;
}.

(** The quotient [num / den] of two Python integers, which Python rounds
    to a float. *)
Record Ratio : Type := mkRatio { num : Z; den : Z }.

Definition true_div (a b : Z) : result Ratio :=
  if (b =? 0)%Z then Err ZeroDivisionError else Ok (mkRatio a b).

(** [loss_function = torch.nn.CrossEntropyLoss()] is a parameter: a
    function of the logits and the targets that may raise. *)
Variable loss_function : Tensor -> LongTensor1 -> result R.

Local Open Scope monad_scope.

(** One turn of the loop of [valid]; the loader may raise instead of
    yielding a batch. *)
Definition valid_batch (c : Counters) (item : result (gmap string Tensor))
  : M R Counters :=
  data <- lift item ;;
  inputs <- lift (valid_inputs data) ;;
  let '(args, targets) := inputs in
  outputs <- model_call args ;;
  let outputs := squeeze outputs in
  loss <- lift (loss_function outputs targets) ;;
  let tr_loss := sadd (tr_loss c) loss in
  big_idx <- lift (torch_max_dim1 outputs) ;;
  let output_list := output_list c ++ big_idx in
  correct <- lift (calcuate_accuracy big_idx targets) ;;
  let n_correct := (n_correct c + correct)%Z in
  let nb_tr_steps := (nb_tr_steps c + 1)%Z in
  let nb_tr_examples := (nb_tr_examples c + Z.of_nat (length targets))%Z in
  ret (mkCounters n_correct tr_loss nb_tr_steps nb_tr_examples output_list).

Fixpoint valid_loop (c : Counters) (loader : list (result (gmap string Tensor)))
  : M R Counters :=
  match loader with
  | [] => ret c
  | item :: rest => c' <- valid_batch c item ;; valid_loop c' rest
  end.

(** [valid(model, testing_loader)], with the module object of the world
    for [model]; the two [print] calls are left out, the divisions before
    them are not. *)
Definition valid (testing_loader : list (result (gmap string Tensor)))
  : M R (Ratio * list Z) :=
  _ <- model_eval ;;
  c <- valid_loop (mkCounters 0%Z szero 0%Z 0%Z []) testing_loader ;;
  epoch_loss <- lift (if (nb_tr_steps c =? 0)%Z
                      then Err ZeroDivisionError else Ok (tr_loss c)) ;;
  epoch_accu <- lift (true_div (n_correct c * 100)%Z (nb_tr_examples c)) ;;
  ret (epoch_accu, output_list c).

End Batches.

Arguments Tensor R : clear implicits.
Arguments ModelArgs R : clear implicits.
Arguments Counters R : clear implicits.

(** ** Tables

    A pandas table is an index (the row labels, in row order) and named
    columns, each a map from row label to cell. Labels are unique; a cell
    the table has no value for is [CNaN]. *)

Section Tables.
Context {R : Type} `{Scalar R}.
Local Open Scope result_scope.

Inductive Cell : Type :=
  | CStr (s : string)
  | CInt (z : Z)
  | CVec (v : list R)
  | CNaN.

Record Series : Type := mkSeries {
  s_index : list nat;
  s_values : gmap nat Cell;
}.

Record DataFrame : Type := mkDataFrame {
  df_index : list nat;
  df_columns : gmap string (gmap nat Cell);
}.

(** [df[name]] and [df.name]. *)
Definition df_col (df : DataFrame) (name : string) : result Series :=
  match df_columns df !! name with
  | Some c => Ok (mkSeries (df_index df) c)
  | None => Err (KeyError name)
  end.

(** The values of [s] laid out along the labels [idx]: a label [s] does
    not have gets NaN. *)
Definition reindex (s : Series) (idx : list nat) : gmap nat Cell :=
  list_to_map (map (fun l => (l, default CNaN (s_values s !! l))) idx).

(** [df[name] = s]: the values are aligned on the row labels of [df]. *)
Definition df_set (df : DataFrame) (name : string) (s : Series) : DataFrame :=
  mkDataFrame (df_index df) (<[name := reindex s (df_index df)]> (df_columns df)).

(** [df[[name; ...]]]. *)
Definition df_select (df : DataFrame) (names : list string) : result DataFrame :=
  cols <~ rmapM (fun name =>
                   match df_columns df !! name with
                   | Some c => Ok (name, c)
                   | None => Err (KeyError name)
                   end) names ;;
  Ok (mkDataFrame (df_index df) (list_to_map cols)).

(** [df.sample(frac=1, random_state=200)]: all rows in the order [perm],
    the seeded permutation, puts their labels. *)
Definition df_sample (perm : list nat -> list nat) (df : DataFrame) : DataFrame :=
  mkDataFrame (perm (df_index df)) (df_columns df).

(** [df.reset_index(drop=True)]: the rows keep their order and are
    labelled 0, 1, ... *)
Definition relabel (idx : list nat) (c : gmap nat Cell) : gmap nat Cell :=
  list_to_map (imap (fun i l => (i, default CNaN (c !! l))) idx).

Definition reset_index (df : DataFrame) : DataFrame :=
  mkDataFrame (seq 0 (length (df_index df)))
              (relabel (df_index df) <$> df_columns df).

(** [s[label]]. *)
Definition series_at (s : Series) (label : nat) : result Cell :=
  match s_values s !! label with
  | Some c => Ok c
  | None => Err (LabelError label)
  end.

(** ** The data preparation cells *)

Record Pickles : Type := mkPickles {
  visual_train_pkl : DataFrame;
  visual_test_pkl : DataFrame;
  training_dataset_pkl : DataFrame;
  testing_dataset_pkl : DataFrame;
}.

Definition selected_columns : list string :=
  ["text"; "label"; "near_visual_feature"; "gcn_near_char_density";
   "gcn_near_char_number"; "gcn_parsing1"; "gcn_parsing2";
   "gcn_bert_base"; "gcn_pos_emb"; "visual_embedding"; "gcn_bert_large"].

(** The cells from [train_visual = pd.read_pickle('visual_train.pkl')] to
    [new_df_test = df_test[[...]]]; the result is [(new_df, new_df_test)]. *)
Definition prepare_frames (files : Pickles) : result (DataFrame * DataFrame) :=
  let train_visual := visual_train_pkl files in
  let test_visual := visual_test_pkl files in
  let df_train := training_dataset_pkl files in
  let df_test := testing_dataset_pkl files in
  column <~ df_col test_visual "visual_embedding" ;;
  let df_train := df_set df_train "visual_embedding" column in
  column <~ df_col train_visual "visual_embedding" ;;
  let df_test := df_set df_test "visual_embedding" column in
  new_df <~ df_select df_train selected_columns ;;
  new_df_test <~ df_select df_test selected_columns ;;
  Ok (new_df, new_df_test).

(** ** The dataset *)

Definition MAX_LEN : nat := 100.
Definition TRAIN_BATCH_SIZE : nat := 32.
Definition VALID_BATCH_SIZE : nat := TRAIN_BATCH_SIZE * 2.

(** [str(cell)], [" ".join(text.split())] and [tokenizer.encode_plus] with
    the options of the notebook, as one function of the cell and of
    [max_len]: the [input_ids], the [attention_mask] and the
    [token_type_ids]. *)
Definition Tokenizer : Type :=
  Cell -> nat -> LongTensor1 * LongTensor1 * LongTensor1.

Record SentimentData : Type := mkSentimentData {
  sd_tokenizer : Tokenizer;
  sd_data : DataFrame;
  sd_text : Series;
  sd_targets : Series;
  sd_visual_feature : Series;
  sd_gcn_bert_base : Series;
  sd_parsing1 : Series;
  sd_parsing2 : Series;
  sd_char_density : Series;
  sd_char_number : Series;
  sd_pos_emb : Series;
  sd_visual : Series;
  sd_max_len : nat;
}.

(** [SentimentData.__init__]. *)
Definition SentimentData_init (dataframe : DataFrame) (tokenizer : Tokenizer)
    (max_len : nat) : result SentimentData :=
  text <~ df_col dataframe "text" ;;
  targets <~ df_col dataframe "label" ;;
  visual_feature <~ df_col dataframe "near_visual_feature" ;;
  gcn_bert_base <~ df_col dataframe "gcn_bert_base" ;;
  parsing1 <~ df_col dataframe "gcn_parsing1" ;;
  parsing2 <~ df_col dataframe "gcn_parsing2" ;;
  char_density <~ df_col dataframe "gcn_near_char_density" ;;
  char_number <~ df_col dataframe "gcn_near_char_number" ;;
  pos_emb <~ df_col dataframe "gcn_pos_emb" ;;
  visual <~ df_col dataframe "visual_embedding" ;;
  Ok (mkSentimentData tokenizer dataframe text targets visual_feature
        gcn_bert_base parsing1 parsing2 char_density char_number pos_emb
        visual max_len).

(** [SentimentData.__len__]. *)
Definition SentimentData_len (self : SentimentData) : nat :=
  length (s_index (sd_text self)).

(** [torch.tensor(cell, dtype=torch.float)]. A text cell is refused. A NaN
    cell gives a NaN tensor of rank 0, which the scalars do not have, and
    which no later stage accepts for a feature vector; the model raises
    here. *)
Definition torch_tensor_float (c : Cell) : result (Tensor R) :=
  match c with
  | CVec v => Ok (Float1 v)
  | CInt z => Ok (Float0 (sof_long z))
  | CStr _ => Err (ValueError "torch.tensor")
  | CNaN => Err (ValueError "nan")
  end.

(** [SentimentData.__getitem__]. *)
Definition SentimentData_getitem (self : SentimentData) (index : nat)
  : result (gmap string (Tensor R)) :=
  text <~ series_at (sd_text self) index ;;
  let inputs := sd_tokenizer self text (sd_max_len self) in
  let ids := fst (fst inputs) in
  let mask := snd (fst inputs) in
  let token_type_ids := snd inputs in
  targets <~ rbind (series_at (sd_targets self) index) torch_tensor_float ;;
  gcn_bert_base <~ rbind (series_at (sd_gcn_bert_base self) index) torch_tensor_float ;;
  char_density <~ rbind (series_at (sd_char_density self) index) torch_tensor_float ;;
  char_number <~ rbind (series_at (sd_char_number self) index) torch_tensor_float ;;
  visual_feature <~ rbind (series_at (sd_visual_feature self) index) torch_tensor_float ;;
  parsing1 <~ rbind (series_at (sd_parsing1 self) index) torch_tensor_float ;;
  parsing2 <~ rbind (series_at (sd_parsing2 self) index) torch_tensor_float ;;
  pos_emb <~ rbind (series_at (sd_pos_emb self) index) torch_tensor_float ;;
  visual <~ rbind (series_at (sd_visual self) index) torch_tensor_float ;;
  Ok (<["ids" := Long1 ids]>
      (<["mask" := Long1 mask]>
      (<["token_type_ids" := Long1 token_type_ids]>
      (<["targets" := targets]>
      (<["gcn_bert_base" := gcn_bert_base]>
      (<["char_density" := char_density]>
      (<["char_number" := char_number]>
      (<["visual_feature" := visual_feature]>
      (<["parsing1" := parsing1]>
      (<["parsing2" := parsing2]>
      (<["pos_emb" := pos_emb]>
      (<["visual" := visual]> ∅)))))))))))).

(** ** The loader *)

(** [torch.stack] of the values one key has in the samples of a batch. *)
Definition as_long0 (t : Tensor R) : result Z :=
  match t with Long0 z => Ok z | _ => Err (DimMismatch "stack") end.
Definition as_long1 (t : Tensor R) : result LongTensor1 :=
  match t with Long1 v => Ok v | _ => Err (DimMismatch "stack") end.
Definition as_float0 (t : Tensor R) : result R :=
  match t with Float0 x => Ok x | _ => Err (DimMismatch "stack") end.
Definition as_float1 (t : Tensor R) : result (Tensor1 R) :=
  match t with Float1 v => Ok v | _ => Err (DimMismatch "stack") end.

Definition same_lengths {A} (rows : list (list A)) : bool :=
  match rows with
  | [] => true
  | r :: rs => forallb (fun s => length s =? length r) rs
  end.

Definition torch_stack (ts : list (Tensor R)) : result (Tensor R) :=
  match ts with
  | [] => Err (ValueError "stack")
  | Long0 _ :: _ => rmap Long1 (rmapM as_long0 ts)
  | Float0 _ :: _ => rmap Float1 (rmapM as_float0 ts)
  | Long1 _ :: _ =>
      rows <~ rmapM as_long1 ts ;;
      if same_lengths rows then Ok (Long2 rows) else Err (DimMismatch "stack")
  | Float1 _ :: _ =>
      rows <~ rmapM as_float1 ts ;;
      if same_lengths rows then Ok (Float2 rows) else Err (DimMismatch "stack")
  | _ => Err (DimMismatch "stack")
  end.

(** [default_collate] on samples that are dicts: the keys of the first
    sample, each with the stack of the values the samples have for it. *)
Definition collate (samples : list (gmap string (Tensor R)))
  : result (gmap string (Tensor R)) :=
  match samples with
  | [] => Err (IndexError "collate")
  | elem :: _ =>
      entries <~ rmapM (fun key =>
                   values <~ rmapM (fun d => field d key) samples ;;
                   stacked <~ torch_stack values ;;
                   Ok (key, stacked))
                 (map fst (map_to_list elem)) ;;
      Ok (list_to_map entries)
  end.

Fixpoint chunks {A} (fuel n : nat) (l : list A) : list (list A) :=
  match fuel with
  | 0 => []
  | S fuel' =>
      match l with
      | [] => []
      | _ => take n l :: chunks fuel' n (drop n l)
      end
  end.

(** What the iteration of a [DataLoader(dataset, batch_size=...,
    num_workers=0)] yields: [order] lists the positions the sampler draws
    (0, 1, ... without shuffling, a permutation with it). *)
Definition DataLoader (dataset : SentimentData) (batch_size : nat)
    (order : list nat) : list (result (gmap string (Tensor R))) :=
  map (fun positions =>
         samples <~ rmapM (SentimentData_getitem dataset) positions ;;
         collate samples)
      (chunks (length order) batch_size order).

Definition sequential (dataset : SentimentData) : list nat :=
  seq 0 (SentimentData_len dataset).

(** [RandomSampler(dataset)], the sampler of a loader with [shuffle=True]:
    it refuses a dataset without samples. *)
Definition RandomSampler_init (num_samples : nat) : result unit :=
  if num_samples =? 0 then Err (ValueError "num_samples") else Ok tt.

(** The construction [DataLoader(dataset, batch_size=..., shuffle=...,
    num_workers=0)], with what the loader then yields: the batch size must
    be positive, and a shuffling loader builds a [RandomSampler] and draws
    the permutation [perm]. *)
Definition DataLoader_init (dataset : SentimentData) (batch_size : nat)
    (shuffle : bool) (perm : list nat -> list nat)
  : result (list (result (gmap string (Tensor R)))) :=
  if batch_size =? 0 then Err (ValueError "batch_size")
  else if shuffle
  then _ <~ RandomSampler_init (SentimentData_len dataset) ;;
       Ok (DataLoader dataset batch_size (perm (sequential dataset)))
  else Ok (DataLoader dataset batch_size (sequential dataset)).

(** The cells that build [training_set], [test_set], [training_loader]
    ([shuffle=True]) and [vali_loader] ([shuffle=False]). *)
Record Loaders : Type := mkLoaders {
  training_set : SentimentData;
  test_set : SentimentData;
  training_loader : list (result (gmap string (Tensor R)));
  vali_loader : list (result (gmap string (Tensor R)));
}.

Definition build_loaders (files : Pickles) (tokenizer : Tokenizer)
    (sample_perm shuffle : list nat -> list nat) : result Loaders :=
  frames <~ prepare_frames files ;;
  let '(new_df, new_df_test) := frames in
  let train_data := df_sample sample_perm new_df in
  let train_data := reset_index train_data in
  training_set <~ SentimentData_init train_data tokenizer MAX_LEN ;;
  test_set <~ SentimentData_init new_df_test tokenizer MAX_LEN ;;
  training_loader <~
    DataLoader_init training_set TRAIN_BATCH_SIZE true shuffle ;;
  vali_loader <~
    DataLoader_init test_set VALID_BATCH_SIZE false shuffle ;;
  Ok (mkLoaders training_set test_set training_loader vali_loader).

End Tables.

Arguments Cell R : clear implicits.
Arguments Series R : clear implicits.
Arguments DataFrame R : clear implicits.
Arguments Pickles R : clear implicits.
Arguments Tokenizer R : clear implicits.
Arguments SentimentData R : clear implicits.
Arguments Loaders R : clear implicits.

(** ** Vocabulary of the properties *)

Section Vocabulary.
Context {R : Type} `{Scalar R}.

(** [t] has shape (B, W). *)
Definition shape2 (B W : nat) (t : Tensor2 R) : Prop :=
  length t = B /\ Forall (fun r => length r = W) t.

(** The hidden state has shape (B, L, Hd) with L at least 1. *)
Definition hidden_shape (B Hd : nat) (hs : Tensor3 R) : Prop :=
  length hs = B /\
  Forall (fun ex => exists r rest, ex = r :: rest /\ length r = Hd) hs.

(** The stack of two rank-2 tensors along a new dimension 1. *)
Definition stack (a b : Tensor2 R) : Tensor3 R := zip_with (fun r s => [r; s]) a b.

(** The row-wise join of four tensors. *)
Definition join4 (a b c d : Tensor2 R) : Tensor2 R :=
  zip_with app a (zip_with app b (zip_with app c d)).

(** One pairwise fusion, as [forward] writes it four times:
    [x = torch.cat((a.unsqueeze(1), b.unsqueeze(1)), 1)] followed by
    [x = self.pooling(x).squeeze(1)]. *)
Definition pairwise_fusion (a b : Tensor2 R) : result (Tensor2 R) :=
  rbind (cat3 (unsqueeze1 a) (unsqueeze1 b))
        (fun x => rbind (MaxPool2d x) squeeze1).

(** The layer sizes [RobertaClass.__init__] chooses; training changes the
    weights and never the sizes. *)
Record architecture (m : RobertaClass R) : Prop := {
  arch_pre_in : in_features (pre_classifier m) = 768;
  arch_pre_out : out_features (pre_classifier m) = 768;
  arch_h1_in : in_features (h1 m) = 768;
  arch_h1_out : out_features (h1 m) = 768;
  arch_h2_in : in_features (h2 m) = 768;
  arch_h2_out : out_features (h2 m) = 768;
  arch_h3_in : in_features (h3 m) = 768;
  arch_h3_out : out_features (h3 m) = 768;
  arch_h4_in : in_features (h4 m) = 768;
  arch_h4_out : out_features (h4 m) = 768;
  arch_hidden1_in : in_features (hidden1 m) = 2048;
  arch_hidden1_out : out_features (hidden1 m) = 768;
  arch_hidden3_in : in_features (hidden3 m) = 3072;
  arch_hidden3_out : out_features (hidden3 m) = 3072;
  arch_hidden2_in : in_features (hidden2 m) = 3072;
  arch_hidden2_out : out_features (hidden2 m) = 512;
  arch_classifier_in : in_features (classifier m) = 512;
  arch_classifier_out : out_features (classifier m) = 4;
}.

(** On these token tensors the encoder of [m] returns a hidden state of
    shape (B, L, 768), in the mode [m] is in. *)
Definition encodes (m : RobertaClass R) (ids mask tti : LongTensor2) (B : nat)
  : Prop :=
  if training m
  then forall g, exists hs,
         fst (enc_train (l1 m) g ids mask tti) = Ok hs /\ hidden_shape B 768 hs
  else exists hs,
         enc_eval (l1 m) ids mask tti = Ok hs /\ hidden_shape B 768 hs.

(** From every world whose module is [m] the computation returns a value
    that satisfies [Q] and leaves the module as it is. *)
Definition total (m : RobertaClass R) {A} (c : M R A) (Q : A -> Prop) : Prop :=
  forall w, model w = m ->
    exists a w', c w = (Ok a, w') /\ model w' = m /\ Q a.

(** From a world whose module is [m] the computation leaves the module as
    it is, whether it returns or raises, and a value it returns satisfies
    [Q]. *)
Definition partial (m : RobertaClass R) {A} (c : M R A) (Q : A -> Prop) : Prop :=
  forall w, model w = m ->
    model (snd (c w)) = m /\ forall a, fst (c w) = Ok a -> Q a.

(** The computation is the pure result [r] and leaves the world alone. *)
Definition pure_as (m : RobertaClass R) {A} (c : M R A) (r : result A) : Prop :=
  forall w, model w = m -> c w = (r, w).

(** No entry of the tensor is NaN. *)
Definition no_nan (t : Tensor2 R) : Prop :=
  Forall (Forall (fun x => sisnan x = false)) t.

(** [torch.equal(x, y)]: one shape, and [x == y] at every position. *)
Definition torch_equal (x y : Tensor2 R) : bool :=
  (length x =? length y) &&
  forallb (fun b => b)
    (zip_with (fun r s => (length r =? length s) &&
                          forallb (fun b => b) (zip_with seqb r s)) x y).

(** The number of positions at which two label arrays agree. *)
Definition agreeing_positions (preds targets : LongTensor1) : nat :=
  length (filter (fun i => preds !! i = targets !! i) (seq 0 (length preds))).

End Vocabulary.

(** ** Integer scalars for running the model

    Exact integers, with the sign function in the place of tanh and the
    identity in the place of the dropout rescaling. The runs below use
    zero weights and biases, so that tanh is only ever taken at 0, where it
    and the sign function are both 0. *)
#[export] Instance Zscalar : Scalar Z := {|
  szero := 0%Z;
  sadd := Z.add;
  smul := Z.mul;
  sltb := Z.ltb;
  sisnan := fun _ => false;
  seqb := Z.eqb;
  stanh := Z.sgn;
  skeep := fun x => x;
  sof_long := fun z => z;
  sto_long := fun x => x;
|}.

#[export] Instance Zscalar_compare : FloatCompare Z.
Proof.
  split; simpl.
  - intros a b. rewrite !Z.ltb_lt, Z.ltb_ge. lia.
  - intros a b _ _. rewrite !Z.ltb_ge, Z.eqb_eq. lia.
  - intros a _. apply Z.eqb_refl.
Qed.

(** ** float32 scalars

    The dtype [torch.float] of the tensors that [forward] fuses: the IEEE
    754 binary32 numbers (precision 24, exponents below 128) of the Standard
    Library, with their comparisons, NaN, infinities and signed zeros. The
    identity stands in the place of tanh and of the dropout rescaling, which
    no fusion calls. *)
Definition SFisnan (x : spec_float) : bool :=
  match x with
  | S754_nan => true
  | _ => false
  end.

(** [float -> long] truncates toward zero; what is not a number or is
    infinite gives the least 64-bit integer. *)
Definition SFto_long (x : spec_float) : Z :=
  match x with
  | S754_zero _ => 0%Z
  | S754_finite s m e =>
      let magnitude := Z.shiftl (Z.pos m) e in
      if s then (- magnitude)%Z else magnitude
  | _ => (- 2 ^ 63)%Z
  end.

Definition float32 : Scalar spec_float := {|
  szero := S754_zero false;
  sadd := SFadd 24 128;
  smul := SFmul 24 128;
  sltb := SFltb;
  sisnan := SFisnan;
  seqb := SFeqb;
  stanh := fun x => x;
  skeep := fun x => x;
  sof_long := fun z => binary_normalize 24 128 z 0 false;
  sto_long := SFto_long;
|}.

(** 1.0 and 2.0 in binary32. *)
Definition one32 : spec_float := S754_finite false 8388608 (-23).
Definition two32 : spec_float := S754_finite false 8388608 (-22).

Definition zero_init : Init Z := fun _ => (fun _ _ => 0%Z, fun _ => 0%Z).

(** An encoder stub: 768 zeros at every position of every example. *)
Definition zero_bert : Encoder Z :=
  {| enc_eval := fun ids _ _ =>
       Ok (map (map (fun _ => replicate 768 0%Z)) ids);
     enc_train := fun g ids _ _ =>
       (Ok (map (map (fun _ => replicate 768 0%Z)) ids), g) |}.

Definition const_tensor (B W : nat) (z : Z) : Tensor2 Z :=
  replicate B (replicate W z).

Definition demo_model : RobertaClass Z :=
  set_training false (RobertaClass_init zero_bert zero_init).

Definition demo_world : World Z :=
  mkWorld demo_model (mkGenerator (fun _ => true) 0).

(** A batch of two examples of three tokens each. *)
Definition demo_ids : LongTensor2 := [[101; 2023; 102]; [101; 2003; 102]]%Z.
Definition demo_mask : LongTensor2 := [[1; 1; 1]; [1; 1; 1]]%Z.
Definition demo_types : LongTensor2 := [[0; 0; 0]; [0; 0; 0]]%Z.

Definition demo_args (visual_width : nat) : ModelArgs Z :=
  {| arg_input_ids := demo_ids;
     arg_attention_mask := demo_mask;
     arg_token_type_ids := demo_types;
     arg_visual_feature := const_tensor 2 768 1;
     arg_char_density := const_tensor 2 768 5;
     arg_char_number := const_tensor 2 768 2;
     arg_parsing1 := const_tensor 2 768 3;
     arg_parsing2 := const_tensor 2 768 4;
     arg_gcn_bert_base := const_tensor 2 768 6;
     arg_pos_emb := Float2 (const_tensor 2 768 7);
     arg_visual := const_tensor 2 visual_width 8 |}.

(** A loss stub: 0 for rank-2 logits with one target per row. *)
Definition demo_loss (outputs : Tensor Z) (targets : LongTensor1) : result Z :=
  match outputs with
  | Float2 t => if length t =? length targets then Ok 0%Z
                else Err (ValueError "loss")
  | _ => Err (ValueError "loss")
  end.

(** Tables of two rows for running the data preparation. *)
Definition column_of (idx : list nat) (f : nat -> Cell Z) : gmap nat (Cell Z) :=
  list_to_map (map (fun l => (l, f l)) idx).

Definition frame_of (idx : list nat) (cols : list (string * (nat -> Cell Z)))
  : DataFrame Z :=
  mkDataFrame idx
    (list_to_map (map (fun c => (fst c, column_of idx (snd c))) cols)).

(** A dataset table: in row [l] every feature vector is constant, of value
    [base + 10 * l + j] for the j-th feature column. *)
Definition demo_dataset (base : Z) : DataFrame Z :=
  let vec (w : nat) (j : Z) (l : nat) : Cell Z :=
    CVec (replicate w (base + 10 * Z.of_nat l + j)%Z) in
  frame_of [0; 1]
    [("text", fun l => CStr (if l =? 0 then "Date:" else "Total"));
     ("label", fun l => CInt (Z.of_nat l));
     ("near_visual_feature", vec 768 1%Z);
     ("gcn_near_char_density", vec 768 2%Z);
     ("gcn_near_char_number", vec 768 3%Z);
     ("gcn_parsing1", vec 768 4%Z);
     ("gcn_parsing2", vec 768 5%Z);
     ("gcn_bert_base", vec 768 6%Z);
     ("gcn_pos_emb", vec 768 7%Z);
     ("gcn_bert_large", vec 1024 8%Z)].

(** A visual table: the embedding of row [l] is constant, [base + l]. *)
Definition demo_visual (base : Z) : DataFrame Z :=
  frame_of [0; 1]
    [("visual_embedding",
      fun l => CVec (replicate 2048 (base + Z.of_nat l)%Z))].

(** [visual_train.pkl] holds 100 and 101, [visual_test.pkl] 200 and 201;
    the training table starts at 10, the testing table at 50. *)
Definition demo_files : Pickles Z :=
  {| visual_train_pkl := demo_visual 100;
     visual_test_pkl := demo_visual 200;
     training_dataset_pkl := demo_dataset 10;
     testing_dataset_pkl := demo_dataset 50 |}.

Definition demo_tokenizer : Tokenizer Z :=
  fun _ max_len =>
    (replicate max_len 101%Z, replicate max_len 1%Z, replicate max_len 0%Z).

(** The loaders of the notebook on these tables; the seeded sampling
    reverses the two rows, the shuffling keeps the order. *)
Definition demo_loaders : result (Loaders Z) :=
  build_loaders demo_files demo_tokenizer (@rev nat) (fun order => order).

(** [a] with another tensor for [gcn_bert_base]. *)
Definition with_gcn_bert_base {R : Type} (a : ModelArgs R) (t : Tensor2 R)
  : ModelArgs R :=
  {| arg_input_ids := arg_input_ids a;
     arg_attention_mask := arg_attention_mask a;
     arg_token_type_ids := arg_token_type_ids a;
     arg_visual_feature := arg_visual_feature a;
     arg_char_density := arg_char_density a;
     arg_char_number := arg_char_number a;
     arg_parsing1 := arg_parsing1 a;
     arg_parsing2 := arg_parsing2 a;
     arg_gcn_bert_base := t;
     arg_pos_emb := arg_pos_emb a;
     arg_visual := arg_visual a |}.

(** A batch with both fields, [gcn_bert_base] and [gcn_bert_large]. *)
Definition demo_wide_batch : gmap string (Tensor Z) :=
  <["ids" := Long2 demo_ids]>
  (<["mask" := Long2 demo_mask]>
  (<["token_type_ids" := Long2 demo_types]>
  (<["targets" := Float1 [0; 1]%Z]>
  (<["gcn_bert_base" := Float2 (const_tensor 2 768 6)]>
  (<["gcn_bert_large" := Float2 (const_tensor 2 768 9)]>
  (<["char_density" := Float2 (const_tensor 2 768 5)]>
  (<["char_number" := Float2 (const_tensor 2 768 2)]>
  (<["visual_feature" := Float2 (const_tensor 2 768 1)]>
  (<["parsing1" := Float2 (const_tensor 2 768 3)]>
  (<["parsing2" := Float2 (const_tensor 2 768 4)]>
  (<["pos_emb" := Float2 (const_tensor 2 768 7)]>
  (<["visual" := Float2 (const_tensor 2 2048 8)]> ∅)))))))))))).

(** ** The test dataset and the label generator *)

Section Testing.
Context {R : Type} `{Scalar R}.
Local Open Scope result_scope.

(** [SentimentData_test]: the dataset class of the testing cells, which
    keeps no targets. *)
Record SentimentData_test : Type := mkSentimentData_test {
  sdt_tokenizer : Tokenizer R;
  sdt_data : DataFrame R;
  sdt_text : Series R;
  sdt_max_len : nat;
  sdt_visual_feature : Series R;
  sdt_gcn_bert_base : Series R;
  sdt_parsing1 : Series R;
  sdt_parsing2 : Series R;
  sdt_char_density : Series R;
  sdt_char_number : Series R;
  sdt_pos_emb : Series R;
  sdt_visual : Series R;
}.

(** [SentimentData_test.__init__]. *)
Definition SentimentData_test_init (dataframe : DataFrame R)
    (tokenizer : Tokenizer R) (max_len : nat) : result SentimentData_test :=
  text <~ df_col dataframe "text" ;;
  visual_feature <~ df_col dataframe "near_visual_feature" ;;
  gcn_bert_base <~ df_col dataframe "gcn_bert_base" ;;
  parsing1 <~ df_col dataframe "gcn_parsing1" ;;
  parsing2 <~ df_col dataframe "gcn_parsing2" ;;
  char_density <~ df_col dataframe "gcn_near_char_density" ;;
  char_number <~ df_col dataframe "gcn_near_char_number" ;;
  pos_emb <~ df_col dataframe "gcn_pos_emb" ;;
  visual <~ df_col dataframe "visual_embedding" ;;
  Ok (mkSentimentData_test tokenizer dataframe text max_len visual_feature
        gcn_bert_base parsing1 parsing2 char_density char_number pos_emb
        visual).

(** [SentimentData_test.__len__]. *)
Definition SentimentData_test_len (self : SentimentData_test) : nat :=
  length (s_index (sdt_text self)).

(** [SentimentData_test.__getitem__]. *)
Definition SentimentData_test_getitem (self : SentimentData_test) (index : nat)
  : result (gmap string (Tensor R)) :=
  text <~ series_at (sdt_text self) index ;;
  let inputs := sdt_tokenizer self text (sdt_max_len self) in
  let ids := fst (fst inputs) in
  let mask := snd (fst inputs) in
  let token_type_ids := snd inputs in
  gcn_bert_base <~ rbind (series_at (sdt_gcn_bert_base self) index) torch_tensor_float ;;
  char_density <~ rbind (series_at (sdt_char_density self) index) torch_tensor_float ;;
  char_number <~ rbind (series_at (sdt_char_number self) index) torch_tensor_float ;;
  visual_feature <~ rbind (series_at (sdt_visual_feature self) index) torch_tensor_float ;;
  parsing1 <~ rbind (series_at (sdt_parsing1 self) index) torch_tensor_float ;;
  parsing2 <~ rbind (series_at (sdt_parsing2 self) index) torch_tensor_float ;;
  pos_emb <~ rbind (series_at (sdt_pos_emb self) index) torch_tensor_float ;;
  visual <~ rbind (series_at (sdt_visual self) index) torch_tensor_float ;;
  Ok (<["ids" := Long1 ids]>
      (<["mask" := Long1 mask]>
      (<["token_type_ids" := Long1 token_type_ids]>
      (<["gcn_bert_base" := gcn_bert_base]>
      (<["char_density" := char_density]>
      (<["char_number" := char_number]>
      (<["visual_feature" := visual_feature]>
      (<["parsing1" := parsing1]>
      (<["parsing2" := parsing2]>
      (<["pos_emb" := pos_emb]>
      (<["visual" := visual]> ∅))))))))))).

(** [DataLoader] over any map-style dataset, given its [__getitem__];
    [DataLoader dataset] is [loader_of (SentimentData_getitem dataset)]. *)
Definition loader_of (getitem : nat -> result (gmap string (Tensor R)))
    (batch_size : nat) (order : list nat)
  : list (result (gmap string (Tensor R))) :=
  map (fun positions =>
         samples <~ rmapM getitem positions ;;
         collate samples)
      (chunks (length order) batch_size order).

(** The cells from [new_df_true_test = new_df_test[[...]]] to
    [testing_loader = DataLoader(test, **test_params)]. *)
Definition build_testing_loader (new_df_test : DataFrame R)
    (tokenizer : Tokenizer R)
  : result (list (result (gmap string (Tensor R)))) :=
  new_df_true_test <~ df_select new_df_test selected_columns ;;
  test <~ SentimentData_test_init new_df_true_test tokenizer MAX_LEN ;;
  Ok (loader_of (SentimentData_test_getitem test) VALID_BATCH_SIZE
        (seq 0 (SentimentData_test_len test))).

Local Open Scope monad_scope.

(** One turn of the loop of [test_label_generator]. Of the counters the
    function initialises, it updates [nb_tr_steps] alone and reads none;
    they are left out. *)
Definition test_batch (output_list : list Z)
    (item : result (gmap string (Tensor R))) : M R (list Z) :=
  data <- lift item ;;
  args <- lift (test_inputs data) ;;
  outputs <- model_call args ;;
  let outputs := squeeze outputs in
  big_idx <- lift (torch_max_dim1 outputs) ;;
  ret (output_list ++ big_idx).

Fixpoint test_loop (output_list : list Z)
    (loader : list (result (gmap string (Tensor R)))) : M R (list Z) :=
  match loader with
  | [] => ret output_list
  | item :: rest =>
      output_list' <- test_batch output_list item ;; test_loop output_list' rest
  end.

(** [test_label_generator(model, testing_loader)]. *)
Definition test_label_generator
    (testing_loader : list (result (gmap string (Tensor R)))) : M R (list Z) :=
  _ <- model_eval ;;
  output_list <- test_loop [] testing_loader ;;
  ret output_list.

End Testing.

Arguments SentimentData_test R : clear implicits.

(** ** Vocabulary of the data properties *)

Section DataVocabulary.
Context {R : Type} `{Scalar R}.

(** The size of the leading dimension of a tensor of rank at least 1. *)
Definition leading_dim (t : Tensor R) : option nat :=
  match t with
  | Long1 v => Some (length v)
  | Long2 t => Some (length t)
  | Float1 v => Some (length v)
  | Float2 t => Some (length t)
  | _ => None
  end.

(** The keys of a sample of [SentimentData]. *)
Definition sample_keys : list string :=
  ["ids"; "mask"; "token_type_ids"; "targets"; "gcn_bert_base";
   "char_density"; "char_number"; "visual_feature"; "parsing1"; "parsing2";
   "pos_emb"; "visual"].

(** The key of a sample and the column of the table it is read from. *)
Definition field_columns : list (string * string) :=
  [("targets", "label"); ("gcn_bert_base", "gcn_bert_base");
   ("char_density", "gcn_near_char_density");
   ("char_number", "gcn_near_char_number");
   ("visual_feature", "near_visual_feature");
   ("parsing1", "gcn_parsing1"); ("parsing2", "gcn_parsing2");
   ("pos_emb", "gcn_pos_emb"); ("visual", "visual_embedding")].

Definition is_int (c : Cell R) : bool :=
  match c with CInt _ => true | _ => false end.
Definition is_vec (c : Cell R) : bool :=
  match c with CVec _ => true | _ => false end.

(** The label cells are integers and the feature cells are vectors. *)
Definition typed_dataset (ds : SentimentData R) : Prop :=
  map_Forall (fun _ c => is_int c = true) (s_values (sd_targets ds)) /\
  Forall (fun s => map_Forall (fun _ c => is_vec c = true) (s_values s))
    [sd_gcn_bert_base ds; sd_char_density ds; sd_char_number ds;
     sd_visual_feature ds; sd_parsing1 ds; sd_parsing2 ds; sd_pos_emb ds;
     sd_visual ds].

Definition typed_test_dataset (test : SentimentData_test R) : Prop :=
  Forall (fun s => map_Forall (fun _ c => is_vec c = true) (s_values s))
    [sdt_gcn_bert_base test; sdt_char_density test; sdt_char_number test;
     sdt_visual_feature test; sdt_parsing1 test; sdt_parsing2 test;
     sdt_pos_emb test; sdt_visual test].

(** The feature columns a table has hold vectors only. *)
Definition feature_columns : list string :=
  ["gcn_bert_base"; "gcn_near_char_density"; "gcn_near_char_number";
   "near_visual_feature"; "gcn_parsing1"; "gcn_parsing2"; "gcn_pos_emb";
   "visual_embedding"].

Definition typed_table (df : DataFrame R) : bool :=
  forallb (fun column =>
             match df_columns df !! column with
             | Some col => forallb (fun lc => is_vec (snd lc)) (map_to_list col)
             | None => true
             end) feature_columns.

(** The loss refuses logits and targets of different batch sizes, as
    [CrossEntropyLoss] does. *)
Definition checks_batch_size (loss : Tensor R -> LongTensor1 -> result R)
  : Prop :=
  forall t targets x, loss (Float2 t) targets = Ok x -> length t = length targets.

(** The number of examples of the batches a loader yields. *)
Definition batch_rows (data : gmap string (Tensor R)) : nat :=
  match data !! "char_density" with
  | Some t => default 0 (leading_dim t)
  | None => 0
  end.

Definition loader_examples (loader : list (result (gmap string (Tensor R))))
  : nat :=
  sum_list (map (fun item => match item with
                             | Ok data => batch_rows data
                             | Err _ => 0
                             end) loader).

(** The counters of [valid] agree: one prediction per counted example,
    no more correct predictions than examples, class indices only. *)
Definition counted (c : Counters R) : Prop :=
  nb_tr_examples c = Z.of_nat (length (output_list c)) /\
  (0 <= n_correct c <= nb_tr_examples c)%Z /\
  Forall (fun z => (0 <= z < 4)%Z) (output_list c).

(** Two tensors with as many rows and, row by row, the same widths. *)
Definition same_shape (a b : Tensor2 R) : Prop :=
  Forall2 (fun r s => length r = length s) a b.

(** From every world whose module is [m] the two computations leave the
    same world, with the module as it is, and either return values related
    by [Rel] or raise the same error. *)
Definition simulates (m : RobertaClass R) {A} (Rel : A -> A -> Prop)
    (c c' : M R A) : Prop :=
  forall w, model w = m ->
    snd (c w) = snd (c' w) /\ model (snd (c w)) = m /\
    match fst (c w), fst (c' w) with
    | Ok a, Ok a' => Rel a a'
    | Err e, Err e' => e = e'
    | _, _ => False
    end.

(** What [forward] reads of the module: the encoder, the nine linear
    layers it calls and the mode. The layers [hidden0] and [hidden4] are
    not among them. *)
Definition read_by_forward (m : RobertaClass R) :=
  (l1 m, pre_classifier m, h1 m, h2 m, h3 m, h4 m,
   hidden1 m, hidden2 m, hidden3 m, classifier m, training m).

(** Two worlds that [forward] cannot tell apart. *)
Definition agree (w w' : World R) : Prop :=
  read_by_forward (model w) = read_by_forward (model w') /\ gen w = gen w'.

(** From worlds that agree the computation has the same outcome and
    leaves worlds that agree. *)
Definition reads_only {A} (c : M R A) : Prop :=
  forall w w', agree w w' ->
    fst (c w) = fst (c w') /\ agree (snd (c w)) (snd (c w')).

(** [m] with other layers [hidden0] and [hidden4]. *)
Definition with_unused_layers (a b : Linear R) (m : RobertaClass R)
  : RobertaClass R :=
  {| l1 := l1 m; pre_classifier := pre_classifier m;
     h1 := h1 m; h2 := h2 m; h3 := h3 m; h4 := h4 m;
     hidden0 := a; hidden1 := hidden1 m; hidden2 := hidden2 m;
     hidden3 := hidden3 m; hidden4 := b;
     classifier := classifier m; training := training m |}.

End DataVocabulary.

(** A batch of one example. *)
Definition demo_single_batch : gmap string (Tensor Z) :=
  <["ids" := Long2 [[101; 2023; 102]]%Z]>
  (<["mask" := Long2 [[1; 1; 1]]%Z]>
  (<["token_type_ids" := Long2 [[0; 0; 0]]%Z]>
  (<["targets" := Float1 [0]%Z]>
  (<["gcn_bert_base" := Float2 (const_tensor 1 768 6)]>
  (<["gcn_bert_large" := Float2 (const_tensor 1 768 9)]>
  (<["char_density" := Float2 (const_tensor 1 768 5)]>
  (<["char_number" := Float2 (const_tensor 1 768 2)]>
  (<["visual_feature" := Float2 (const_tensor 1 768 1)]>
  (<["parsing1" := Float2 (const_tensor 1 768 3)]>
  (<["parsing2" := Float2 (const_tensor 1 768 4)]>
  (<["pos_emb" := Float2 (const_tensor 1 768 7)]>
  (<["visual" := Float2 (const_tensor 1 2048 8)]> ∅)))))))))))).

(** Whether a computation returned, and whether a loader yields a batch
    first. *)
Definition is_Ok {A : Type} (r : result A) : bool :=
  match r with Ok _ => true | Err _ => false end.

Definition yields_batch {A : Type} (loader : list (result A)) : bool :=
  match loader with Ok _ :: _ => true | _ => false end.

(** A table of three rows with feature vectors of two entries, the
    dataset over it and the first batch of a loader of batch size 2. *)
Definition tiny_frame : DataFrame Z :=
  let vec (j : Z) (l : nat) : Cell Z := CVec [(10 * Z.of_nat l + j)%Z; 0%Z] in
  frame_of [0; 1; 2]
    [("text", fun _ => CStr "Total");
     ("label", fun l => CInt (Z.of_nat l));
     ("near_visual_feature", vec 1%Z);
     ("gcn_near_char_density", vec 2%Z);
     ("gcn_near_char_number", vec 3%Z);
     ("gcn_parsing1", vec 4%Z);
     ("gcn_parsing2", vec 5%Z);
     ("gcn_bert_base", vec 6%Z);
     ("gcn_pos_emb", vec 7%Z);
     ("visual_embedding", vec 8%Z);
     ("gcn_bert_large", vec 9%Z)].

Definition no_series : Series Z := mkSeries [] ∅.

Definition tiny_set : SentimentData Z :=
  match SentimentData_init tiny_frame demo_tokenizer 4 with
  | Ok ds => ds
  | Err _ =>
      mkSentimentData demo_tokenizer tiny_frame no_series no_series no_series
        no_series no_series no_series no_series no_series no_series no_series 4
  end.

Definition tiny_test : SentimentData_test Z :=
  match SentimentData_test_init tiny_frame demo_tokenizer 4 with
  | Ok test => test
  | Err _ =>
      mkSentimentData_test demo_tokenizer tiny_frame no_series 4 no_series
        no_series no_series no_series no_series no_series no_series no_series
  end.

(** The sample of row 1. *)
Definition tiny_row : gmap string (Tensor Z) :=
  match SentimentData_getitem tiny_set 1 with
  | Ok d => d
  | Err _ => ∅
  end.

Definition tiny_batch : gmap string (Tensor Z) :=
  match DataLoader tiny_set 2 [0; 1; 2] with
  | Ok batch :: _ => batch
  | _ => ∅
  end.

(** The series of a dataset by the key of the sample they are read for. *)
Definition sample_series {R : Type} (ds : SentimentData R)
  : list (string * Series R) :=
  [("targets", sd_targets ds); ("gcn_bert_base", sd_gcn_bert_base ds);
   ("char_density", sd_char_density ds); ("char_number", sd_char_number ds);
   ("visual_feature", sd_visual_feature ds);
   ("parsing1", sd_parsing1 ds); ("parsing2", sd_parsing2 ds);
   ("pos_emb", sd_pos_emb ds); ("visual", sd_visual ds)].

(** The training set over the tiny table, sampled in reverse order, and
    its first sample. *)
Definition tiny_training_set : SentimentData Z :=
  match SentimentData_init (reset_index (df_sample (@rev nat) tiny_frame))
          demo_tokenizer 4 with
  | Ok ds => ds
  | Err _ => tiny_set
  end.

Definition tiny_sample : gmap string (Tensor Z) :=
  match SentimentData_getitem tiny_training_set 0 with
  | Ok d => d
  | Err _ => ∅
  end.

(** A batch of two examples that [valid] can read: its [gcn_bert_large]
    holds the values of [gcn_bert_base]. *)
Definition demo_valid_batch : gmap string (Tensor Z) :=
  <["gcn_bert_large" := Float2 (const_tensor 2 768 6)]> demo_wide_batch.

(** The two tables the preparation cells make of the demo files. *)
Definition demo_frames : DataFrame Z * DataFrame Z :=
  match prepare_frames demo_files with
  | Ok frames => frames
  | Err _ => (mkDataFrame [] ∅, mkDataFrame [] ∅)
  end.

(** The testing loader over the tiny table and its first batch. *)
Definition tiny_testing_loader : list (result (gmap string (Tensor Z))) :=
  match build_testing_loader tiny_frame demo_tokenizer with
  | Ok loader => loader
  | Err _ => []
  end.

Definition tiny_test_batch : gmap string (Tensor Z) :=
  match tiny_testing_loader with
  | Ok batch :: _ => batch
  | _ => ∅
  end.

(** ** The training loop *)

Section Training.
Context {R : Type} `{Scalar R}.
Local Open Scope monad_scope.

(** [loss_function] is a parameter, as for [valid]. So is the update
    [optimizer.zero_grad(); loss.backward(); optimizer.step()] of the
    global Adam optimizer: from the state of the optimizer, the module,
    the state the random generator had when the forward pass began, and
    the batch, it gives the next state of the optimizer and the module
    with its parameters updated. The update cannot change the mode. *)
Variable loss_function : Tensor R -> LongTensor1 -> result R.
Variable Optimizer : Type.
Variable optimizer_step :
  Optimizer -> RobertaClass R -> Generator -> ModelArgs R -> LongTensor1 ->
  Optimizer * RobertaClass R.

(** [model.train()] on the module object. *)
Definition model_train : M R unit :=
  fun w => (Ok tt, mkWorld (set_training true (model w)) (gen w)).

Definition current_generator : M R Generator := fun w => (Ok (gen w), w).

Definition optimizer_update (opt : Optimizer) (g0 : Generator)
    (args : ModelArgs R) (targets : LongTensor1) : M R Optimizer :=
  fun w =>
    let '(opt', m') := optimizer_step opt (model w) g0 args targets in
    (Ok opt', mkWorld (set_training (training (model w)) m') (gen w)).

(** One turn of the loop of [train]; [step] is the index that
    [enumerate] gives the batch. The list [output] that [train]
    initialises and never reads is the unused [output_list]; of the two
    quotients of every 5000th turn, [loss_step] has a positive divisor
    and is left out, [accu_step] may divide by zero and is kept. *)
Definition train_batch (opt : Optimizer) (c : Counters R) (step : nat)
    (item : result (gmap string (Tensor R))) : M R (Optimizer * Counters R) :=
  data <- lift item ;;
  inputs <- lift (train_inputs data) ;;
  let '(args, targets) := inputs in
  g0 <- current_generator ;;
  outputs <- model_call args ;;
  loss <- lift (loss_function (Float2 outputs) targets) ;;
  let tr_loss := sadd (tr_loss c) loss in
  big_idx <- lift (torch_max_dim1 (Float2 outputs)) ;;
  correct <- lift (calcuate_accuracy big_idx targets) ;;
  let n_correct := (n_correct c + correct)%Z in
  let nb_tr_steps := (nb_tr_steps c + 1)%Z in
  let nb_tr_examples := (nb_tr_examples c + Z.of_nat (length targets))%Z in
  accu_step <- lift (if step mod 5000 =? 0
                     then rmap Some (true_div (n_correct * 100)%Z nb_tr_examples)
                     else Ok None) ;;
  opt' <- optimizer_update opt g0 args targets ;;
  ret (opt', mkCounters n_correct tr_loss nb_tr_steps nb_tr_examples
               (output_list c)).

Fixpoint train_loop (opt : Optimizer) (c : Counters R) (step : nat)
    (loader : list (result (gmap string (Tensor R))))
  : M R (Optimizer * Counters R) :=
  match loader with
  | [] => ret (opt, c)
  | item :: rest =>
      r <- train_batch opt c step item ;;
      train_loop (fst r) (snd r) (S step) rest
  end.

(** [train(epoch)] on the global module, loader and optimizer; [epoch] is
    only printed. The division inside the first [print] is kept. *)
Definition train (opt : Optimizer)
    (training_loader : list (result (gmap string (Tensor R))))
  : M R Optimizer :=
  _ <- model_train ;;
  r <- train_loop opt (mkCounters 0%Z szero 0%Z 0%Z []) 0 training_loader ;;
  let c := snd r in
  printed <- lift (true_div (n_correct c * 100)%Z (nb_tr_examples c)) ;;
  epoch_loss <- lift (if (nb_tr_steps c =? 0)%Z
                      then Err ZeroDivisionError else Ok (tr_loss c)) ;;
  epoch_accu <- lift (true_div (n_correct c * 100)%Z (nb_tr_examples c)) ;;
  ret (fst r).

(** A batch of [B] examples, one at least, that a training step can
    process: it binds, the features have the shapes [forward] needs, the
    encoder returns a hidden state for it in every module the training
    reaches, and the loss accepts its targets. *)
Definition trainable (Inv : RobertaClass R -> Prop)
    (item : result (gmap string (Tensor R))) : Prop :=
  exists data args targets B,
    item = Ok data /\ train_inputs data = Ok (args, targets) /\
    0 < B /\ length targets = B /\
    shape2 B 768 (arg_visual_feature args) /\
    shape2 B 768 (arg_char_density args) /\
    shape2 B 768 (arg_char_number args) /\
    shape2 B 768 (arg_parsing1 args) /\
    shape2 B 768 (arg_parsing2 args) /\
    shape2 B 768 (arg_gcn_bert_base args) /\
    shape2 B 2048 (arg_visual args) /\
    (forall m, Inv m ->
       encodes m (arg_input_ids args) (arg_attention_mask args)
               (arg_token_type_ids args) B) /\
    (forall out, shape2 B 4 out ->
       exists l, loss_function (Float2 out) targets = Ok l).

(** The modules the training reaches: they have the layer sizes of the
    constructor, are in training mode, and an update leads from one to
    another. *)
Definition training_invariant (Inv : RobertaClass R -> Prop) : Prop :=
  (forall m, Inv m -> architecture m /\ training m = true) /\
  (forall opt m g args targets,
     Inv m ->
     Inv (set_training (training m)
            (snd (optimizer_step opt m g args targets)))).

End Training.

Arguments optimizer_update {R Optimizer} optimizer_step opt g0 args targets.
Arguments train_batch {R H} loss_function {Optimizer} optimizer_step
  opt c step item.
Arguments train_loop {R H} loss_function {Optimizer} optimizer_step
  opt c step loader.
Arguments train {R H} loss_function {Optimizer} optimizer_step
  opt training_loader.
Arguments training_invariant {R} {Optimizer} optimizer_step Inv.

(** An optimizer that leaves the module alone, for running [train]. *)
Definition idle_step (opt : unit) (m : RobertaClass Z) (g : Generator)
    (args : ModelArgs Z) (targets : LongTensor1) : unit * RobertaClass Z :=
  (opt, m).

Definition demo_training_model : RobertaClass Z :=
  set_training true (RobertaClass_init zero_bert zero_init).

(** * Properties *)

(** ** The operations on small inputs *)

Example MaxPool2d_drops_an_odd_row :
  MaxPool2d [[[1; 5]; [3; 2]; [9; 9]]]%Z = Ok [[[3; 5]]]%Z.
Proof. reflexivity. Qed.

Example MaxPool2d_refuses_an_empty_dimension :
  MaxPool2d ([] : list (list (list Z))) = Err (DimMismatch "pooling") /\
  MaxPool2d [[[]; []]]%Z = Err (DimMismatch "pooling") /\
  MaxPool2d [[[1; 5]]]%Z = Err (DimMismatch "pooling").
Proof. repeat split. Qed.

Example cat3_refuses_two_widths :
  cat3 [[[1; 2]]]%Z [[[3; 4; 5]]]%Z = Err (DimMismatch "cat").
Proof. reflexivity. Qed.

Example cat2_joins_rows :
  cat2 [[[1]; [2]]; [[3; 4]; [5; 6]]]%Z = Ok [[1; 3; 4]; [2; 5; 6]]%Z.
Proof. reflexivity. Qed.

Example Linear_forward_on_two_rows :
  Linear_forward
    (mkLinear 2 3 (fun i j => Z.of_nat (i + j)) (fun i => Z.of_nat i))
    [[1; 10]; [2; 20]]%Z
  = Ok [[10; 22; 34]; [20; 43; 66]]%Z.
Proof. reflexivity. Qed.

Example Linear_forward_refuses_a_width :
  Linear_forward (mkLinear 2 3 (fun _ _ => 0%Z) (fun _ => 0%Z)) [[1; 2; 3]]%Z
  = Err (DimMismatch "linear").
Proof. reflexivity. Qed.

Example dropout_masks_in_row_major_order :
  drop_rows Nat.even 0 [[1; 2; 3]; [4; 5; 6]]%Z
  = ([[1; 0; 3]; [0; 5; 0]]%Z, 6).
Proof. reflexivity. Qed.

Example squeeze_of_one_example :
  squeeze [[1; 2; 3; 4]]%Z = Float1 [1; 2; 3; 4]%Z /\
  torch_max_dim1 (squeeze [[1; 2; 3; 4]]%Z) = Err (IndexError "dim").
Proof. split; reflexivity. Qed.

Example argmax_takes_the_first_maximum :
  torch_max_dim1 (squeeze [[1; 2; 3; 3]; [9; 2; 3; 4]]%Z) = Ok [2; 0]%Z.
Proof. reflexivity. Qed.

Example calcuate_accuracy_broadcasts :
  calcuate_accuracy [1]%Z [1; 2; 1]%Z = Ok 2%Z /\
  calcuate_accuracy [1; 2]%Z [1; 2; 1]%Z = Err (DimMismatch "eq").
Proof. split; reflexivity. Qed.

Example chunks_keeps_a_short_last_batch :
  chunks 5 2 [0; 1; 2; 3; 4] = [[0; 1]; [2; 3]; [4]].
Proof. reflexivity. Qed.

(** ** Shapes through the tensor operations *)

Section ShapeLemmas.
Context {R : Type} `{Scalar R}.

Lemma forallb_length (A : Type) (n : nat) (t : list (list A)) :
  forallb (fun r => length r =? n) t = true <-> Forall (fun r => length r = n) t.
Proof.
  induction t as [|r t IH]; simpl.
  - split; auto.
  - rewrite andb_true_iff, Nat.eqb_eq, IH. split.
    + intros [? ?]. by constructor.
    + by inversion 1.
Qed.

Lemma linear_row_length (l : Linear R) (r : list R) :
  length (linear_row l r) = out_features l.
Proof. unfold linear_row. by rewrite length_map, length_seq. Qed.

Lemma Linear_forward_Ok (l : Linear R) (x y : Tensor2 R) :
  Linear_forward l x = Ok y ->
  y = map (linear_row l) x /\ Forall (fun r => length r = in_features l) x.
Proof.
  unfold Linear_forward.
  destruct (forallb _ x) eqn:E; [|discriminate].
  intros [= <-]. split; [done|]. by apply forallb_length.
Qed.

Lemma Linear_forward_shape (l : Linear R) (B : nat) (x : Tensor2 R) :
  shape2 B (in_features l) x ->
  exists y, Linear_forward l x = Ok y /\ shape2 B (out_features l) y.
Proof.
  intros [HB HW]. exists (map (linear_row l) x). split.
  - unfold Linear_forward. apply forallb_length in HW. by rewrite HW.
  - split; [by rewrite length_map|].
    apply Forall_map, Forall_forall. intros r _. apply linear_row_length.
Qed.

Lemma Tanh_shape (B W : nat) (t : Tensor2 R) :
  shape2 B W t -> shape2 B W (Tanh t).
Proof.
  intros [HB HW]. split; unfold Tanh; [by rewrite length_map|].
  apply Forall_map. eapply Forall_impl; [exact HW|].
  intros r Hr. simpl. by rewrite length_map.
Qed.

Lemma Tanh_length (t : Tensor2 R) : length (Tanh t) = length t.
Proof. unfold Tanh. by rewrite length_map. Qed.

Lemma drop_row_length (d : nat -> bool) (c : nat) (r : list R) :
  length (drop_row d c r) = length r.
Proof. revert c. induction r as [|x r IH]; intros c; simpl; [done|]. by rewrite IH. Qed.

Lemma drop_rows_shape (d : nat -> bool) (c : nat) (B W : nat) (t : Tensor2 R) :
  shape2 B W t -> shape2 B W (fst (drop_rows d c t)).
Proof.
  intros [HB HW]. subst B. revert c.
  induction HW as [|r t Hr HW IH]; intros c; simpl; [by split|].
  destruct (drop_rows d (c + length r) t) as [u c'] eqn:E.
  specialize (IH (c + length r)). rewrite E in IH. destruct IH as [IH1 IH2].
  unfold shape2. simpl in *. split; [by f_equal|].
  constructor; [by rewrite drop_row_length|done].
Qed.

Lemma drop_rows_length (d : nat -> bool) (c : nat) (t : Tensor2 R) :
  length (fst (drop_rows d c t)) = length t.
Proof.
  revert c. induction t as [|r t IH]; intros c; simpl; [done|].
  specialize (IH (c + length r)).
  destruct (drop_rows d (c + length r) t) as [u c']. simpl in *. by f_equal.
Qed.

Lemma zip_unsqueeze (a b : Tensor2 R) :
  zip_with app (unsqueeze1 a) (unsqueeze1 b) = stack a b.
Proof.
  unfold unsqueeze1, stack. revert b.
  induction a as [|r a IH]; intros [|s b]; simpl; [done..|]. by rewrite IH.
Qed.

Lemma stack_uniform (a b : Tensor2 R) :
  length a = length b ->
  forallb uniform_width (stack a b) = true <->
  Forall2 (fun r s => length r = length s) a b.
Proof.
  unfold stack. revert b.
  induction a as [|r a IH]; intros [|s b] E; simpl in *; try discriminate.
  - split; [constructor|done].
  - rewrite !andb_true_iff, Nat.eqb_eq, IH by lia. split.
    + intros [[? _] ?]. by constructor.
    + inversion 1; subst. by repeat split.
Qed.

Lemma shape2_Forall2 (B W : nat) (a b : Tensor2 R) :
  shape2 B W a -> shape2 B W b ->
  Forall2 (fun r s => length r = length s) a b.
Proof.
  intros [Ha Wa] [Hb Wb]. subst B. revert b Hb Wb.
  induction Wa as [|r a Hr Wa IH]; intros [|s b] Hb Wb; simpl in *;
    try done; try by constructor.
  inversion Wb; subst. constructor; [congruence|]. apply IH; [lia|done].
Qed.

Lemma cat3_unsqueeze_Ok (a b : Tensor2 R) (t : Tensor3 R) :
  cat3 (unsqueeze1 a) (unsqueeze1 b) = Ok t ->
  length a = length b /\ Forall2 (fun r s => length r = length s) a b /\
  t = stack a b.
Proof.
  unfold cat3. rewrite zip_unsqueeze.
  unfold unsqueeze1 at 1 2. rewrite !length_map.
  destruct (length a =? length b) eqn:E; simpl; [|discriminate].
  apply Nat.eqb_eq in E.
  destruct (forallb uniform_width (stack a b)) eqn:U; [|discriminate].
  intros [= <-]. by apply stack_uniform in U.
Qed.

Lemma cat3_unsqueeze_same (a b : Tensor2 R) :
  length a = length b -> Forall2 (fun r s => length r = length s) a b ->
  cat3 (unsqueeze1 a) (unsqueeze1 b) = Ok (stack a b).
Proof.
  intros E F. unfold cat3. rewrite zip_unsqueeze.
  unfold unsqueeze1 at 1 2. rewrite !length_map, E, Nat.eqb_refl. simpl.
  apply stack_uniform in F; [|done]. by rewrite F.
Qed.

Lemma pool_squeeze_stack (a b : Tensor2 R) :
  rbind (MaxPool2d (stack a b)) squeeze1
  = if pool_check (stack a b) then Ok (zip_with (zip_with smax) a b)
    else Err (DimMismatch "pooling").
Proof.
  unfold MaxPool2d. destruct (pool_check (stack a b)); [|done].
  simpl. unfold squeeze1.
  assert (forallb (fun ex => length ex =? 1) (map pool_rows (stack a b)) = true) as ->.
  { unfold stack. revert b. induction a as [|r a IH]; intros [|s b]; simpl; auto. }
  f_equal. unfold stack. revert b.
  induction a as [|r a IH]; intros [|s b]; simpl; [done..|]. by rewrite IH.
Qed.

(** What [forward] squeezes always has size 1 in dimension 1. *)
Lemma squeeze1_pool_stack (a b : Tensor2 R) (x : Tensor3 R) :
  MaxPool2d (stack a b) = Ok x -> exists t, squeeze1 x = Ok t.
Proof.
  intros E. pose proof (pool_squeeze_stack a b) as P. rewrite E in P.
  simpl in P. unfold MaxPool2d in E.
  destruct (pool_check (stack a b)); [|discriminate]. by eexists.
Qed.

Lemma pool_check_rows (a b : Tensor2 R) :
  Forall2 (fun r s => length r = length s) a b ->
  pool_check (stack a b)
  = negb (length a =? 0) && forallb (fun r => negb (length r =? 0)) a.
Proof.
  intros F. unfold pool_check, stack.
  rewrite length_zip_with, <- (Forall2_length _ _ _ F), Nat.min_id. f_equal.
  induction F as [|r s a b E F IH]; [done|].
  cbn [zip_with forallb length]. rewrite IH, <- E.
  by destruct (length r =? 0).
Qed.

(** The shape check of the pooling on a stack of two tensors of shape
    (B, W): it asks for a batch and for a width. *)
Lemma pool_check_stack (B W : nat) (a b : Tensor2 R) :
  shape2 B W a -> shape2 B W b ->
  pool_check (stack a b) = negb (B =? 0) && negb (W =? 0).
Proof.
  intros Sa Sb.
  rewrite (pool_check_rows a b (shape2_Forall2 B W a b Sa Sb)).
  destruct Sa as [Ha Wa]. rewrite Ha.
  destruct B as [|B]; [done|]. simpl.
  destruct a as [|r a]; [done|]. simpl.
  inversion Wa as [|? ? Hr Wa']; subst.
  destruct (length r =? 0) eqn:E; simpl; [done|].
  apply forallb_forall. intros r' Hin.
  apply (proj1 (List.Forall_forall _ _) Wa') in Hin. by rewrite Hin, E.
Qed.

Lemma zip_smax_shape (B W : nat) (a b : Tensor2 R) :
  shape2 B W a -> shape2 B W b -> shape2 B W (zip_with (zip_with smax) a b).
Proof.
  intros [Ha Wa] [Hb Wb]. split; [rewrite length_zip_with; lia|].
  subst B. revert b Hb Wb.
  induction Wa as [|r a Hr Wa IH]; intros [|s b] Hb Wb; simpl in *; try done.
  inversion Wb; subst. constructor.
  - rewrite length_zip_with. lia.
  - apply IH; [lia|done].
Qed.

Lemma zip_smax_length (a b : Tensor2 R) :
  length a = length b -> length (zip_with (zip_with smax) a b) = length a.
Proof. intros E. rewrite length_zip_with. lia. Qed.

(** One fusion, check by check: [torch.cat] compares the shapes, the
    pooling refuses an empty dimension, and what is left is the element-wise
    maximum. *)
Lemma pairwise_fusion_checks (a b : Tensor2 R) :
  pairwise_fusion a b
  = if (length a =? length b) && forallb uniform_width (stack a b)
    then if pool_check (stack a b)
         then Ok (zip_with (zip_with smax) a b)
         else Err (DimMismatch "pooling")
    else Err (DimMismatch "cat").
Proof.
  unfold pairwise_fusion, cat3. rewrite zip_unsqueeze.
  unfold unsqueeze1 at 1 2. rewrite !length_map.
  destruct (_ && _); [|done]. simpl. apply pool_squeeze_stack.
Qed.

Lemma cat_check_rows (a b : Tensor2 R) :
  (length a =? length b) && forallb uniform_width (stack a b) = true <->
  Forall2 (fun r s => length r = length s) a b.
Proof.
  rewrite andb_true_iff, Nat.eqb_eq. split.
  - intros [E U]. by apply stack_uniform.
  - intros F. pose proof (Forall2_length _ _ _ F) as E.
    split; [done|]. by apply stack_uniform.
Qed.

Lemma pairwise_fusion_same (a b : Tensor2 R) :
  Forall2 (fun r s => length r = length s) a b ->
  a <> [] -> Forall (fun r => r <> []) a ->
  pairwise_fusion a b = Ok (zip_with (zip_with smax) a b).
Proof.
  intros F Na Nr. rewrite pairwise_fusion_checks.
  rewrite (proj2 (cat_check_rows a b) F), (pool_check_rows a b F).
  assert (negb (length a =? 0) = true) as ->.
  { destruct a; [done|reflexivity]. }
  assert (forallb (fun r : list R => negb (length r =? 0)) a = true) as ->; [|done].
  apply forallb_forall. intros r Hr.
  apply (proj1 (List.Forall_forall _ _) Nr) in Hr. by destruct r.
Qed.

Lemma pairwise_fusion_shape (B W : nat) (a b : Tensor2 R) :
  0 < B -> 0 < W -> shape2 B W a -> shape2 B W b ->
  pairwise_fusion a b = Ok (zip_with (zip_with smax) a b).
Proof.
  intros HB HW Sa Sb. rewrite pairwise_fusion_checks.
  rewrite (proj2 (cat_check_rows a b) (shape2_Forall2 B W a b Sa Sb)).
  rewrite (pool_check_stack B W a b Sa Sb).
  destruct B; [lia|]. by destruct W; [lia|].
Qed.

Lemma pairwise_fusion_empty (B W : nat) (a b : Tensor2 R) :
  shape2 B W a -> shape2 B W b -> B = 0 \/ W = 0 ->
  pairwise_fusion a b = Err (DimMismatch "pooling").
Proof.
  intros Sa Sb E. rewrite pairwise_fusion_checks.
  rewrite (proj2 (cat_check_rows a b) (shape2_Forall2 B W a b Sa Sb)).
  rewrite (pool_check_stack B W a b Sa Sb).
  destruct E as [-> | ->]; [done|]. by rewrite andb_false_r.
Qed.

(** What a fusion that returns tells: the rows match, there is a row, and
    no row is empty. *)
Lemma pairwise_fusion_Ok_rows (a b v : Tensor2 R) :
  pairwise_fusion a b = Ok v ->
  Forall2 (fun r s => length r = length s) a b /\
  a <> [] /\ Forall (fun r => r <> []) a /\
  v = zip_with (zip_with smax) a b.
Proof.
  rewrite pairwise_fusion_checks.
  destruct (_ && _) eqn:C; [|discriminate].
  apply cat_check_rows in C. rewrite (pool_check_rows a b C).
  destruct (negb (length a =? 0)) eqn:Na; [|discriminate]. simpl.
  destruct (forallb _ a) eqn:Nr; [|discriminate].
  intros [= <-]. split; [done|]. split; [by destruct a|]. split; [|done].
  apply List.Forall_forall. intros r Hr.
  apply (proj1 (forallb_forall _ _) Nr) in Hr. by destruct r.
Qed.

Lemma pairwise_fusion_Ok (a b v : Tensor2 R) :
  pairwise_fusion a b = Ok v ->
  length a = length b /\ v = zip_with (zip_with smax) a b.
Proof.
  intros E. apply pairwise_fusion_Ok_rows in E as (F & _ & _ & ->).
  split; [|done]. by eapply Forall2_length.
Qed.

Lemma zip_app_nil (n : nat) (d : list (list R)) :
  length d = n -> zip_with app d (replicate n []) = d.
Proof.
  revert n. induction d as [|r d IH]; intros [|n] E; simpl in *; try done.
  rewrite app_nil_r, IH; [done|lia].
Qed.

Lemma cat2_4_Ok (a b c d t : Tensor2 R) :
  cat2 [a; b; c; d] = Ok t ->
  length b = length a /\ length c = length a /\ length d = length a /\
  t = join4 a b c d.
Proof.
  unfold cat2. simpl.
  destruct (length b =? length a) eqn:Eb; simpl; [|discriminate].
  destruct (length c =? length a) eqn:Ec; simpl; [|discriminate].
  destruct (length d =? length a) eqn:Ed; simpl; [|discriminate].
  apply Nat.eqb_eq in Eb, Ec, Ed. intros [= <-].
  repeat split; try done. unfold join4. by rewrite zip_app_nil.
Qed.

Lemma cat2_4_same (a b c d : Tensor2 R) :
  length b = length a -> length c = length a -> length d = length a ->
  cat2 [a; b; c; d] = Ok (join4 a b c d).
Proof.
  intros Eb Ec Ed. unfold cat2. simpl.
  rewrite Eb, Ec, Ed, Nat.eqb_refl. simpl.
  unfold join4. by rewrite zip_app_nil.
Qed.

Lemma join4_lookup (a b c d : list (list R)) (i : nat) (row : list R) :
  (join4 a b c d : list (list R)) !! i = Some row ->
  exists ra rb rc rd,
    a !! i = Some ra /\ b !! i = Some rb /\ c !! i = Some rc /\
    d !! i = Some rd /\ row = ra ++ rb ++ rc ++ rd.
Proof.
  unfold join4. rewrite !lookup_zip_with.
  destruct (a !! i) as [ra|]; simpl; [|done].
  destruct (b !! i) as [rb|]; simpl; [|done].
  destruct (c !! i) as [rc|]; simpl; [|done].
  destruct (d !! i) as [rd|]; simpl; [|done].
  intros [= <-]. by exists ra, rb, rc, rd.
Qed.

Lemma join4_length (a b c d : Tensor2 R) :
  length b = length a -> length c = length a -> length d = length a ->
  length (join4 a b c d) = length a.
Proof. intros. unfold join4. rewrite !length_zip_with. lia. Qed.

Lemma zip_app_shape (B W1 W2 : nat) (a b : Tensor2 R) :
  length a = B -> Forall (fun r => length r = W1) a ->
  length b = B -> Forall (fun r => length r = W2) b ->
  Forall (fun r => length r = W1 + W2) (zip_with app a b).
Proof.
  intros Ha Wa. subst B. revert b.
  induction Wa as [|r a Hr Wa IH]; intros [|s b] Hb Wb; simpl in *;
    try done; try by constructor.
  inversion Wb; subst. constructor.
  - by rewrite length_app.
  - apply IH; [lia|done].
Qed.

Lemma join4_shape (B W1 W2 W3 W4 : nat) (a b c d : Tensor2 R) :
  shape2 B W1 a -> shape2 B W2 b -> shape2 B W3 c -> shape2 B W4 d ->
  shape2 B (W1 + (W2 + (W3 + W4))) (join4 a b c d).
Proof.
  intros [Ha Wa] [Hb Wb] [Hc Wc] [Hd Wd]. split.
  - rewrite join4_length; congruence.
  - unfold join4. eapply zip_app_shape; eauto.
    + rewrite !length_zip_with. lia.
    + eapply zip_app_shape; eauto.
      * rewrite !length_zip_with. lia.
      * eapply zip_app_shape; eauto.
Qed.

Lemma select_first_shape (B Hd : nat) (hs : Tensor3 R) :
  hidden_shape B Hd hs ->
  exists p, select_first hs = Ok p /\ shape2 B Hd p.
Proof.
  intros [HB HW]. exists (map (fun ex => hd [] ex) hs). split.
  - unfold select_first.
    assert (forallb (fun ex => 1 <=? length ex) hs = true) as ->; [|done].
    clear HB. induction HW as [|ex hs (r & rest & -> & _) _ IH]; simpl; auto.
  - split; [by rewrite length_map|]. apply Forall_map.
    eapply Forall_impl; [exact HW|]. by intros ex (r & rest & -> & Hr).
Qed.

Lemma init_architecture (bert : Encoder R) (theta : Init R) (b : bool) :
  architecture (set_training b (RobertaClass_init bert theta)).
Proof. by split. Qed.

End ShapeLemmas.

(** ** Rules for code in the monad *)

Section Rules.
Context {R : Type} `{Scalar R}.
Variable m : RobertaClass R.

Lemma total_ret {A} (a : A) (Q : A -> Prop) : Q a -> total m (ret a) Q.
Proof. intros q w Hw. by exists a, w. Qed.

Lemma total_bind {A B} (c : M R A) (k : A -> M R B) (P : A -> Prop) (Q : B -> Prop) :
  total m c P -> (forall a, P a -> total m (k a) Q) -> total m (bind c k) Q.
Proof.
  intros Hc Hk w Hw. destruct (Hc w Hw) as (a & w1 & E & Hw1 & Pa).
  destruct (Hk a Pa w1 Hw1) as (b & w2 & E2 & Hw2 & Qb).
  exists b, w2. unfold bind. by rewrite E.
Qed.

Lemma total_lift {A} (r : result A) (a : A) (Q : A -> Prop) :
  r = Ok a -> Q a -> total m (lift r) Q.
Proof. intros -> q w Hw. by exists a, w. Qed.

Lemma total_call (layer : RobertaClass R -> Linear R) (B n_in n_out : nat)
      (x : Tensor2 R) :
  in_features (layer m) = n_in -> out_features (layer m) = n_out ->
  shape2 B n_in x -> total m (self_call layer x) (shape2 B n_out).
Proof.
  intros <- <- Sx w Hw. destruct (Linear_forward_shape _ _ _ Sx) as (y & E & Sy).
  exists y, w. unfold self_call. rewrite Hw, E. done.
Qed.

Lemma total_dropout (B W : nat) (x : Tensor2 R) :
  shape2 B W x -> total m (self_dropout x) (shape2 B W).
Proof.
  intros Sx w Hw. unfold self_dropout. destruct (training (model w)).
  - pose proof (drop_rows_shape (draws (gen w)) (cursor (gen w)) _ _ _ Sx) as S.
    destruct (drop_rows _ _ x) as [y c]. by eexists _, _.
  - by exists x, w.
Qed.

Lemma total_l1 (ids mask tti : LongTensor2) (B : nat) :
  encodes m ids mask tti B ->
  total m (self_l1 ids mask tti) (hidden_shape B 768).
Proof.
  unfold encodes. intros He w Hw. unfold self_l1. rewrite Hw.
  destruct (training m).
  - destruct (He (gen w)) as (hs & E & Hs).
    destruct (enc_train _ _ _ _ _) as [r g]. simpl in E. subst r.
    by eexists _, _.
  - destruct He as (hs & -> & Hs). by exists hs, w.
Qed.

(** The two statements of a fusion, run in the monad. *)
Lemma fusion_steps {A} (a b : Tensor2 R) (k : Tensor2 R -> M R A) (w : World R) :
  bind (lift (cat3 (unsqueeze1 a) (unsqueeze1 b)))
       (fun x => bind (lift (rbind (MaxPool2d x) squeeze1)) k) w
  = bind (lift (pairwise_fusion a b)) k w.
Proof.
  unfold bind, lift, pairwise_fusion.
  destruct (cat3 (unsqueeze1 a) (unsqueeze1 b)) as [t|]; simpl; [|done].
  by destruct (rbind (MaxPool2d t) squeeze1).
Qed.

Lemma total_fusion {A} (B W : nat) (a b : Tensor2 R)
      (k : Tensor2 R -> M R A) (Q : A -> Prop) :
  0 < B -> 0 < W -> shape2 B W a -> shape2 B W b ->
  (forall v, shape2 B W v -> total m (k v) Q) ->
  total m (bind (lift (cat3 (unsqueeze1 a) (unsqueeze1 b)))
                (fun x => bind (lift (rbind (MaxPool2d x) squeeze1)) k)) Q.
Proof.
  intros HB HW Sa Sb Hk w Hw. rewrite fusion_steps.
  unfold bind, lift. rewrite (pairwise_fusion_shape B W) by done.
  apply (Hk _ (zip_smax_shape _ _ _ _ Sa Sb) w Hw).
Qed.

(** A linear layer, then [Tanh], then [self.dropout]. *)
Lemma total_stage {A} (layer : RobertaClass R -> Linear R)
      (B n_in n_out : nat) (x : Tensor2 R) (k : Tensor2 R -> M R A)
      (Q : A -> Prop) :
  in_features (layer m) = n_in -> out_features (layer m) = n_out ->
  shape2 B n_in x ->
  (forall v, shape2 B n_out v -> total m (k v) Q) ->
  total m (bind (self_call layer x)
                (fun y => bind (self_dropout (Tanh y)) k)) Q.
Proof.
  intros Hin Hout Sx Hk.
  eapply total_bind; [eapply total_call; eassumption|]. intros y Sy. simpl.
  eapply total_bind; [by eapply total_dropout, Tanh_shape|]. done.
Qed.

Lemma partial_ret {A} (a : A) (Q : A -> Prop) : Q a -> partial m (ret a) Q.
Proof. intros q w Hw. split; [done|]. by intros a' [= <-]. Qed.

Lemma partial_bind {A B} (c : M R A) (k : A -> M R B) (P : A -> Prop) (Q : B -> Prop) :
  partial m c P -> (forall a, P a -> partial m (k a) Q) -> partial m (bind c k) Q.
Proof.
  intros Hc Hk w Hw. unfold bind. destruct (Hc w Hw) as [Hm HP].
  destruct (c w) as [[a|e] w1]; simpl in *.
  - by apply Hk; [apply HP|].
  - by split.
Qed.

Lemma partial_lift {A} (r : result A) (Q : A -> Prop) :
  (forall a, r = Ok a -> Q a) -> partial m (lift r) Q.
Proof. intros q w Hw. by split. Qed.

Lemma partial_call (layer : RobertaClass R -> Linear R) (x : Tensor2 R) :
  partial m (self_call layer x)
          (fun y => y = map (linear_row (layer m)) x /\
                    Forall (fun r => length r = in_features (layer m)) x).
Proof.
  intros w Hw. unfold self_call. simpl. split; [done|].
  rewrite Hw. intros y. apply Linear_forward_Ok.
Qed.

Lemma partial_dropout (x : Tensor2 R) :
  partial m (self_dropout x) (fun y => length y = length x).
Proof.
  intros w Hw. unfold self_dropout.
  destruct (training (model w)).
  - pose proof (drop_rows_length (draws (gen w)) (cursor (gen w)) x) as L.
    destruct (drop_rows _ _ x) as [u c]. simpl in *. split; [done|].
    by intros y [= <-].
  - split; [done|]. by intros y [= <-].
Qed.

Lemma partial_l1 (ids mask tti : LongTensor2) :
  partial m (self_l1 ids mask tti) (fun _ => True).
Proof.
  intros w Hw. unfold self_l1.
  destruct (training (model w)).
  - by destruct (enc_train _ _ _ _ _) as [r g].
  - by split.
Qed.

Lemma partial_weaken {A} (c : M R A) (P Q : A -> Prop) :
  partial m c P -> (forall a, P a -> Q a) -> partial m c Q.
Proof. intros Hc PQ w Hw. destruct (Hc w Hw). split; auto. Qed.

Lemma partial_fusion {A} (a b : Tensor2 R) (k : Tensor2 R -> M R A)
      (Q : A -> Prop) :
  (forall v, length a = length b -> length v = length a ->
             partial m (k v) Q) ->
  partial m (bind (lift (cat3 (unsqueeze1 a) (unsqueeze1 b)))
                  (fun x => bind (lift (rbind (MaxPool2d x) squeeze1)) k)) Q.
Proof.
  intros Hk w Hw. rewrite fusion_steps. unfold bind, lift.
  destruct (pairwise_fusion a b) as [v|] eqn:E; [|by split].
  apply pairwise_fusion_Ok in E as [El ->].
  apply Hk; [done| |done]. by apply zip_smax_length.
Qed.

Lemma partial_stage {A} (layer : RobertaClass R -> Linear R) (x : Tensor2 R)
      (k : Tensor2 R -> M R A) (Q : A -> Prop) :
  (forall v, length v = length x ->
             Forall (fun r => length r = in_features (layer m)) x ->
             partial m (k v) Q) ->
  partial m (bind (self_call layer x)
                  (fun y => bind (self_dropout (Tanh y)) k)) Q.
Proof.
  intros Hk.
  eapply partial_bind; [apply partial_call|]. intros y [-> Wx]. simpl.
  eapply partial_bind; [apply partial_dropout|]. intros v Lv.
  apply Hk; [|done]. by rewrite Lv, Tanh_length, length_map.
Qed.

(** In evaluation mode. *)
Section Eval.
Hypothesis eval_mode : training m = false.

Lemma pure_ret {A} (a : A) : pure_as m (ret a) (Ok a).
Proof. by intros w Hw. Qed.

Lemma pure_lift {A} (r : result A) : pure_as m (lift r) r.
Proof. by intros w Hw. Qed.

Lemma pure_call (layer : RobertaClass R -> Linear R) (x : Tensor2 R) :
  pure_as m (self_call layer x) (Linear_forward (layer m) x).
Proof. intros w Hw. unfold self_call. by rewrite Hw. Qed.

Lemma pure_dropout (x : Tensor2 R) : pure_as m (self_dropout x) (Ok x).
Proof. intros w Hw. unfold self_dropout. by rewrite Hw, eval_mode. Qed.

Lemma pure_l1 (ids mask tti : LongTensor2) :
  pure_as m (self_l1 ids mask tti) (enc_eval (l1 m) ids mask tti).
Proof. intros w Hw. unfold self_l1. by rewrite Hw, eval_mode. Qed.

Lemma pure_bind {A B} (c : M R A) (k : A -> M R B)
      (r : result A) (f : A -> result B) :
  pure_as m c r -> (forall a, pure_as m (k a) (f a)) ->
  pure_as m (bind c k) (rbind r f).
Proof.
  intros Hc Hk w Hw. unfold bind. rewrite (Hc w Hw).
  destruct r as [a|e]; simpl; [|done]. by apply Hk.
Qed.

Lemma pure_fusion {A} (a b : Tensor2 R) (k : Tensor2 R -> M R A)
      (f : Tensor2 R -> result A) :
  (forall v, pure_as m (k v) (f v)) ->
  pure_as m (bind (lift (cat3 (unsqueeze1 a) (unsqueeze1 b)))
                  (fun x => bind (lift (rbind (MaxPool2d x) squeeze1)) k))
          (rbind (pairwise_fusion a b) f).
Proof.
  intros Hk w Hw. rewrite fusion_steps.
  revert w Hw. apply pure_bind; [apply pure_lift|done].
Qed.

Lemma pure_stage {A} (layer : RobertaClass R -> Linear R) (x : Tensor2 R)
      (k : Tensor2 R -> M R A) (f : Tensor2 R -> result A) :
  (forall v, pure_as m (k v) (f v)) ->
  pure_as m (bind (self_call layer x)
                  (fun y => bind (self_dropout (Tanh y)) k))
          (rbind (Linear_forward (layer m) x) (fun y => f (Tanh y))).
Proof.
  intros Hk. apply pure_bind; [apply pure_call|]. intros y.
  change (f (Tanh y)) with (rbind (Ok (Tanh y)) f).
  apply pure_bind; [by apply pure_dropout|done].
Qed.

End Eval.

End Rules.

(** ** The forward pass returns, with the documented shapes *)

Section ForwardTotal.
Context {R : Type} `{Scalar R}.
Variable m : RobertaClass R.
Hypothesis arch : architecture m.
Variables (input_ids attention_mask token_type_ids : LongTensor2).
Variables (visual_feature char_density char_number parsing1 parsing2
           gcn_bert_base : Tensor2 R).
Context {P : Type}.
Variable pos_emb : P.
Variable visual : Tensor2 R.
Variable B : nat.
Hypothesis B_pos : 0 < B.
Hypothesis enc_ok : encodes m input_ids attention_mask token_type_ids B.
Hypothesis S_visual_feature : shape2 B 768 visual_feature.
Hypothesis S_char_density : shape2 B 768 char_density.
Hypothesis S_char_number : shape2 B 768 char_number.
Hypothesis S_parsing1 : shape2 B 768 parsing1.
Hypothesis S_parsing2 : shape2 B 768 parsing2.
Hypothesis S_gcn_bert_base : shape2 B 768 gcn_bert_base.
Hypothesis S_visual : shape2 B 2048 visual.

Lemma forward_branches_total :
  total m (forward_branches input_ids attention_mask token_type_ids
             visual_feature char_density char_number parsing1 parsing2
             gcn_bert_base pos_emb visual)
        (fun '(pooler, visual', parsing, density) =>
           shape2 B 768 pooler /\ shape2 B 768 visual' /\
           shape2 B 768 parsing /\ shape2 B 768 density).
Proof.
  destruct arch. unfold forward_branches.
  eapply total_bind; [by apply total_l1|]. intros hs Hhs. simpl.
  destruct (select_first_shape _ _ _ Hhs) as (p & Ep & Sp).
  eapply total_bind; [by eapply total_lift|]. intros p0 Sp0.
  apply (total_stage m pre_classifier B 768 768); [assumption..|]. intros p1 Sp1.
  apply (total_fusion m B 768);
    [assumption | apply Nat.lt_0_succ | assumption.. |]. intros o1 So1.
  apply (total_stage m h1 B 768 768); [assumption..|]. intros pooler Spooler.
  apply (total_fusion m B 768);
    [assumption | apply Nat.lt_0_succ | assumption.. |]. intros pa1 Spa1.
  apply (total_stage m h2 B 768 768); [assumption..|]. intros parsing Sparsing.
  apply (total_fusion m B 768);
    [assumption | apply Nat.lt_0_succ | assumption.. |]. intros d1 Sd1.
  apply (total_stage m h3 B 768 768); [assumption..|]. intros density Sdensity.
  apply (total_stage m hidden1 B 2048 768); [assumption..|]. intros v1 Sv1.
  apply (total_fusion m B 768);
    [assumption | apply Nat.lt_0_succ | assumption.. |]. intros o2 So2.
  apply (total_stage m h4 B 768 768); [assumption..|]. intros visual' Svisual'.
  by apply total_ret.
Qed.

Lemma forward_concat_total :
  total m (forward_concat input_ids attention_mask token_type_ids
             visual_feature char_density char_number parsing1 parsing2
             gcn_bert_base pos_emb visual)
        (shape2 B 3072).
Proof.
  unfold forward_concat.
  eapply total_bind; [apply forward_branches_total|].
  intros [[[pooler visual'] parsing] density] (Sp & Sv & Spa & Sd).
  eapply total_lift.
  - apply cat2_4_same.
    + destruct Sp, Sv. congruence.
    + destruct Sp, Spa. congruence.
    + destruct Sp, S_char_density. congruence.
  - by apply (join4_shape B 768 768 768 768).
Qed.

Lemma forward_head_total (x : Tensor2 R) :
  shape2 B 3072 x -> total m (forward_head x) (shape2 B 4).
Proof.
  destruct arch. intros Sx. unfold forward_head.
  apply (total_stage m hidden3 B 3072 3072); [assumption..|]. intros x1 Sx1.
  apply (total_stage m hidden2 B 3072 512); [assumption..|]. intros x2 Sx2.
  eapply total_bind; [by apply (total_call m classifier B 512 4)|].
  intros out Sout.
  by apply total_ret.
Qed.

Lemma forward_total :
  total m (forward input_ids attention_mask token_type_ids
             visual_feature char_density char_number parsing1 parsing2
             gcn_bert_base pos_emb visual)
        (shape2 B 4).
Proof.
  unfold forward.
  eapply total_bind; [apply forward_concat_total|].
  apply forward_head_total.
Qed.

End ForwardTotal.

(** ** What a forward pass that returns tells about its arguments *)

Section ForwardPartial.
Context {R : Type} `{Scalar R}.
Variable m : RobertaClass R.
Variables (input_ids attention_mask token_type_ids : LongTensor2).
Variables (visual_feature char_density char_number parsing1 parsing2
           gcn_bert_base : Tensor2 R).
Context {P : Type}.
Variable pos_emb : P.
Variable visual : Tensor2 R.

Lemma forward_branches_partial :
  partial m (forward_branches input_ids attention_mask token_type_ids
               visual_feature char_density char_number parsing1 parsing2
               gcn_bert_base pos_emb visual)
          (fun '(pooler, visual', parsing, density) =>
             length pooler = length gcn_bert_base /\
             length visual' = length visual /\
             length visual = length visual_feature /\
             length parsing = length parsing1 /\
             length parsing1 = length parsing2 /\
             length density = length char_density /\
             length char_density = length char_number /\
             Forall (fun r => length r = in_features (hidden1 m)) visual).
Proof.
  unfold forward_branches.
  eapply partial_bind; [apply partial_l1|]. intros hs _. simpl.
  apply partial_bind with (P := fun _ => True); [by apply partial_lift|].
  intros p0 _.
  apply partial_stage. intros p1 L1 _.
  apply partial_fusion. intros o1 E1 Lo1.
  apply partial_stage. intros pooler Lp _.
  apply partial_fusion. intros pa1 E2 Lpa1.
  apply partial_stage. intros parsing Lpa _.
  apply partial_fusion. intros d1 E3 Ld1.
  apply partial_stage. intros density Ld _.
  apply partial_stage. intros v1 Lv1 Wv.
  apply partial_fusion. intros o2 E4 Lo2.
  apply partial_stage. intros visual' Lv' _.
  apply partial_ret. repeat split; try done; congruence.
Qed.

Lemma forward_concat_partial :
  partial m (forward_concat input_ids attention_mask token_type_ids
               visual_feature char_density char_number parsing1 parsing2
               gcn_bert_base pos_emb visual)
          (fun x =>
             length x = length char_density /\
             length gcn_bert_base = length char_density /\
             length visual = length char_density /\
             length visual_feature = length char_density /\
             length parsing1 = length char_density /\
             length parsing2 = length char_density /\
             length char_number = length char_density /\
             Forall (fun r => length r = in_features (hidden1 m)) visual).
Proof.
  unfold forward_concat.
  eapply partial_bind; [apply forward_branches_partial|].
  intros [[[pooler visual'] parsing] density]
         (Lp & Lv & Lvf & Lpa & Lpa2 & Ld & Lcn & Wv).
  apply partial_lift. intros x Ex.
  apply cat2_4_Ok in Ex as (E1 & E2 & E3 & ->).
  rewrite join4_length by done. repeat split; try done; congruence.
Qed.

Lemma forward_head_partial (x : Tensor2 R) :
  partial m (forward_head x)
          (fun out => shape2 (length x) (out_features (classifier m)) out).
Proof.
  unfold forward_head.
  apply partial_stage. intros x1 L1 _.
  apply partial_stage. intros x2 L2 _.
  eapply partial_bind; [apply partial_call|]. intros out [-> _].
  apply partial_ret. split.
  - rewrite length_map. congruence.
  - apply Forall_map, Forall_forall. intros r _. apply linear_row_length.
Qed.

Lemma forward_partial :
  partial m (forward input_ids attention_mask token_type_ids
               visual_feature char_density char_number parsing1 parsing2
               gcn_bert_base pos_emb visual)
          (fun out =>
             shape2 (length char_density) (out_features (classifier m)) out /\
             length gcn_bert_base = length char_density /\
             length visual = length char_density /\
             length visual_feature = length char_density /\
             length parsing1 = length char_density /\
             length parsing2 = length char_density /\
             length char_number = length char_density /\
             Forall (fun r => length r = in_features (hidden1 m)) visual).
Proof.
  unfold forward.
  eapply partial_bind; [apply forward_concat_partial|].
  intros x (Lx & Hrest).
  eapply partial_weaken; [apply forward_head_partial|].
  intros out Sout. rewrite Lx in Sout. by split.
Qed.

(** In evaluation mode the pass is a function of the module and of its
    arguments: it neither reads nor advances the random generator. *)
Hypothesis eval_mode : training m = false.

Lemma forward_branches_pure :
  exists r,
    pure_as m (forward_branches input_ids attention_mask token_type_ids
                 visual_feature char_density char_number parsing1 parsing2
                 gcn_bert_base pos_emb visual) r.
Proof.
  eexists. unfold forward_branches.
  eapply pure_bind; [by apply pure_l1|]. intros hs. simpl.
  eapply pure_bind; [apply pure_lift|]. intros p0.
  eapply pure_stage; [done|]. intros p1.
  eapply pure_fusion. intros o1.
  eapply pure_stage; [done|]. intros pooler.
  eapply pure_fusion. intros pa1.
  eapply pure_stage; [done|]. intros parsing.
  eapply pure_fusion. intros d1.
  eapply pure_stage; [done|]. intros density.
  eapply pure_stage; [done|]. intros v1.
  eapply pure_fusion. intros o2.
  eapply pure_stage; [done|]. intros visual'.
  apply pure_ret.
Qed.

Lemma forward_concat_pure :
  exists r,
    pure_as m (forward_concat input_ids attention_mask token_type_ids
                 visual_feature char_density char_number parsing1 parsing2
                 gcn_bert_base pos_emb visual) r.
Proof.
  destruct forward_branches_pure as [rb Hb].
  exists (rbind rb (fun '(pooler, visual', parsing, density) =>
                      cat2 [pooler; visual'; parsing; char_density])).
  unfold forward_concat. apply pure_bind; [done|].
  intros [[[pooler visual'] parsing] density]. apply pure_lift.
Qed.

Lemma forward_head_pure :
  exists f, forall x : Tensor2 R, pure_as m (forward_head x) (f x).
Proof.
  unfold forward_head. eexists. intros x.
  eapply pure_stage; [done|]. intros x1.
  eapply pure_stage; [done|]. intros x2.
  eapply pure_bind; [apply pure_call|]. intros out.
  apply pure_ret.
Qed.

Lemma forward_pure :
  exists r,
    pure_as m (forward input_ids attention_mask token_type_ids
                 visual_feature char_density char_number parsing1 parsing2
                 gcn_bert_base pos_emb visual) r.
Proof.
  destruct forward_concat_pure as [rc Hc].
  destruct forward_head_pure as [f Hf].
  exists (rbind rc f). unfold forward. by apply pure_bind.
Qed.

End ForwardPartial.

(** ** Running the model with zero weights *)

Section Runs.
Variable m : RobertaClass Z.
Hypothesis eval_mode : training m = false.

Lemma returns_bind {A B} (c : M Z A) (k : A -> M Z B) (a : A) (r : result B) :
  pure_as m c (Ok a) -> pure_as m (k a) r -> pure_as m (bind c k) r.
Proof. intros Hc Hk w Hw. unfold bind. rewrite (Hc w Hw). by apply Hk. Qed.

Lemma raises_bind {A B} (c : M Z A) (k : A -> M Z B) (e : error) :
  pure_as m c (Err e) -> pure_as m (bind c k) (Err e).
Proof. intros Hc w Hw. unfold bind. by rewrite (Hc w Hw). Qed.

Lemma returns_l1 (ids mask tti : LongTensor2) (hs : Tensor3 Z) :
  enc_eval (l1 m) ids mask tti = Ok hs ->
  pure_as m (self_l1 ids mask tti) (Ok hs).
Proof. intros E w Hw. rewrite (pure_l1 m eval_mode ids mask tti w Hw). by rewrite E. Qed.

Lemma returns_stage {A} (layer : RobertaClass Z -> Linear Z) (x y y' : Tensor2 Z)
      (k : Tensor2 Z -> M Z A) (r : result A) :
  Linear_forward (layer m) x = Ok y -> Tanh y = y' ->
  pure_as m (k y') r ->
  pure_as m (bind (self_call layer x)
                  (fun y => bind (self_dropout (Tanh y)) k)) r.
Proof.
  intros E <- Hk. eapply returns_bind.
  - intros w Hw. rewrite (pure_call m layer x w Hw). by rewrite E.
  - eapply returns_bind; [by apply pure_dropout|done].
Qed.

Lemma raises_stage {A} (layer : RobertaClass Z -> Linear Z) (x : Tensor2 Z)
      (k : Tensor2 Z -> M Z A) (e : error) :
  Linear_forward (layer m) x = Err e ->
  pure_as m (bind (self_call layer x)
                  (fun y => bind (self_dropout (Tanh y)) k)) (Err e).
Proof.
  intros E. apply raises_bind.
  intros w Hw. rewrite (pure_call m layer x w Hw). by rewrite E.
Qed.

Lemma returns_fusion {A} (a b v : Tensor2 Z) (k : Tensor2 Z -> M Z A)
      (r : result A) :
  pairwise_fusion a b = Ok v -> pure_as m (k v) r ->
  pure_as m (bind (lift (cat3 (unsqueeze1 a) (unsqueeze1 b)))
                  (fun x => bind (lift (rbind (MaxPool2d x) squeeze1)) k)) r.
Proof.
  intros E Hk w Hw. rewrite fusion_steps. unfold bind, lift. rewrite E.
  by apply Hk.
Qed.

End Runs.

Lemma dot_from_zero (j : nat) (x : list Z) (acc : Z) :
  dot_from (fun _ => 0%Z) j x acc = acc.
Proof.
  revert j acc. induction x as [|xj x IH]; intros j acc; simpl; [done|].
  rewrite IH. lia.
Qed.

Lemma map_const_replicate {A B} (c : B) (l : list A) :
  map (fun _ => c) l = replicate (length l) c.
Proof. induction l as [|a l IH]; simpl; [done|]. by rewrite IH. Qed.

Lemma linear_row_zero (n_in n_out : nat) (r : list Z) :
  linear_row (mkLinear n_in n_out (fun _ _ => 0%Z) (fun _ => 0%Z)) r
  = replicate n_out 0%Z.
Proof.
  unfold linear_row. simpl.
  transitivity (map (fun _ : nat => 0%Z) (seq 0 n_out)).
  - apply map_ext. intros i. by rewrite dot_from_zero.
  - by rewrite map_const_replicate, length_seq.
Qed.

(** A layer with zero weight and bias maps every accepted input to zeros. *)
Lemma Linear_forward_zero (n_in n_out : nat) (x : Tensor2 Z) :
  forallb (fun r => length r =? n_in) x = true ->
  Linear_forward (mkLinear n_in n_out (fun _ _ => 0%Z) (fun _ => 0%Z)) x
  = Ok (const_tensor (length x) n_out 0).
Proof.
  intros E. unfold Linear_forward. simpl. rewrite E. f_equal.
  unfold const_tensor. rewrite <- map_const_replicate.
  apply map_ext. intros r. apply linear_row_zero.
Qed.

Lemma Tanh_const (B W : nat) (c : Z) :
  Tanh (const_tensor B W c) = const_tensor B W (Z.sgn c).
Proof.
  unfold Tanh, const_tensor.
  induction B as [|B IH]; simpl; [done|]. f_equal; [|exact IH].
  clear IH. induction W as [|W IH]; simpl; [done|]. by f_equal.
Qed.

Lemma const_tensor_shape (B W : nat) (c : Z) : shape2 B W (const_tensor B W c).
Proof.
  unfold const_tensor. split; [apply length_replicate|].
  apply Forall_replicate, length_replicate.
Qed.

Lemma pairwise_fusion_const (B W : nat) (a b : Z) :
  0 < B -> 0 < W ->
  pairwise_fusion (const_tensor B W a) (const_tensor B W b)
  = Ok (const_tensor B W (smax a b)).
Proof.
  intros HB HW.
  rewrite (pairwise_fusion_shape B W) by (done || apply const_tensor_shape).
  unfold const_tensor. by rewrite !zip_with_replicate.
Qed.

Ltac zero_layer :=
  match goal with
  | |- Linear_forward (?layer ?m) ?x = _ =>
      let l := eval cbv in (layer m) in
      match l with
      | mkLinear ?i ?o _ _ =>
          exact (Linear_forward_zero i o x ltac:(vm_compute; reflexivity))
      end
  end.

Ltac run_stage :=
  eapply returns_stage; [reflexivity | zero_layer | apply Tanh_const |].

Ltac run_fusion :=
  eapply returns_fusion;
    [apply pairwise_fusion_const; apply Nat.lt_0_succ |].


Lemma returns_call (m : RobertaClass Z) (layer : RobertaClass Z -> Linear Z)
      (x y : Tensor2 Z) :
  Linear_forward (layer m) x = Ok y -> pure_as m (self_call layer x) (Ok y).
Proof. intros E w Hw. rewrite (pure_call m layer x w Hw). by rewrite E. Qed.

Lemma returns_lift (m : RobertaClass Z) {A} (r : result A) (a : A) :
  r = Ok a -> pure_as m (lift r) (Ok a).
Proof. intros ->. by intros w Hw. Qed.

Ltac run_prefix :=
  unfold forward_branches;
  eapply returns_bind; [by apply returns_l1|]; cbv beta zeta;
  eapply returns_bind;
    [apply (pure_lift demo_model (Ok (const_tensor 2 768 0)))|];
  run_stage; run_fusion; run_stage; run_fusion; run_stage;
  run_fusion; run_stage.

(** The four branches on the demonstration batch: all of them zeros. *)
Lemma demo_branches_run :
  pure_as demo_model
    (forward_branches demo_ids demo_mask demo_types
       (const_tensor 2 768 1) (const_tensor 2 768 5) (const_tensor 2 768 2)
       (const_tensor 2 768 3) (const_tensor 2 768 4) (const_tensor 2 768 6)
       (const_tensor 2 768 7) (const_tensor 2 2048 8))
    (Ok (const_tensor 2 768 0, const_tensor 2 768 0,
         const_tensor 2 768 0, const_tensor 2 768 0)).
Proof.
  run_prefix. run_stage. run_fusion. run_stage. by apply pure_ret.
Qed.

(** With a visual embedding of width 768 the layer [hidden1] refuses it. *)
Lemma demo_branches_768_run :
  pure_as demo_model
    (forward_branches demo_ids demo_mask demo_types
       (const_tensor 2 768 1) (const_tensor 2 768 5) (const_tensor 2 768 2)
       (const_tensor 2 768 3) (const_tensor 2 768 4) (const_tensor 2 768 6)
       (const_tensor 2 768 7) (const_tensor 2 768 8))
    (Err (DimMismatch "linear")).
Proof.
  run_prefix. apply raises_stage. vm_compute. reflexivity.
Qed.

Lemma demo_concat_run :
  pure_as demo_model
    (forward_concat demo_ids demo_mask demo_types
       (const_tensor 2 768 1) (const_tensor 2 768 5) (const_tensor 2 768 2)
       (const_tensor 2 768 3) (const_tensor 2 768 4) (const_tensor 2 768 6)
       (const_tensor 2 768 7) (const_tensor 2 2048 8))
    (Ok (join4 (const_tensor 2 768 0) (const_tensor 2 768 0)
               (const_tensor 2 768 0) (const_tensor 2 768 5))).
Proof.
  unfold forward_concat.
  eapply returns_bind; [apply demo_branches_run|]. cbv beta iota zeta.
  apply returns_lift. by apply cat2_4_same.
Qed.

Lemma demo_head_run :
  pure_as demo_model
    (forward_head (join4 (const_tensor 2 768 0) (const_tensor 2 768 0)
                         (const_tensor 2 768 0) (const_tensor 2 768 5)))
    (Ok (const_tensor 2 4 0)).
Proof.
  unfold forward_head. run_stage. run_stage.
  eapply returns_bind; [apply returns_call; zero_layer|].
  by apply pure_ret.
Qed.

Lemma demo_forward_run :
  pure_as demo_model
    (forward demo_ids demo_mask demo_types
       (const_tensor 2 768 1) (const_tensor 2 768 5) (const_tensor 2 768 2)
       (const_tensor 2 768 3) (const_tensor 2 768 4) (const_tensor 2 768 6)
       (const_tensor 2 768 7) (const_tensor 2 2048 8))
    (Ok (const_tensor 2 4 0)).
Proof.
  unfold forward.
  eapply returns_bind; [apply demo_concat_run|]. apply demo_head_run.
Qed.

Lemma demo_forward_768_run :
  pure_as demo_model
    (forward demo_ids demo_mask demo_types
       (const_tensor 2 768 1) (const_tensor 2 768 5) (const_tensor 2 768 2)
       (const_tensor 2 768 3) (const_tensor 2 768 4) (const_tensor 2 768 6)
       (const_tensor 2 768 7) (const_tensor 2 768 8))
    (Err (DimMismatch "linear")).
Proof.
  unfold forward, forward_concat.
  apply raises_bind, raises_bind, demo_branches_768_run.
Qed.

Lemma demo_encodes : encodes demo_model demo_ids demo_mask demo_types 2.
Proof.
  unfold encodes. change (training demo_model) with false. cbv iota.
  exists (map (map (fun _ => replicate 768 0%Z)) demo_ids).
  split; [reflexivity|]. split; [reflexivity|].
  do 2 (constructor;
        [exists (replicate 768 0%Z), (replicate 2 (replicate 768 0%Z));
         split; [reflexivity|apply length_replicate]|]).
  constructor.
Qed.

(** ** Properties of the forward pass *)

(** C10. The logits of [RobertaClass.forward], and the world it leaves, do
    not depend on the argument [pos_emb]: two calls from the same world
    (same weights, same state of the random generator) that differ in
    [pos_emb] only have the same outcome. *)
Theorem forward_ignores_pos_emb {R : Type} `{Scalar R}
    (input_ids attention_mask token_type_ids : LongTensor2)
    (visual_feature char_density char_number parsing1 parsing2
     gcn_bert_base pos_emb pos_emb' visual : Tensor2 R) (w : World R) :
  forward input_ids attention_mask token_type_ids visual_feature char_density
          char_number parsing1 parsing2 gcn_bert_base pos_emb visual w
  = forward input_ids attention_mask token_type_ids visual_feature char_density
            char_number parsing1 parsing2 gcn_bert_base pos_emb' visual w.
Proof. reflexivity. Qed.

(** C5. In evaluation mode [RobertaClass.forward] is deterministic: a
    second call on the same batch, from the world the first call left,
    has the outcome of the first, and so has a call from any other state
    of the random generator with the same module. *)
Theorem forward_deterministic_in_eval {R : Type} `{Scalar R}
    (input_ids attention_mask token_type_ids : LongTensor2)
    (visual_feature char_density char_number parsing1 parsing2
     gcn_bert_base pos_emb visual : Tensor2 R) (w : World R) :
  training (model w) = false ->
  let logits (w' : World R) :=
    fst (forward input_ids attention_mask token_type_ids visual_feature
                 char_density char_number parsing1 parsing2 gcn_bert_base
                 pos_emb visual w') in
  logits (snd (forward input_ids attention_mask token_type_ids visual_feature
                       char_density char_number parsing1 parsing2
                       gcn_bert_base pos_emb visual w)) = logits w /\
  forall g : Generator, logits (mkWorld (model w) g) = logits w.
Proof.
  intros Hev logits. subst logits.
  destruct (forward_pure (model w) input_ids attention_mask token_type_ids
              visual_feature char_density char_number parsing1 parsing2
              gcn_bert_base pos_emb visual Hev) as [r Hr].
  rewrite (Hr w eq_refl). simpl. split.
  - by rewrite (Hr w eq_refl).
  - intros g. by rewrite (Hr (mkWorld (model w) g) eq_refl).
Qed.

Lemma forward_deterministic_in_eval_witness :
  training (model demo_world) = false /\
  fst (forward demo_ids demo_mask demo_types
         (const_tensor 2 768 1) (const_tensor 2 768 5) (const_tensor 2 768 2)
         (const_tensor 2 768 3) (const_tensor 2 768 4) (const_tensor 2 768 6)
         (const_tensor 2 768 7) (const_tensor 2 2048 8)
         (snd (forward demo_ids demo_mask demo_types
                 (const_tensor 2 768 1) (const_tensor 2 768 5)
                 (const_tensor 2 768 2) (const_tensor 2 768 3)
                 (const_tensor 2 768 4) (const_tensor 2 768 6)
                 (const_tensor 2 768 7) (const_tensor 2 2048 8) demo_world)))
  = fst (forward demo_ids demo_mask demo_types
           (const_tensor 2 768 1) (const_tensor 2 768 5) (const_tensor 2 768 2)
           (const_tensor 2 768 3) (const_tensor 2 768 4) (const_tensor 2 768 6)
           (const_tensor 2 768 7) (const_tensor 2 2048 8) demo_world).
Proof.
  split; [reflexivity|].
  exact (proj1 (forward_deterministic_in_eval demo_ids demo_mask demo_types
                  (const_tensor 2 768 1) (const_tensor 2 768 5)
                  (const_tensor 2 768 2) (const_tensor 2 768 3)
                  (const_tensor 2 768 4) (const_tensor 2 768 6)
                  (const_tensor 2 768 7) (const_tensor 2 2048 8)
                  demo_world eq_refl)).
Defined.

(** C6. Whenever [RobertaClass.forward] returns, the tensors for
    [visual_feature], [char_density], [char_number], [parsing1],
    [parsing2], [gcn_bert_base] and [visual] have one number B of rows, the
    batch size, and the logits have shape (B, 4). *)
Theorem forward_logits_shape {R : Type} `{Scalar R}
    (input_ids attention_mask token_type_ids : LongTensor2)
    (visual_feature char_density char_number parsing1 parsing2
     gcn_bert_base pos_emb visual : Tensor2 R) (w : World R)
    (out : Tensor2 R) :
  architecture (model w) ->
  fst (forward input_ids attention_mask token_type_ids visual_feature
               char_density char_number parsing1 parsing2 gcn_bert_base
               pos_emb visual w) = Ok out ->
  exists B : nat,
    shape2 B 4 out /\
    length visual_feature = B /\ length char_density = B /\
    length char_number = B /\ length parsing1 = B /\ length parsing2 = B /\
    length gcn_bert_base = B /\ length visual = B.
Proof.
  intros arch E.
  destruct (forward_partial (model w) input_ids attention_mask token_type_ids
              visual_feature char_density char_number parsing1 parsing2
              gcn_bert_base pos_emb visual w eq_refl) as [_ HQ].
  destruct (HQ out E) as (S & L1 & L2 & L3 & L4 & L5 & L6 & _).
  rewrite (arch_classifier_out _ arch) in S.
  exists (length char_density). split; [exact S|]. repeat split; congruence.
Qed.

Lemma forward_logits_shape_witness :
  architecture (model demo_world) /\
  fst (forward demo_ids demo_mask demo_types
         (const_tensor 2 768 1) (const_tensor 2 768 5) (const_tensor 2 768 2)
         (const_tensor 2 768 3) (const_tensor 2 768 4) (const_tensor 2 768 6)
         (const_tensor 2 768 7) (const_tensor 2 2048 8) demo_world)
  = Ok (const_tensor 2 4 0) /\
  exists B : nat,
    shape2 B 4 (const_tensor 2 4 0) /\
    length (const_tensor 2 768 1) = B /\ length (const_tensor 2 768 5) = B /\
    length (const_tensor 2 768 2) = B /\ length (const_tensor 2 768 3) = B /\
    length (const_tensor 2 768 4) = B /\ length (const_tensor 2 768 6) = B /\
    length (const_tensor 2 2048 8) = B.
Proof.
  assert (architecture (model demo_world)) as arch
    by apply init_architecture.
  assert (fst (forward demo_ids demo_mask demo_types
                 (const_tensor 2 768 1) (const_tensor 2 768 5)
                 (const_tensor 2 768 2) (const_tensor 2 768 3)
                 (const_tensor 2 768 4) (const_tensor 2 768 6)
                 (const_tensor 2 768 7) (const_tensor 2 2048 8) demo_world)
          = Ok (const_tensor 2 4 0)) as run
    by (by rewrite (demo_forward_run demo_world eq_refl)).
  split; [exact arch|]. split; [exact run|].
  exact (forward_logits_shape _ _ _ _ _ _ _ _ _ _ _ _ _ arch run).
Defined.

(** C2, as the code has it. For a batch of 2 examples whose auxiliary
    vectors have width 768, except the visual embedding, which has width
    2048, and for which the encoder returns a hidden state of width 768,
    [RobertaClass.forward] returns logits of shape (2, 4). *)
Theorem forward_batch_of_two {R : Type} `{Scalar R}
    (input_ids attention_mask token_type_ids : LongTensor2)
    (visual_feature char_density char_number parsing1 parsing2
     gcn_bert_base pos_emb visual : Tensor2 R) (w : World R) :
  architecture (model w) ->
  encodes (model w) input_ids attention_mask token_type_ids 2 ->
  shape2 2 768 visual_feature -> shape2 2 768 char_density ->
  shape2 2 768 char_number -> shape2 2 768 parsing1 ->
  shape2 2 768 parsing2 -> shape2 2 768 gcn_bert_base ->
  shape2 2 2048 visual ->
  exists out : Tensor2 R,
    fst (forward input_ids attention_mask token_type_ids visual_feature
                 char_density char_number parsing1 parsing2 gcn_bert_base
                 pos_emb visual w) = Ok out /\
    shape2 2 4 out.
Proof.
  intros arch enc S1 S2 S3 S4 S5 S6 S7.
  destruct (forward_total (model w) arch input_ids attention_mask
              token_type_ids visual_feature char_density char_number
              parsing1 parsing2 gcn_bert_base pos_emb visual 2
              (Nat.lt_0_succ 1) enc S1 S2 S3 S4 S5 S6 S7 w eq_refl) as (out & w' & E & _ & S).
  exists out. by rewrite E.
Qed.

Lemma forward_batch_of_two_witness :
  architecture (model demo_world) /\
  encodes (model demo_world) demo_ids demo_mask demo_types 2 /\
  shape2 2 768 (const_tensor 2 768 1) /\
  shape2 2 2048 (const_tensor 2 2048 8) /\
  exists out : Tensor2 Z,
    fst (forward demo_ids demo_mask demo_types
           (const_tensor 2 768 1) (const_tensor 2 768 5) (const_tensor 2 768 2)
           (const_tensor 2 768 3) (const_tensor 2 768 4) (const_tensor 2 768 6)
           (const_tensor 2 768 7) (const_tensor 2 2048 8) demo_world) = Ok out /\
    shape2 2 4 out.
Proof.
  split; [apply init_architecture|]. split; [apply demo_encodes|].
  split; [apply const_tensor_shape|]. split; [apply const_tensor_shape|].
  apply forward_batch_of_two.
  - apply init_architecture.
  - apply demo_encodes.
  - apply const_tensor_shape.
  - apply const_tensor_shape.
  - apply const_tensor_shape.
  - apply const_tensor_shape.
  - apply const_tensor_shape.
  - apply const_tensor_shape.
  - apply const_tensor_shape.
Defined.

(** C2 as it is specified fails: on a batch of 2 examples in which every
    auxiliary vector, the visual embedding included, has width 768, the
    layer [hidden1] raises a dimension mismatch. *)
Lemma forward_rejects_visual_of_width_768 :
  shape2 2 768 (const_tensor 2 768 8) /\
  fst (forward demo_ids demo_mask demo_types
         (const_tensor 2 768 1) (const_tensor 2 768 5) (const_tensor 2 768 2)
         (const_tensor 2 768 3) (const_tensor 2 768 4) (const_tensor 2 768 6)
         (const_tensor 2 768 7) (const_tensor 2 768 8) demo_world)
  = Err (DimMismatch "linear").
Proof.
  split; [apply const_tensor_shape|].
  by rewrite (demo_forward_768_run demo_world eq_refl).
Qed.

(** Whatever the module and the batch, what [forward] hands to [hidden3]
    is the join of the first three branches and of the argument
    [char_density]: every row of it ends with the row of [char_density],
    and the fourth branch is not read. *)
Lemma forward_concat_spec {R : Type} `{Scalar R}
    (input_ids attention_mask token_type_ids : LongTensor2)
    (visual_feature char_density char_number parsing1 parsing2
     gcn_bert_base pos_emb visual : Tensor2 R) (w : World R)
    (x : Tensor2 R) :
  fst (forward_concat input_ids attention_mask token_type_ids visual_feature
         char_density char_number parsing1 parsing2 gcn_bert_base pos_emb
         visual w) = Ok x ->
  exists pooler visual' parsing density : Tensor2 R,
    fst (forward_branches input_ids attention_mask token_type_ids
           visual_feature char_density char_number parsing1 parsing2
           gcn_bert_base pos_emb visual w)
    = Ok (pooler, visual', parsing, density) /\
    x = join4 pooler visual' parsing char_density /\
    forall (i : nat) (row : list R),
      (x : list (list R)) !! i = Some row ->
      exists front raw : list R,
        (char_density : list (list R)) !! i = Some raw /\ row = front ++ raw.
Proof.
  unfold forward_concat, bind.
  destruct (forward_branches _ _ _ _ _ _ _ _ _ _ _ w)
    as [[[[[pooler visual'] parsing] density]|e] w1]; simpl; [|discriminate].
  intros E. apply cat2_4_Ok in E as (_ & _ & _ & ->).
  exists pooler, visual', parsing, density. split; [done|]. split; [done|].
  intros i row Hrow.
  apply join4_lookup in Hrow as (ra & rb & rc & rd & _ & _ & _ & Hd & ->).
  exists (ra ++ rb ++ rc), rd. split; [done|]. by rewrite <- !app_assoc.
Qed.

(** C1, at a batch where the code departs from it. The fourth branch, the
    fused density, is all zeros; the tensor handed to [hidden3] ends with
    the raw [char_density], all fives, and is not the join of the four
    fused branches. *)
Theorem forward_concat_joins_raw_char_density :
  let zeros := const_tensor 2 768 0 in
  let char_density := const_tensor 2 768 5 in
  fst (forward_branches demo_ids demo_mask demo_types
         (const_tensor 2 768 1) char_density (const_tensor 2 768 2)
         (const_tensor 2 768 3) (const_tensor 2 768 4) (const_tensor 2 768 6)
         (const_tensor 2 768 7) (const_tensor 2 2048 8) demo_world)
  = Ok (zeros, zeros, zeros, zeros) /\
  fst (forward_concat demo_ids demo_mask demo_types
         (const_tensor 2 768 1) char_density (const_tensor 2 768 2)
         (const_tensor 2 768 3) (const_tensor 2 768 4) (const_tensor 2 768 6)
         (const_tensor 2 768 7) (const_tensor 2 2048 8) demo_world)
  = Ok (join4 zeros zeros zeros char_density) /\
  join4 zeros zeros zeros char_density <> join4 zeros zeros zeros zeros.
Proof.
  intros zeros char_density. subst zeros char_density. split; [|split].
  - by rewrite (demo_branches_run demo_world eq_refl).
  - by rewrite (demo_concat_run demo_world eq_refl).
  - intros E.
    apply (f_equal (fun t : list (list Z) => t !! 0 ≫= (.!! 2304))) in E.
    vm_compute in E. discriminate.
Qed.

(** ** The fusion step in either order *)

Lemma zip_with_comm {A B : Type} (f : A -> A -> B) (l k : list A) :
  (forall x y, f x y = f y x) -> zip_with f l k = zip_with f k l.
Proof.
  intros Hf. revert k.
  induction l as [|x l IH]; intros [|y k]; simpl; [done..|].
  by rewrite Hf, IH.
Qed.

(** The maximum of the pooling kernel, taken in the two orders of two
    numbers that are not NaN, is two numbers that compare equal. *)
Lemma smax_eq_comm {R : Type} `{FloatCompare R} (x y : R) :
  sisnan x = false -> sisnan y = false ->
  seqb (smax x y) (smax y x) = true.
Proof.
  intros Nx Ny. unfold smax. rewrite Nx, Ny, !orb_false_r.
  destruct (sltb x y) eqn:Exy, (sltb y x) eqn:Eyx.
  - apply sltb_asym in Exy. congruence.
  - by apply seqb_refl.
  - by apply seqb_refl.
  - by apply sltb_total.
Qed.

Lemma SFcompare_antisym (x y : spec_float) :
  SFcompare y x = option_map CompOpp (SFcompare x y).
Proof.
  destruct x as [sx | sx | | sx mx ex], y as [sy | sy | | sy my ey];
    simpl; try done; try (by destruct sx); try (by destruct sy);
    try (by destruct sx, sy).
  destruct sx, sy; simpl; try done.
  - rewrite (Z.compare_antisym ey ex).
    destruct (ey ?= ex)%Z; simpl; try done.
    by rewrite (Pos.compare_cont_antisym mx my Eq).
  - rewrite (Z.compare_antisym ey ex).
    destruct (ey ?= ex)%Z; simpl; try done.
    by rewrite (Pos.compare_cont_antisym mx my Eq).
Qed.

Lemma SFcompare_refl (x : spec_float) :
  SFisnan x = false -> SFcompare x x = Some Eq.
Proof.
  destruct x as [s | s | | s m e]; simpl; try done; try (by destruct s).
  intros _. rewrite Z.compare_refl.
  change (PosDef.Pos.compare_cont Eq m m) with (Pos.compare m m).
  rewrite Pos.compare_refl. by destruct s.
Qed.

Lemma SFcompare_number (x y : spec_float) :
  SFisnan x = false -> SFisnan y = false -> exists c, SFcompare x y = Some c.
Proof. destruct x, y; simpl; try done; by eexists. Qed.

(** The comparisons of binary32 are those of IEEE 754. *)
Lemma float32_compare : @FloatCompare spec_float float32.
Proof.
  split; simpl.
  - intros a b. unfold SFltb. rewrite (SFcompare_antisym a b).
    by destruct (SFcompare a b) as [[| |]|].
  - intros a b Na Nb. unfold SFltb, SFeqb.
    rewrite (SFcompare_antisym a b).
    destruct (SFcompare_number a b Na Nb) as [c ->]. by destruct c.
  - intros a Na. unfold SFeqb. by rewrite SFcompare_refl.
Qed.

Lemma torch_equal_rows {R : Type} `{Scalar R} (B W : nat) (x y : Tensor2 R) :
  shape2 B W x -> shape2 B W y ->
  Forall2 (Forall2 (fun u v => seqb u v = true)) x y ->
  torch_equal x y = true.
Proof.
  intros [Hx _] [Hy _] F. unfold torch_equal.
  rewrite Hx, Hy, Nat.eqb_refl. simpl. clear Hx Hy.
  induction F as [|r s x y Frs F IH]; simpl; [done|].
  rewrite IH, (Forall2_length _ _ _ Frs), Nat.eqb_refl, andb_true_r. simpl.
  clear IH F. induction Frs as [|u v r s E Frs IH]; simpl; [done|].
  by rewrite E, IH.
Qed.

Lemma zip_smax_eq_comm {R : Type} `{FloatCompare R} (a b : Tensor2 R) :
  Forall2 (fun r s => length r = length s) a b ->
  no_nan a -> no_nan b ->
  Forall2 (Forall2 (fun u v => seqb u v = true))
          (zip_with (zip_with smax) a b) (zip_with (zip_with smax) b a).
Proof.
  intros F. induction F as [|r s a b E F IH]; intros Na Nb; simpl;
    [constructor|].
  inversion Na as [|? ? Nr Na']; inversion Nb as [|? ? Ns Nb']; subst.
  constructor; [|by apply IH].
  clear IH F Na Nb Na' Nb'. revert s E Ns.
  induction Nr as [|u r Nu Nr IH]; intros [|v s] E Ns; simpl in *;
    try done; try (by constructor).
  inversion Ns as [|? ? Nv Ns']; subst.
  constructor; [by apply smax_eq_comm|]. apply IH; [lia|done].
Qed.

(** The fusion in the two orders, for every type of scalars whose
    comparisons are those of IEEE 754. *)
Lemma pairwise_fusion_eq_comm {R : Type} `{FloatCompare R}
    (B W : nat) (a b : Tensor2 R) :
  0 < B -> 0 < W -> shape2 B W a -> shape2 B W b ->
  no_nan a -> no_nan b ->
  pairwise_fusion a b = Ok (zip_with (zip_with smax) a b) /\
  pairwise_fusion b a = Ok (zip_with (zip_with smax) b a) /\
  torch_equal (zip_with (zip_with smax) a b) (zip_with (zip_with smax) b a)
  = true.
Proof.
  intros HB HW Sa Sb Na Nb.
  rewrite (pairwise_fusion_shape B W a b), (pairwise_fusion_shape B W b a)
    by done.
  split; [done|]. split; [done|].
  apply (torch_equal_rows B W); [by apply zip_smax_shape..|].
  apply zip_smax_eq_comm; [by eapply shape2_Forall2|done..].
Qed.

Section Float32Fusion.
#[local] Existing Instance float32.
#[local] Existing Instance float32_compare.

(** C7, as the code has it. For two float32 tensors of one shape (B, W)
    with a batch and a width, and without NaN, the pairwise max-pool fusion
    returns their element-wise maximum in either order of the pair, and the
    two results are equal under [==] at every position. *)
Theorem pairwise_fusion_commutes_up_to_eq
    (B W : nat) (a b : Tensor2 spec_float) :
  0 < B -> 0 < W -> shape2 B W a -> shape2 B W b ->
  no_nan a -> no_nan b ->
  pairwise_fusion a b = Ok (zip_with (zip_with smax) a b) /\
  pairwise_fusion b a = Ok (zip_with (zip_with smax) b a) /\
  torch_equal (zip_with (zip_with smax) a b) (zip_with (zip_with smax) b a)
  = true.
Proof.
  intros HB HW Sa Sb Na Nb.
  destruct (pairwise_fusion_eq_comm B W a b HB HW Sa Sb Na Nb)
    as (Eab & Eba & Eq).
  split; [exact Eab|]. split; [exact Eba|exact Eq].
Qed.

Lemma pairwise_fusion_commutes_up_to_eq_witness :
  pairwise_fusion [[one32; S754_zero true]; [two32; one32]]
                  [[two32; S754_zero false]; [one32; S754_infinity true]]
  = Ok [[two32; S754_zero true]; [two32; one32]] /\
  pairwise_fusion [[two32; S754_zero false]; [one32; S754_infinity true]]
                  [[one32; S754_zero true]; [two32; one32]]
  = Ok [[two32; S754_zero false]; [two32; one32]] /\
  torch_equal [[two32; S754_zero true]; [two32; one32]]
              [[two32; S754_zero false]; [two32; one32]] = true.
Proof.
  assert (shape2 2 2 [[one32; S754_zero true]; [two32; one32]]) as Sa.
  { split; [reflexivity|]. repeat constructor. }
  assert (shape2 2 2 [[two32; S754_zero false]; [one32; S754_infinity true]])
    as Sb.
  { split; [reflexivity|]. repeat constructor. }
  assert (no_nan [[one32; S754_zero true]; [two32; one32]]) as Na.
  { repeat constructor. }
  assert (no_nan [[two32; S754_zero false]; [one32; S754_infinity true]])
    as Nb.
  { repeat constructor. }
  exact (pairwise_fusion_commutes_up_to_eq 2 2 _ _
           (Nat.lt_0_succ 1) (Nat.lt_0_succ 1) Sa Sb Na Nb).
Defined.

(** C7 as it is specified fails on float32 tensors. With a NaN in one of
    the two tensors the fusion returns the NaN in either order, and the two
    results are not equal under [==]; with the two zeros the fusion returns
    the first of the pair, so that the two orders give zeros of different
    signs; and for two tensors of one shape without a row the pooling
    raises, in either order. *)
Lemma pairwise_fusion_is_not_commutative_on_float32 :
  pairwise_fusion [[S754_nan; one32]] [[one32; two32]]
  = Ok [[S754_nan; two32]] /\
  pairwise_fusion [[one32; two32]] [[S754_nan; one32]]
  = Ok [[S754_nan; two32]] /\
  torch_equal [[S754_nan; two32]] [[S754_nan; two32]] = false /\
  pairwise_fusion [[S754_zero false]] [[S754_zero true]]
  = Ok [[S754_zero false]] /\
  pairwise_fusion [[S754_zero true]] [[S754_zero false]]
  = Ok [[S754_zero true]] /\
  [[S754_zero false]] <> [[S754_zero true]] /\
  pairwise_fusion ([] : Tensor2 spec_float) [] = Err (DimMismatch "pooling").
Proof. repeat split. intros [=]. Qed.

End Float32Fusion.

(** ** The weights are left alone *)

Section Frame.
Context {R : Type} `{Scalar R}.
Variable loss_function : Tensor R -> LongTensor1 -> result R.

Lemma model_call_partial (m : RobertaClass R) (args : ModelArgs R) :
  partial m (model_call args) (fun _ => True).
Proof.
  unfold model_call. eapply partial_weaken; [apply forward_partial|done].
Qed.

Lemma valid_batch_partial (m : RobertaClass R) (c : Counters R)
      (item : result (gmap string (Tensor R))) :
  partial m (valid_batch loss_function c item) (fun _ => True).
Proof.
  unfold valid_batch.
  apply partial_bind with (P := fun _ => True); [by apply partial_lift|].
  intros data _.
  apply partial_bind with (P := fun _ => True); [by apply partial_lift|].
  intros [args targets] _.
  apply partial_bind with (P := fun _ => True); [apply model_call_partial|].
  intros outputs _. cbv zeta.
  apply partial_bind with (P := fun _ => True); [by apply partial_lift|].
  intros loss _.
  apply partial_bind with (P := fun _ => True); [by apply partial_lift|].
  intros big_idx _.
  apply partial_bind with (P := fun _ => True); [by apply partial_lift|].
  intros correct _.
  by apply partial_ret.
Qed.

Lemma valid_loop_partial (m : RobertaClass R)
      (loader : list (result (gmap string (Tensor R)))) (c : Counters R) :
  partial m (valid_loop loss_function c loader) (fun _ => True).
Proof.
  revert c. induction loader as [|item rest IH]; intros c; simpl.
  - by apply partial_ret.
  - apply partial_bind with (P := fun _ => True); [apply valid_batch_partial|].
    intros c' _. apply IH.
Qed.

(** Whether [valid] returns or raises, it leaves the module it was given,
    switched to evaluation mode. *)
Lemma valid_model (loader : list (result (gmap string (Tensor R))))
      (w : World R) :
  model (snd (valid loss_function loader w)) = set_training false (model w).
Proof.
  unfold valid. unfold bind at 1. simpl.
  set (w0 := mkWorld (set_training false (model w)) (gen w)).
  assert (partial (set_training false (model w))
            (bind (valid_loop loss_function (mkCounters 0%Z szero 0%Z 0%Z [])
                              loader)
                  (fun c =>
                     bind (lift (if (nb_tr_steps c =? 0)%Z
                                 then Err ZeroDivisionError
                                 else Ok (tr_loss c)))
                          (fun _ =>
                             bind (lift (true_div (n_correct c * 100)%Z
                                                  (nb_tr_examples c)))
                                  (fun epoch_accu =>
                                     ret (epoch_accu, output_list c)))))
            (fun _ => True)) as P.
  { apply partial_bind with (P := fun _ => True); [apply valid_loop_partial|].
    intros c _.
    apply partial_bind with (P := fun _ => True); [by apply partial_lift|].
    intros epoch_loss _.
    apply partial_bind with (P := fun _ => True); [by apply partial_lift|].
    intros epoch_accu _. by apply partial_ret. }
  apply (P w0 eq_refl).
Qed.

End Frame.

(** C9. [RobertaClass.forward] leaves the module, and so every weight, as
    it found it, and [valid] leaves every parameter as it found it, whether
    they return or raise. *)
Theorem forward_and_valid_keep_the_weights {R : Type} `{Scalar R} :
  (forall (input_ids attention_mask token_type_ids : LongTensor2)
          (visual_feature char_density char_number parsing1 parsing2
           gcn_bert_base pos_emb visual : Tensor2 R) (w : World R),
      model (snd (forward input_ids attention_mask token_type_ids
                          visual_feature char_density char_number parsing1
                          parsing2 gcn_bert_base pos_emb visual w))
      = model w) /\
  (forall (loss_function : Tensor R -> LongTensor1 -> result R)
          (testing_loader : list (result (gmap string (Tensor R))))
          (w : World R),
      parameters (model (snd (valid loss_function testing_loader w)))
      = parameters (model w)).
Proof.
  split.
  - intros. eapply forward_partial. reflexivity.
  - intros. by rewrite valid_model.
Qed.

(** ** The accuracy helper *)

Lemma agreeing_shift (x y : Z) (p t : list Z) (k n : nat) :
  length (filter (fun i => (x :: p) !! i = (y :: t) !! i) (seq (S k) n))
  = length (filter (fun i => p !! i = t !! i) (seq k n)).
Proof.
  revert k. induction n as [|n IH]; intros k; simpl; [done|].
  rewrite !filter_cons. simpl.
  destruct (decide (p !! k = t !! k)); simpl; by rewrite IH.
Qed.

Lemma count_equal_positions (preds targets : list Z) :
  length preds = length targets ->
  length (filter (fun b : bool => b = true) (zip_with Z.eqb preds targets))
  = agreeing_positions preds targets.
Proof.
  unfold agreeing_positions. revert targets.
  induction preds as [|x p IH]; intros [|y t] E; try done.
  injection E as E. cbn [zip_with length seq].
  rewrite !filter_cons.
  destruct (Z.eqb_spec x y) as [->|Hne].
  - rewrite !decide_True by done. cbn [length].
    by rewrite agreeing_shift, (IH t E).
  - rewrite decide_False by done.
    rewrite decide_False by (cbn; congruence).
    by rewrite agreeing_shift, (IH t E).
Qed.

(** C8. On label arrays of one length [calcuate_accuracy] returns the
    number of positions at which they agree; for [0,1,2,3] and [0,1,2,2]
    that is 3. *)
Theorem calcuate_accuracy_counts :
  (forall preds targets : LongTensor1,
      length preds = length targets ->
      calcuate_accuracy preds targets
      = Ok (Z.of_nat (agreeing_positions preds targets))) /\
  calcuate_accuracy [0; 1; 2; 3]%Z [0; 1; 2; 2]%Z = Ok 3%Z.
Proof.
  split; [|reflexivity].
  intros preds targets E. unfold calcuate_accuracy, torch_eq, sum_item.
  apply Nat.eqb_eq in E as E'. rewrite E'. simpl.
  by rewrite count_equal_positions.
Qed.

Lemma calcuate_accuracy_counts_witness :
  length [0; 1; 2; 3]%Z = length [0; 1; 2; 2]%Z /\
  calcuate_accuracy [0; 1; 2; 3]%Z [0; 1; 2; 2]%Z
  = Ok (Z.of_nat (agreeing_positions [0; 1; 2; 3]%Z [0; 1; 2; 2]%Z)).
Proof.
  split; [reflexivity|].
  exact (proj1 calcuate_accuracy_counts [0; 1; 2; 3]%Z [0; 1; 2; 2]%Z eq_refl).
Defined.

(** ** The data: batch fields and table rows *)

Lemma rbind_Ok {A B} (r : result A) (k : A -> result B) (b : B) :
  rbind r k = Ok b -> exists a, r = Ok a /\ k a = Ok b.
Proof. destruct r as [a|e]; simpl; [|discriminate]. intros E. by exists a. Qed.

Ltac rbind_inv H :=
  repeat (let x := fresh "x" in
          let E := fresh "E" in
          apply rbind_Ok in H as (x & E & H); cbv zeta in H).

Lemma rmapM_fst {A C} (f : A -> result (A * C)) (l : list A)
      (bs : list (A * C)) :
  (forall a b, f a = Ok b -> fst b = a) ->
  rmapM f l = Ok bs -> map fst bs = l.
Proof.
  intros Hf. revert bs. induction l as [|a l IH]; intros bs E; simpl in E.
  - by injection E as <-.
  - rbind_inv E. injection E as <-. simpl.
    by rewrite (Hf _ _ E0), (IH _ E1).
Qed.

Lemma rmapM_cons_inv {A B} (f : A -> result B) (l : list A) (b : B)
      (bs : list B) :
  rmapM f l = Ok (b :: bs) ->
  exists a l', l = a :: l' /\ f a = Ok b /\ rmapM f l' = Ok bs.
Proof.
  destruct l as [|a l]; simpl; [discriminate|]. intros E.
  rbind_inv E. injection E as <- <-. by exists a, l.
Qed.

Section Data.
Context {R : Type} `{Scalar R}.

(** A sample of [SentimentData] has no field [gcn_bert_large]. *)
Lemma getitem_no_gcn_bert_large (self : SentimentData R) (index : nat)
      (d : gmap string (Tensor R)) :
  SentimentData_getitem self index = Ok d -> d !! "gcn_bert_large" = None.
Proof.
  unfold SentimentData_getitem. intros E. rbind_inv E.
  injection E as <-. by rewrite !lookup_insert_ne, lookup_empty.
Qed.

(** A batch has the keys of its first sample. *)
Lemma collate_no_key (elem : gmap string (Tensor R))
      (rest : list (gmap string (Tensor R))) (batch : gmap string (Tensor R))
      (key : string) :
  collate (elem :: rest) = Ok batch -> elem !! key = None ->
  batch !! key = None.
Proof.
  unfold collate. intros E Hk. rbind_inv E. injection E as <-.
  apply not_elem_of_list_to_map_1. intros Hin.
  apply rmapM_fst in E0.
  - change (key ∈ fst <$> x) with (key ∈ map fst x) in Hin.
    rewrite E0 in Hin.
    apply list_elem_of_In, in_map_iff in Hin as ([k v] & <- & Hin).
    apply list_elem_of_In, elem_of_map_to_list in Hin. simpl in Hk. congruence.
  - intros a b Ea. rbind_inv Ea. by injection Ea as <-.
Qed.

Lemma loader_no_gcn_bert_large (dataset : SentimentData R) (batch_size : nat)
      (order : list nat) (batch : gmap string (Tensor R)) :
  In (Ok batch) (DataLoader dataset batch_size order) ->
  batch !! "gcn_bert_large" = None.
Proof.
  unfold DataLoader. intros Hin.
  apply in_map_iff in Hin as (positions & E & _). rbind_inv E.
  destruct x as [|elem rest]; [discriminate|].
  apply rmapM_cons_inv in E0 as (p & ps & _ & Ep & _).
  eapply collate_no_key; [done|]. by eapply getitem_no_gcn_bert_large.
Qed.

Lemma valid_inputs_needs_gcn_bert_large (data : gmap string (Tensor R)) :
  data !! "gcn_bert_large" = None -> exists e, valid_inputs data = Err e.
Proof.
  intros Hk. unfold valid_inputs.
  repeat match goal with
         | |- exists e, rbind (rbind (field data "gcn_bert_large") _) _ = _ =>
             unfold field at 1; rewrite Hk; simpl; by eexists
         | |- exists e, rbind ?r _ = _ =>
             destruct r; simpl; [|by eexists]
         end.
Qed.

Lemma valid_inputs_Ok (data : gmap string (Tensor R)) (a_v : ModelArgs R)
      (t_v : LongTensor1) :
  valid_inputs data = Ok (a_v, t_v) ->
  rbind (field data "ids") to_long2 = Ok (arg_input_ids a_v) /\
  rbind (field data "mask") to_long2 = Ok (arg_attention_mask a_v) /\
  rbind (field data "token_type_ids") to_long2 = Ok (arg_token_type_ids a_v) /\
  rbind (field data "targets") to_long1 = Ok t_v /\
  rbind (field data "char_density") to_float2 = Ok (arg_char_density a_v) /\
  rbind (field data "char_number") to_float2 = Ok (arg_char_number a_v) /\
  rbind (field data "visual_feature") to_float2 = Ok (arg_visual_feature a_v) /\
  rbind (field data "gcn_bert_large") to_float2 = Ok (arg_gcn_bert_base a_v) /\
  rbind (field data "parsing1") to_float2 = Ok (arg_parsing1 a_v) /\
  rbind (field data "parsing2") to_float2 = Ok (arg_parsing2 a_v) /\
  rmap to_float (field data "pos_emb") = Ok (arg_pos_emb a_v) /\
  rbind (field data "visual") to_float2 = Ok (arg_visual a_v).
Proof.
  unfold valid_inputs. intros E. rbind_inv E. injection E as <- <-.
  by repeat split.
Qed.

Lemma train_inputs_Ok (data : gmap string (Tensor R)) (a_t : ModelArgs R)
      (t_t : LongTensor1) :
  train_inputs data = Ok (a_t, t_t) ->
  rbind (field data "ids") to_long2 = Ok (arg_input_ids a_t) /\
  rbind (field data "mask") to_long2 = Ok (arg_attention_mask a_t) /\
  rbind (field data "token_type_ids") to_long2 = Ok (arg_token_type_ids a_t) /\
  rbind (field data "targets") to_long1 = Ok t_t /\
  rbind (field data "char_density") to_float2 = Ok (arg_char_density a_t) /\
  rbind (field data "char_number") to_float2 = Ok (arg_char_number a_t) /\
  rbind (field data "visual_feature") to_float2 = Ok (arg_visual_feature a_t) /\
  rbind (field data "gcn_bert_base") to_float2 = Ok (arg_gcn_bert_base a_t) /\
  rbind (field data "parsing1") to_float2 = Ok (arg_parsing1 a_t) /\
  rbind (field data "parsing2") to_float2 = Ok (arg_parsing2 a_t) /\
  rmap to_float (field data "pos_emb") = Ok (arg_pos_emb a_t) /\
  rbind (field data "visual") to_float2 = Ok (arg_visual a_t).
Proof.
  unfold train_inputs. intros E. rbind_inv E. injection E as <- <-.
  by repeat split.
Qed.

End Data.

(** Every batch that a loader builds from [SentimentData] lacks the field
    [gcn_bert_large], and [valid] raises on it before it calls the model. *)
Lemma valid_raises_on_every_loader_batch {R : Type} `{Scalar R}
      (dataset : SentimentData R) (batch_size : nat) (order : list nat)
      (batch : gmap string (Tensor R)) :
  In (Ok batch) (DataLoader dataset batch_size order) ->
  field batch "gcn_bert_large" = Err (KeyError "gcn_bert_large") /\
  exists e, valid_inputs batch = Err e.
Proof.
  intros Hin. apply loader_no_gcn_bert_large in Hin. split.
  - unfold field. by rewrite Hin.
  - by apply valid_inputs_needs_gcn_bert_large.
Qed.

(** The bindings of the three loops. On a batch that [valid] can read, the
    tensor it binds to [gcn_bert_base] is the field [gcn_bert_large]; the
    one [train] and [test_label_generator] bind, when they can read the
    batch, is the field [gcn_bert_base], and all of them bind the same for
    every other argument. *)
Lemma valid_reads_gcn_bert_large {R : Type} `{Scalar R}
    (data : gmap string (Tensor R)) (a_v : ModelArgs R) (t_v : LongTensor1) :
  valid_inputs data = Ok (a_v, t_v) ->
  rbind (field data "gcn_bert_large") to_float2 = Ok (arg_gcn_bert_base a_v) /\
  forall (a_t : ModelArgs R) (t_t : LongTensor1),
    train_inputs data = Ok (a_t, t_t) ->
    rbind (field data "gcn_bert_base") to_float2
    = Ok (arg_gcn_bert_base a_t) /\
    test_inputs data = Ok a_t /\
    t_v = t_t /\
    a_v = with_gcn_bert_base a_t (arg_gcn_bert_base a_v).
Proof.
  intros Ev.
  apply valid_inputs_Ok in Ev
    as (V1 & V2 & V3 & V4 & V5 & V6 & V7 & V8 & V9 & V10 & V11 & V12).
  split; [done|]. intros a_t t_t Et.
  apply train_inputs_Ok in Et
    as (T1 & T2 & T3 & T4 & T5 & T6 & T7 & T8 & T9 & T10 & T11 & T12).
  split; [done|]. split; [|split].
  - unfold test_inputs.
    rewrite T1, T2, T3, T5, T6, T7, T8, T9, T10, T11, T12. simpl.
    by destruct a_t.
  - congruence.
  - destruct a_v, a_t. unfold with_gcn_bert_base. simpl in *.
    f_equal; congruence.
Qed.

Example valid_reads_gcn_bert_large_on_a_wide_batch :
  valid_inputs demo_wide_batch
  = Ok (with_gcn_bert_base (demo_args 2048) (const_tensor 2 768 9), [0; 1]%Z) /\
  train_inputs demo_wide_batch = Ok (demo_args 2048, [0; 1]%Z) /\
  rbind (field demo_wide_batch "gcn_bert_large") to_float2
  = Ok (const_tensor 2 768 9) /\
  rbind (field demo_wide_batch "gcn_bert_base") to_float2
  = Ok (const_tensor 2 768 6).
Proof.
  assert (valid_inputs demo_wide_batch
          = Ok (with_gcn_bert_base (demo_args 2048) (const_tensor 2 768 9),
                [0; 1]%Z)) as Ev by (vm_compute; reflexivity).
  assert (train_inputs demo_wide_batch = Ok (demo_args 2048, [0; 1]%Z))
    as Et by (vm_compute; reflexivity).
  destruct (valid_reads_gcn_bert_large _ _ _ Ev) as [G Ht].
  destruct (Ht _ _ Et) as (Gt & _).
  split; [exact Ev|]. split; [exact Et|]. split; [exact G|exact Gt].
Defined.

(** C3. [valid] reads the batch field [gcn_bert_large] where [train] and
    [test_label_generator] read [gcn_bert_base], and on the batches the
    notebook validates on it fails where they do not: [SentimentData]
    writes no field [gcn_bert_large], so on the batch of [vali_loader]
    [valid] raises a KeyError for it and calls the model on nothing, while
    the bindings of [train] and of [test_label_generator] read the same
    batch. *)
Theorem valid_raises_on_the_validation_loader :
  rmap (fun l : Loaders Z =>
          map (fun item => rbind item (fun d => rmap fst (valid_inputs d)))
              (vali_loader l))
       demo_loaders
  = Ok [Err (KeyError "gcn_bert_large")] /\
  rbind demo_loaders
        (fun l => fst (valid demo_loss (vali_loader l) demo_world))
  = Err (KeyError "gcn_bert_large") /\
  rmap (fun l : Loaders Z =>
          map (fun item =>
                 rbind item (fun d => rmap (fun _ => tt) (train_inputs d)))
              (vali_loader l))
       demo_loaders
  = Ok [Ok tt] /\
  rmap (fun l : Loaders Z =>
          map (fun item =>
                 rbind item (fun d => rmap (fun _ => tt) (test_inputs d)))
              (vali_loader l))
       demo_loaders
  = Ok [Ok tt].
Proof. vm_compute. done. Qed.

(** Where the column [visual_embedding] of the two tables comes from. *)
Lemma df_select_lookup {R : Type} (df df' : DataFrame R) (names : list string)
      (name : string) :
  df_select df names = Ok df' -> In name names ->
  df_index df' = df_index df /\
  df_columns df' !! name = df_columns df !! name.
Proof.
  unfold df_select. intros E Hin. rbind_inv E. injection E as <-. simpl.
  split; [done|]. revert x E0 Hin.
  induction names as [|n names IH]; intros cols E Hin; [done|].
  simpl in E. rbind_inv E. injection E as <-.
  destruct (df_columns df !! n) as [c|] eqn:En; [|discriminate].
  injection E0 as <-. simpl.
  destruct (decide (n = name)) as [->|Hne].
  - by rewrite lookup_insert_eq.
  - rewrite lookup_insert_ne by done. apply IH; [done|].
    destruct Hin; [done|done].
Qed.

Lemma reindex_lookup {R : Type} (s : Series R) (idx : list nat) (l : nat) :
  In l idx -> reindex s idx !! l = Some (default CNaN (s_values s !! l)).
Proof.
  unfold reindex. induction idx as [|i idx IH]; intros Hin; [done|].
  simpl. destruct (decide (i = l)) as [->|Hne].
  - by rewrite lookup_insert_eq.
  - rewrite lookup_insert_ne by done. apply IH. by destruct Hin.
Qed.

(** Whatever the tables, the cells write into every row of the training
    table the visual embedding that [visual_test.pkl] has for the label
    of the row, and into every row of the testing table the one that
    [visual_train.pkl] has for it. *)
Lemma prepare_frames_visual_embedding {R : Type} (files : Pickles R)
      (new_df new_df_test : DataFrame R) :
  prepare_frames files = Ok (new_df, new_df_test) ->
  exists train_col test_col : gmap nat (Cell R),
    df_columns (visual_train_pkl files) !! "visual_embedding" = Some train_col /\
    df_columns (visual_test_pkl files) !! "visual_embedding" = Some test_col /\
    (forall l c, In l (df_index (training_dataset_pkl files)) ->
       df_col new_df "visual_embedding" = Ok c ->
       s_values c !! l = Some (default CNaN (test_col !! l))) /\
    (forall l c, In l (df_index (testing_dataset_pkl files)) ->
       df_col new_df_test "visual_embedding" = Ok c ->
       s_values c !! l = Some (default CNaN (train_col !! l))).
Proof.
  unfold prepare_frames. intros E. cbv zeta in E. rbind_inv E.
  injection E as <- <-.
  unfold df_col in E0, E1.
  destruct (df_columns (visual_test_pkl files) !! "visual_embedding")
    as [test_col|] eqn:Etest; [|discriminate].
  destruct (df_columns (visual_train_pkl files) !! "visual_embedding")
    as [train_col|] eqn:Etrain; [|discriminate].
  injection E0 as <-. injection E1 as <-.
  exists train_col, test_col. split; [done|]. split; [done|].
  split; intros l c Hl Ec; unfold df_col in Ec.
  - apply (df_select_lookup _ _ _ "visual_embedding") in E2 as [_ E2];
      [|unfold selected_columns; simpl; tauto].
    rewrite E2 in Ec. simpl in Ec. rewrite lookup_insert_eq in Ec.
    injection Ec as <-. simpl. by rewrite reindex_lookup.
  - apply (df_select_lookup _ _ _ "visual_embedding") in E3 as [_ E3];
      [|unfold selected_columns; simpl; tauto].
    rewrite E3 in Ec. simpl in Ec. rewrite lookup_insert_eq in Ec.
    injection Ec as <-. simpl. by rewrite reindex_lookup.
Qed.

(** C4, on tables where the code departs from it. Sample 0 of the training
    set is row 1 of the training table (26 is its [gcn_bert_base]) with the
    visual embedding of row 1 of [visual_test.pkl] (201, not 101); sample 0
    of the test set is row 0 of the testing table with the visual
    embedding of row 0 of [visual_train.pkl] (100, not 200). *)
Theorem datasets_take_the_visual_table_of_the_other_split :
  let sample_0 (dataset : Loaders Z -> SentimentData Z) :=
    rbind demo_loaders
      (fun l =>
         rbind (SentimentData_getitem (dataset l) 0)
               (fun d =>
                  rbind (field d "gcn_bert_base")
                        (fun g => rbind (field d "visual")
                                        (fun v => Ok (g, v))))) in
  sample_0 training_set
  = Ok (Float1 (replicate 768 26%Z), Float1 (replicate 2048 201%Z)) /\
  sample_0 test_set
  = Ok (Float1 (replicate 768 56%Z), Float1 (replicate 2048 100%Z)).
Proof. vm_compute. done. Qed.

(** * Further properties of the code *)

(** ** Fusion and accuracy *)

Section FusionFacts.
Context {R : Type} `{Scalar R}.

(** X1. One pairwise fusion (unsqueeze, cat, max-pool, squeeze) returns
    exactly when the two tensors have, row by row, the same widths, there
    is a row, and no row is empty; it then returns their element-wise
    maximum. When the rows do not match, the error is the one of
    [torch.cat]; for two tensors of one shape (B, W) with B = 0 or W = 0 it
    is the one of the pooling, whose shape check refuses an empty
    dimension. The squeeze never raises. *)
Theorem pairwise_fusion_returns_iff (a b : Tensor2 R) :
  ((exists v, pairwise_fusion a b = Ok v) <->
   Forall2 (fun r s => length r = length s) a b /\
   a <> [] /\ Forall (fun r => r <> []) a) /\
  (forall v, pairwise_fusion a b = Ok v ->
             v = zip_with (zip_with smax) a b) /\
  (~ Forall2 (fun r s => length r = length s) a b ->
   pairwise_fusion a b = Err (DimMismatch "cat")) /\
  (forall B W, shape2 B W a -> shape2 B W b -> B = 0 \/ W = 0 ->
               pairwise_fusion a b = Err (DimMismatch "pooling")) /\
  (forall e, pairwise_fusion a b = Err e ->
             e = DimMismatch "cat" \/ e = DimMismatch "pooling").
Proof.
  split; [split|split; [|split; [|split]]].
  - intros [v E]. by apply pairwise_fusion_Ok_rows in E as (F & Na & Nr & _).
  - intros (F & Na & Nr). eexists. by apply pairwise_fusion_same.
  - intros v E. by apply pairwise_fusion_Ok_rows in E as (_ & _ & _ & ->).
  - intros N. rewrite pairwise_fusion_checks.
    destruct (_ && _) eqn:C; [|done]. by apply cat_check_rows in C.
  - intros B W Sa Sb E. by apply (pairwise_fusion_empty B W).
  - intros e. rewrite pairwise_fusion_checks.
    destruct (_ && _); [destruct (pool_check _)|];
      [done|intros [= <-]; by right|intros [= <-]; by left].
Qed.

End FusionFacts.

Lemma pairwise_fusion_returns_iff_witness :
  (exists v, pairwise_fusion [[1; 5]; [2; 2]]%Z [[3; 4]; [0; 7]]%Z = Ok v) /\
  pairwise_fusion [[1; 5]; [2; 2]]%Z [[3; 4]; [0]]%Z = Err (DimMismatch "cat") /\
  pairwise_fusion ([] : Tensor2 Z) [] = Err (DimMismatch "pooling") /\
  pairwise_fusion ([[]; []] : Tensor2 Z) [[]; []] = Err (DimMismatch "pooling").
Proof.
  split; [|split; [|split]].
  - apply (proj1 (pairwise_fusion_returns_iff [[1; 5]; [2; 2]]%Z
                    [[3; 4]; [0; 7]]%Z)).
    split; [repeat constructor|]. split; [done|]. by repeat constructor.
  - apply (proj1 (proj2 (proj2 (pairwise_fusion_returns_iff
                                  [[1; 5]; [2; 2]]%Z [[3; 4]; [0]]%Z)))).
    intros F. inversion F as [|? ? ? ? _ F']; subst.
    inversion F' as [|? ? ? ? E _]; subst. discriminate E.
  - apply (proj1 (proj2 (proj2 (proj2 (pairwise_fusion_returns_iff
                                         ([] : Tensor2 Z) [])))) 0 5).
    + by split.
    + by split.
    + by left.
  - apply (proj1 (proj2 (proj2 (proj2 (pairwise_fusion_returns_iff
                                         ([[]; []] : Tensor2 Z) [[]; []]))))
             2 0).
    + split; [reflexivity|]. by repeat constructor.
    + split; [reflexivity|]. by repeat constructor.
    + by right.
Defined.

Lemma count_true_le (l : list bool) :
  length (filter (fun b => b = true) l) <= length l.
Proof. apply length_filter. Qed.

Lemma count_true_all (p t : list Z) :
  length p = length t ->
  length (filter (fun b => b = true) (zip_with Z.eqb p t)) = length t <-> p = t.
Proof.
  revert t. induction p as [|x p IH]; intros [|y t] E; simpl in *; try done.
  injection E as E. rewrite filter_cons.
  pose proof (count_true_le (zip_with Z.eqb p t)) as L.
  rewrite length_zip_with in L.
  destruct (decide ((x =? y)%Z = true)) as [Exy|Exy]; simpl.
  - apply Z.eqb_eq in Exy as ->. split.
    + intros E1. f_equal. apply IH; [done|lia].
    + intros [= ->]. f_equal. by apply IH.
  - split; [lia|]. intros [= -> ->]. by rewrite Z.eqb_refl in Exy.
Qed.

(** X2. When there is one prediction per target, [calcuate_accuracy]
    returns the number of targets exactly when the predictions are the
    targets: a perfect count means that every label is right. *)
Theorem calcuate_accuracy_perfect_iff (preds targets : LongTensor1) :
  length preds = length targets ->
  calcuate_accuracy preds targets = Ok (Z.of_nat (length targets)) <->
  preds = targets.
Proof.
  intros E. unfold calcuate_accuracy, torch_eq.
  rewrite E, Nat.eqb_refl. simpl. unfold sum_item.
  rewrite <- (count_true_all preds targets E). split.
  - intros [= Hn]. lia.
  - intros ->. done.
Qed.

Lemma calcuate_accuracy_perfect_iff_witness :
  calcuate_accuracy [2; 0; 3]%Z [2; 0; 3]%Z = Ok 3%Z.
Proof.
  apply (proj2 (calcuate_accuracy_perfect_iff [2; 0; 3]%Z [2; 0; 3]%Z eq_refl)).
  reflexivity.
Defined.

(** X3. [calcuate_accuracy] does not tell predictions from targets: with
    the arguments swapped it returns the same count or raises the same
    error, also when one of the two arrays is broadcast. *)
Theorem calcuate_accuracy_symmetric (preds targets : LongTensor1) :
  calcuate_accuracy preds targets = calcuate_accuracy targets preds.
Proof.
  unfold calcuate_accuracy, torch_eq.
  destruct (length preds =? length targets) eqn:E.
  - apply Nat.eqb_eq in E. rewrite <- E, Nat.eqb_refl. simpl.
    by rewrite (zip_with_comm Z.eqb preds targets) by (intros; apply Z.eqb_sym).
  - rewrite (Nat.eqb_sym (length targets) (length preds)), E.
    destruct (length preds =? 1) eqn:P, (length targets =? 1) eqn:T; simpl;
      try done.
    + apply Nat.eqb_eq in P, T. apply Nat.eqb_neq in E. lia.
    + do 2 f_equal. apply map_ext. intros; apply Z.eqb_sym.
    + do 2 f_equal. apply map_ext. intros; apply Z.eqb_sym.
Qed.

Lemma calcuate_accuracy_bounds (preds targets : LongTensor1) (n : Z) :
  calcuate_accuracy preds targets = Ok n ->
  (0 <= n <= Z.of_nat (max (length preds) (length targets)))%Z.
Proof.
  unfold calcuate_accuracy, torch_eq.
  destruct (length preds =? length targets) eqn:E;
    [|destruct (length preds =? 1) eqn:P; [|destruct (length targets =? 1) eqn:T]];
    simpl; try done; intros [= <-]; unfold sum_item.
  - pose proof (count_true_le (zip_with Z.eqb preds targets)) as L.
    rewrite length_zip_with in L. lia.
  - pose proof (count_true_le (map (Z.eqb (hd 0%Z preds)) targets)) as L.
    rewrite length_map in L. lia.
  - pose proof (count_true_le (map (fun p => Z.eqb p (hd 0%Z targets)) preds)) as L.
    rewrite length_map in L. lia.
Qed.

(** ** The batches of a loader *)

Lemma chunks_nil {A} (fuel n : nat) : chunks fuel n (@nil A) = [].
Proof. by destruct fuel. Qed.

Lemma chunks_cons {A} (fuel n : nat) (a : A) (l : list A) :
  chunks (S fuel) n (a :: l) =
  take n (a :: l) :: chunks fuel n (drop n (a :: l)).
Proof. reflexivity. Qed.

Lemma chunks_concat {A} (n fuel : nat) (l : list A) :
  0 < n -> length l <= fuel -> concat (chunks fuel n l) = l.
Proof.
  intros Hn. revert l. induction fuel as [|fuel IH]; intros l Hl.
  - destruct l; [done|simpl in Hl; lia].
  - destruct l as [|a l]; [done|]. rewrite chunks_cons, concat_cons, IH.
    + apply take_drop.
    + rewrite length_drop. simpl in *. lia.
Qed.

Lemma chunks_sizes {A} (n fuel : nat) (l : list A) :
  0 < n -> Forall (fun b => 0 < length b <= n) (chunks fuel n l).
Proof.
  intros Hn. revert l. induction fuel as [|fuel IH]; intros l; [constructor|].
  destruct l as [|a l]; [constructor|]. rewrite chunks_cons.
  constructor; [|apply IH]. rewrite length_take. simpl. lia.
Qed.

Lemma chunks_full {A} (n fuel : nat) (l : list A) (i : nat) (b : list A) :
  chunks fuel n l !! i = Some b -> S i < length (chunks fuel n l) ->
  length b = n.
Proof.
  revert l i. induction fuel as [|fuel IH]; intros l i; [done|].
  destruct l as [|a l]; [done|]. rewrite chunks_cons.
  destruct i as [|i]; simpl.
  - intros [= <-] Hi. rewrite length_take.
    destruct (drop n (a :: l)) as [|x rest] eqn:D.
    { rewrite chunks_nil in Hi. simpl in Hi. lia. }
    assert (length (drop n (a :: l)) = S (length rest)) as L by by rewrite D.
    rewrite length_drop in L. lia.
  - intros Hb Hi. apply (IH (drop n (a :: l)) i); [done|lia].
Qed.

Lemma chunks_count {A} (n fuel : nat) (l : list A) :
  0 < n -> length l <= fuel ->
  length (chunks fuel n l) = (length l + n - 1) / n.
Proof.
  intros Hn. revert l. induction fuel as [|fuel IH]; intros l Hl.
  - destruct l; [|simpl in Hl; lia]. simpl.
    symmetry. apply Nat.div_small. lia.
  - destruct l as [|a l].
    { simpl. symmetry. apply Nat.div_small. lia. }
    rewrite chunks_cons. cbn [length]. rewrite IH, length_drop
      by (rewrite ?length_drop; simpl in *; lia).
    cbn [length]. destruct (decide (S (length l) <= n)) as [Le|Gt].
    + replace (S (length l) - n) with 0 by lia.
      rewrite (Nat.div_small (0 + n - 1)) by lia.
      apply (Nat.div_unique _ _ 1 (length l)); lia.
    + replace (S (length l) + n - 1) with ((S (length l) - n + n - 1) + 1 * n)
        by lia.
      rewrite Nat.div_add by lia. lia.
Qed.

(** X4. With a positive batch size the loader draws every position of
    the order exactly once and in that order: the batches of positions,
    joined, are the order. No batch is empty, none is longer than the
    batch size, and every batch but the last is full. *)
Theorem loader_batches_partition {A : Type} (batch_size : nat) (order : list A) :
  0 < batch_size ->
  concat (chunks (length order) batch_size order) = order /\
  Forall (fun b => 0 < length b <= batch_size)
    (chunks (length order) batch_size order) /\
  forall i b, chunks (length order) batch_size order !! i = Some b ->
    S i < length (chunks (length order) batch_size order) ->
    length b = batch_size.
Proof.
  intros Hn. split; [|split].
  - by apply chunks_concat.
  - by apply chunks_sizes.
  - intros i b. apply chunks_full.
Qed.

Lemma loader_batches_partition_witness :
  concat (chunks 5 2 [3; 1; 4; 0; 2]) = [3; 1; 4; 0; 2] /\
  Forall (fun b => 0 < length b <= 2) (chunks 5 2 [3; 1; 4; 0; 2]) /\
  forall i b, chunks 5 2 [3; 1; 4; 0; 2] !! i = Some b ->
    S i < length (chunks 5 2 [3; 1; 4; 0; 2]) -> length b = 2.
Proof. apply (loader_batches_partition 2 [3; 1; 4; 0; 2]). lia. Defined.

Lemma DataLoader_count {R : Type} `{Scalar R} (dataset : SentimentData R)
    (batch_size : nat) (order : list nat) :
  0 < batch_size ->
  length (DataLoader dataset batch_size order) =
  (length order + batch_size - 1) / batch_size.
Proof.
  intros Hn. unfold DataLoader. rewrite length_map. by apply chunks_count.
Qed.

(** X5. The construction of a loader. With [shuffle=True] over a dataset
    of no rows it raises the ValueError of [RandomSampler]. In every other
    case, with a positive batch size, it returns a loader that yields one
    item for every batch_size rows and one more for a remainder: the
    ceiling of the number of rows over the batch size, which is no item for
    a dataset of no rows. *)
Theorem DataLoader_init_length {R : Type} `{Scalar R}
    (dataset : SentimentData R) (batch_size : nat) (shuffle : bool)
    (perm : list nat -> list nat) :
  0 < batch_size ->
  (forall l, length (perm l) = length l) ->
  (shuffle = true -> SentimentData_len dataset = 0 ->
   DataLoader_init dataset batch_size shuffle perm
   = Err (ValueError "num_samples")) /\
  (shuffle = false \/ 0 < SentimentData_len dataset ->
   exists loader,
     DataLoader_init dataset batch_size shuffle perm = Ok loader /\
     length loader
     = (SentimentData_len dataset + batch_size - 1) / batch_size).
Proof.
  intros Hn Hperm. unfold DataLoader_init, RandomSampler_init.
  destruct batch_size as [|n]; [lia|]. cbn [Nat.eqb]. split.
  - intros -> E. by rewrite E.
  - intros C. destruct shuffle.
    + destruct C as [C|C]; [done|].
      destruct (SentimentData_len dataset) as [|k] eqn:E; [lia|]. simpl.
      eexists. split; [done|].
      rewrite DataLoader_count by lia. unfold sequential.
      by rewrite Hperm, length_seq, E.
    + eexists. split; [done|].
      rewrite DataLoader_count by lia. unfold sequential.
      by rewrite length_seq.
Qed.

Lemma DataLoader_init_length_witness :
  exists loader,
    DataLoader_init tiny_set 2 true (@rev nat) = Ok loader /\
    length loader = 2.
Proof.
  apply (proj2 (DataLoader_init_length tiny_set 2 true (@rev nat)
                  (Nat.lt_0_succ 1) (@length_rev nat))).
  right. apply Nat.lt_0_succ.
Defined.

(** ** What a batch holds *)

Lemma rmapM_length {A B} (f : A -> result B) (l : list A) (bs : list B) :
  rmapM f l = Ok bs -> length bs = length l.
Proof.
  revert bs. induction l as [|a l IH]; intros bs E; simpl in E.
  - by injection E as <-.
  - rbind_inv E. injection E as <-. simpl. by rewrite (IH _ E1).
Qed.

Lemma rmapM_In_l {A B} (f : A -> result B) (l : list A) (bs : list B) (a : A) :
  rmapM f l = Ok bs -> In a l -> exists b, In b bs /\ f a = Ok b.
Proof.
  revert bs. induction l as [|a' l IH]; intros bs E Hin; [done|].
  simpl in E. rbind_inv E. injection E as <-. destruct Hin as [->|Hin].
  - exists x. by split; [left|].
  - destruct (IH _ E1 Hin) as (b & Hb & Eb). exists b. by split; [right|].
Qed.

Lemma rmapM_In_r {A B} (f : A -> result B) (l : list A) (bs : list B) (b : B) :
  rmapM f l = Ok bs -> In b bs -> exists a, In a l /\ f a = Ok b.
Proof.
  revert bs. induction l as [|a' l IH]; intros bs E Hin; simpl in E.
  - injection E as <-. done.
  - rbind_inv E. injection E as <-. destruct Hin as [<-|Hin].
    + exists a'. by split; [left|].
    + destruct (IH _ E1 Hin) as (a & Ha & Ea). exists a. by split; [right|].
Qed.


Lemma chunks_le {A} (n fuel : nat) (l : list A) :
  Forall (fun b => length b <= n) (chunks fuel n l).
Proof.
  revert l. induction fuel as [|fuel IH]; intros l; [constructor|].
  destruct l as [|a l]; [constructor|]. rewrite chunks_cons.
  constructor; [|apply IH]. rewrite length_take. lia.
Qed.

Section BatchFields.
Context {R : Type} `{Scalar R}.

Lemma torch_stack_leading (ts : list (Tensor R)) (t : Tensor R) :
  torch_stack ts = Ok t -> leading_dim t = Some (length ts).
Proof.
  destruct ts as [|t0 ts']; [done|].
  destruct t0; cbn [torch_stack]; intros E; try done.
  - destruct (rmapM as_long0 _) as [zs|] eqn:Ez; [|done].
    injection E as <-. simpl. f_equal. by apply rmapM_length in Ez.
  - rbind_inv E. destruct (same_lengths x); [|done]. injection E as <-.
    simpl. f_equal. by apply rmapM_length in E0.
  - destruct (rmapM as_float0 _) as [zs|] eqn:Ez; [|done].
    injection E as <-. simpl. f_equal. by apply rmapM_length in Ez.
  - rbind_inv E. destruct (same_lengths x); [|done]. injection E as <-.
    simpl. f_equal. by apply rmapM_length in E0.
Qed.

(** The value a batch has for a key of its first sample: the stack of the
    values the samples have for it. *)
Lemma collate_lookup (elem : gmap string (Tensor R))
      (rest : list (gmap string (Tensor R))) (batch : gmap string (Tensor R))
      (key : string) (t0 : Tensor R) :
  collate (elem :: rest) = Ok batch -> elem !! key = Some t0 ->
  exists values stacked,
    rmapM (fun d => field d key) rest = Ok values /\
    torch_stack (t0 :: values) = Ok stacked /\
    batch !! key = Some stacked.
Proof.
  unfold collate. intros E Hk. rbind_inv E. injection E as <-.
  assert (map fst x = map fst (map_to_list elem)) as Hkeys.
  { apply rmapM_fst in E0; [done|].
    intros a b Ea. rbind_inv Ea. by injection Ea as <-. }
  assert (In key (map fst (map_to_list elem))) as Hin.
  { apply in_map_iff. exists (key, t0). split; [done|].
    by apply list_elem_of_In, elem_of_map_to_list. }
  destruct (rmapM_In_l _ _ _ _ E0 Hin) as (b & Hb & Eb).
  rbind_inv Eb. injection Eb as <-.
  simpl in E. unfold field at 1 in E. rewrite Hk in E. simpl in E.
  rbind_inv E. injection E as <-.
  exists x2, x1. repeat split; [done..|].
  apply elem_of_list_to_map_1; [|by apply list_elem_of_In].
  change (NoDup (map fst x)). rewrite Hkeys. apply NoDup_fst_map_to_list.
Qed.

Lemma collate_dom (elem : gmap string (Tensor R))
      (rest : list (gmap string (Tensor R))) (batch : gmap string (Tensor R)) :
  collate (elem :: rest) = Ok batch -> dom batch =@{gset string} dom elem.
Proof.
  intros E. apply set_eq. intros key. rewrite !elem_of_dom. split.
  - intros [t Ht]. destruct (elem !! key) as [t0|] eqn:Hk; [by eexists|].
    rewrite (collate_no_key _ _ _ _ E Hk) in Ht. done.
  - intros [t0 Hk].
    destruct (collate_lookup _ _ _ _ _ E Hk) as (? & stacked & _ & _ & Hb).
    by eexists.
Qed.

Lemma collate_leading (samples : list (gmap string (Tensor R)))
      (batch : gmap string (Tensor R)) (key : string) (t : Tensor R) :
  collate samples = Ok batch -> batch !! key = Some t ->
  leading_dim t = Some (length samples).
Proof.
  destruct samples as [|elem rest]; [done|]. intros E Ht.
  destruct (elem !! key) as [t0|] eqn:Hk.
  - destruct (collate_lookup _ _ _ _ _ E Hk) as (values & stacked & Ev & Es & Hb).
    rewrite Hb in Ht. injection Ht as <-.
    apply torch_stack_leading in Es. rewrite Es. simpl.
    by rewrite (rmapM_length _ _ _ Ev).
  - rewrite (collate_no_key _ _ _ _ E Hk) in Ht. done.
Qed.

Lemma getitem_dom (self : SentimentData R) (index : nat)
      (d : gmap string (Tensor R)) :
  SentimentData_getitem self index = Ok d ->
  dom d =@{gset string} list_to_set sample_keys.
Proof.
  unfold SentimentData_getitem. intros E. rbind_inv E. injection E as <-.
  rewrite !dom_insert_L, dom_empty_L. unfold sample_keys. simpl. set_solver.
Qed.

(** The pieces of a loader item that is a batch. *)
Lemma loader_item (dataset : SentimentData R) (batch_size : nat)
      (order : list nat) (batch : gmap string (Tensor R)) :
  In (Ok batch) (DataLoader dataset batch_size order) ->
  exists p ps elem rest,
    length (p :: ps) <= batch_size /\
    SentimentData_getitem dataset p = Ok elem /\
    rmapM (SentimentData_getitem dataset) ps = Ok rest /\
    collate (elem :: rest) = Ok batch.
Proof.
  unfold DataLoader. intros Hin.
  apply in_map_iff in Hin as (positions & E & Hp). rbind_inv E.
  destruct x as [|elem rest]; [discriminate|].
  apply rmapM_cons_inv in E0 as (p & ps & -> & Ep & Eps).
  exists p, ps, elem, rest. repeat split; try done.
  pose proof (chunks_le batch_size (length order) order) as L.
  rewrite Forall_forall in L. by apply L, list_elem_of_In.
Qed.

End BatchFields.

(** X6. Every batch that a loader builds from [SentimentData] has exactly
    the twelve keys of a sample, and for every key a tensor whose leading
    dimension is the number of examples of the batch, which is at least 1
    and at most the batch size. *)
Theorem loader_batch_fields {R : Type} `{Scalar R} (dataset : SentimentData R)
    (batch_size : nat) (order : list nat) (batch : gmap string (Tensor R)) :
  In (Ok batch) (DataLoader dataset batch_size order) ->
  dom batch =@{gset string} list_to_set sample_keys /\
  exists k, 0 < k <= batch_size /\
    forall key t, batch !! key = Some t -> leading_dim t = Some k.
Proof.
  intros Hin.
  destruct (loader_item _ _ _ _ Hin) as (p & ps & elem & rest & L & Ep & Eps & Ec).
  split.
  - rewrite (collate_dom _ _ _ Ec). by eapply getitem_dom.
  - exists (length (elem :: rest)). split.
    + simpl in *. rewrite (rmapM_length _ _ _ Eps). lia.
    + intros key t Ht. by eapply collate_leading.
Qed.

Lemma is_Ok_value {A} (r : result A) (d : A) :
  is_Ok r = true -> r = Ok (match r with Ok a => a | Err _ => d end).
Proof. by destruct r. Qed.

Lemma yields_batch_first {A} (loader : list (result A)) (d : A) :
  yields_batch loader = true ->
  In (Ok (match loader with Ok b :: _ => b | _ => d end)) loader.
Proof. destruct loader as [|[b|e] l]; try done. by left. Qed.

Lemma tiny_batch_in_loader : In (Ok tiny_batch) (DataLoader tiny_set 2 [0; 1; 2]).
Proof. apply yields_batch_first. vm_compute. reflexivity. Qed.

Lemma loader_batch_fields_witness :
  dom tiny_batch =@{gset string} list_to_set sample_keys /\
  exists k, 0 < k <= 2 /\
    forall key t, tiny_batch !! key = Some t -> leading_dim t = Some k.
Proof.
  apply (loader_batch_fields tiny_set 2 [0; 1; 2] tiny_batch).
  apply tiny_batch_in_loader.
Defined.

(** ** Reading the batches of a loader *)

Section Reading.
Context {R : Type} `{Scalar R}.

Lemma stack_of_long1 (v : LongTensor1) (ts : list (Tensor R)) (s : Tensor R) :
  torch_stack (Long1 v :: ts) = Ok s -> exists rows, s = Long2 rows.
Proof.
  cbn [torch_stack]. intros E. rbind_inv E.
  destruct (same_lengths x); [|done]. injection E as <-. by eexists.
Qed.

Lemma stack_of_float1 (v : Tensor1 R) (ts : list (Tensor R)) (s : Tensor R) :
  torch_stack (Float1 v :: ts) = Ok s -> exists rows, s = Float2 rows.
Proof.
  cbn [torch_stack]. intros E. rbind_inv E.
  destruct (same_lengths x); [|done]. injection E as <-. by eexists.
Qed.

Lemma stack_of_float0 (x : R) (ts : list (Tensor R)) (s : Tensor R) :
  torch_stack (Float0 x :: ts) = Ok s -> exists v, s = Float1 v.
Proof.
  cbn [torch_stack]. intros E.
  destruct (rmapM as_float0 _) as [zs|]; [|done]. injection E as <-. by eexists.
Qed.

Lemma int_cell_tensor (s : Series R) (index : nat) (t : Tensor R) :
  map_Forall (fun _ c => is_int c = true) (s_values s) ->
  rbind (series_at s index) torch_tensor_float = Ok t -> exists x, t = Float0 x.
Proof.
  intros T E. rbind_inv E. unfold series_at in E0.
  destruct (s_values s !! index) as [c|] eqn:Hc; [|done]. injection E0 as <-.
  apply T in Hc. destruct c; try done. injection E as <-. by eexists.
Qed.

Lemma vec_cell_tensor (s : Series R) (index : nat) (t : Tensor R) :
  map_Forall (fun _ c => is_vec c = true) (s_values s) ->
  rbind (series_at s index) torch_tensor_float = Ok t -> exists v, t = Float1 v.
Proof.
  intros T E. rbind_inv E. unfold series_at in E0.
  destruct (s_values s !! index) as [c|] eqn:Hc; [|done]. injection E0 as <-.
  apply T in Hc. destruct c; try done. injection E as <-. by eexists.
Qed.

Lemma batch_long2 (elem : gmap string (Tensor R))
      (rest : list (gmap string (Tensor R))) (batch : gmap string (Tensor R))
      (key : string) (v : LongTensor1) :
  collate (elem :: rest) = Ok batch -> elem !! key = Some (Long1 v) ->
  exists rows, rbind (field batch key) to_long2 = Ok rows.
Proof.
  intros E Hk.
  destruct (collate_lookup _ _ _ _ _ E Hk) as (? & s & _ & Es & Hb).
  apply stack_of_long1 in Es as [rows ->].
  exists rows. unfold field. by rewrite Hb.
Qed.

Lemma batch_float2 (elem : gmap string (Tensor R))
      (rest : list (gmap string (Tensor R))) (batch : gmap string (Tensor R))
      (key : string) (v : Tensor1 R) :
  collate (elem :: rest) = Ok batch -> elem !! key = Some (Float1 v) ->
  exists rows, rbind (field batch key) to_float2 = Ok rows.
Proof.
  intros E Hk.
  destruct (collate_lookup _ _ _ _ _ E Hk) as (? & s & _ & Es & Hb).
  apply stack_of_float1 in Es as [rows ->].
  exists rows. unfold field. by rewrite Hb.
Qed.

Lemma batch_long1 (elem : gmap string (Tensor R))
      (rest : list (gmap string (Tensor R))) (batch : gmap string (Tensor R))
      (key : string) (x : R) :
  collate (elem :: rest) = Ok batch -> elem !! key = Some (Float0 x) ->
  exists v, rbind (field batch key) to_long1 = Ok v.
Proof.
  intros E Hk.
  destruct (collate_lookup _ _ _ _ _ E Hk) as (? & s & _ & Es & Hb).
  apply stack_of_float0 in Es as [v ->].
  exists (map sto_long v). unfold field. by rewrite Hb.
Qed.

End Reading.

Ltac sample_lookup :=
  repeat (rewrite lookup_insert_ne by (intros [=])); apply lookup_insert_eq.

(** X7. When the label cells of the table are integers and its feature
    cells are vectors, [train] and [test_label_generator] can bind every
    batch a loader builds from [SentimentData]: each field they read is
    there with the rank its use needs. The two read the same model
    arguments. *)
Theorem train_and_test_read_every_loader_batch {R : Type} `{Scalar R}
    (dataset : SentimentData R) (batch_size : nat) (order : list nat)
    (batch : gmap string (Tensor R)) :
  typed_dataset dataset ->
  In (Ok batch) (DataLoader dataset batch_size order) ->
  exists args targets,
    train_inputs batch = Ok (args, targets) /\ test_inputs batch = Ok args.
Proof.
  intros [Tl Tf] Hin.
  destruct (loader_item _ _ _ _ Hin) as (p & ps & elem & rest & _ & Ep & _ & Ec).
  unfold SentimentData_getitem in Ep. rbind_inv Ep. injection Ep as <-.
  repeat match goal with
         | T : Forall _ (_ :: _) |- _ => apply Forall_cons in T as [? T]
         end.
  apply (int_cell_tensor _ _ _ Tl) in E0 as [? ->].
  repeat match goal with
         | E : rbind (series_at ?s p) torch_tensor_float = Ok _,
           T : map_Forall _ (s_values ?s) |- _ =>
             apply (vec_cell_tensor _ _ _ T) in E as [? ->]
         end.
  set (elem := insert "ids" _ _) in Ec.
  assert (exists v, elem !! "ids" = Some (Long1 v)) as [? Hids]
    by (eexists; subst elem; sample_lookup).
  assert (exists v, elem !! "mask" = Some (Long1 v)) as [? Hmask]
    by (eexists; subst elem; sample_lookup).
  assert (exists v, elem !! "token_type_ids" = Some (Long1 v)) as [? Htti]
    by (eexists; subst elem; sample_lookup).
  assert (exists v, elem !! "targets" = Some (Float0 v)) as [? Htargets]
    by (eexists; subst elem; sample_lookup).
  assert (forall key, In key ["visual_feature"; "gcn_bert_base"; "parsing1";
            "parsing2"; "char_density"; "char_number"; "pos_emb"; "visual"] ->
          exists v, elem !! key = Some (Float1 v)) as Hf.
  { intros key Hkey. simpl in Hkey. subst elem.
    repeat (destruct Hkey as [<-|Hkey]; [eexists; sample_lookup|]).
    destruct Hkey. }
  clearbody elem.
  destruct (batch_long2 _ _ _ _ _ Ec Hids) as [ids Eids].
  destruct (batch_long2 _ _ _ _ _ Ec Hmask) as [mask Emask].
  destruct (batch_long2 _ _ _ _ _ Ec Htti) as [tti Etti].
  destruct (batch_long1 _ _ _ _ _ Ec Htargets) as [targets Etargets].
  assert (forall key, In key ["visual_feature"; "gcn_bert_base"; "parsing1";
            "parsing2"; "char_density"; "char_number"; "pos_emb"; "visual"] ->
          exists rows, rbind (field batch key) to_float2 = Ok rows) as Hb.
  { intros key Hkey. destruct (Hf key Hkey) as [v Hv].
    by eapply batch_float2. }
  destruct (Hb "visual_feature") as [vf Evf]; [simpl; tauto|].
  destruct (Hb "gcn_bert_base") as [gcn Egcn]; [simpl; tauto|].
  destruct (Hb "parsing1") as [p1 Ep1]; [simpl; tauto|].
  destruct (Hb "parsing2") as [p2 Ep2]; [simpl; tauto|].
  destruct (Hb "char_density") as [cd Ecd]; [simpl; tauto|].
  destruct (Hb "char_number") as [cn Ecn]; [simpl; tauto|].
  destruct (Hb "pos_emb") as [pe Epe]; [simpl; tauto|].
  assert (exists t, field batch "pos_emb" = Ok t) as [pt Ept]
    by (destruct (field batch "pos_emb"); [by eexists|done]).
  destruct (Hb "visual") as [v Ev]; [simpl; tauto|].
  eexists _, targets. unfold train_inputs, test_inputs.
  rewrite Eids, Emask, Etti, Etargets, Evf, Egcn, Ep1, Ep2, Ecd, Ecn, Ept, Ev.
  simpl. done.
Qed.

Lemma tiny_set_typed : typed_dataset tiny_set.
Proof.
  split; [|repeat first [apply List.Forall_nil | apply List.Forall_cons]];
    apply map_Forall_to_list; vm_compute; repeat constructor.
Qed.

Lemma train_and_test_read_every_loader_batch_witness :
  exists args targets,
    train_inputs tiny_batch = Ok (args, targets) /\
    test_inputs tiny_batch = Ok args.
Proof.
  apply (train_and_test_read_every_loader_batch tiny_set 2 [0; 1; 2] tiny_batch).
  - apply tiny_set_typed.
  - apply tiny_batch_in_loader.
Defined.

(** ** Rows, labels and positions *)

Section Rows.
Context {R : Type} `{Scalar R}.

Lemma imap_keys {A B} (g : A -> B) (idx : list A) (k : nat) :
  (imap (fun j l => (k + j, g l)) idx).*1 = seq k (length idx).
Proof.
  revert k. induction idx as [|l idx IH]; intros k; [done|].
  rewrite imap_cons. simpl. f_equal; [lia|]. rewrite <- (IH (S k)).
  f_equal. apply imap_ext. intros j x _. simpl. f_equal. lia.
Qed.

(** After [reset_index] the cell at position [i] is the cell the column
    had at the label the row order puts at [i]. *)
Lemma relabel_lookup (idx : list nat) (c : gmap nat (Cell R)) (i : nat) :
  relabel idx c !! i = (fun l => default CNaN (c !! l)) <$> idx !! i.
Proof.
  unfold relabel.
  pose proof (imap_keys (fun l => default CNaN (c !! l)) idx 0) as K.
  simpl in K. destruct (idx !! i) as [l|] eqn:Hi; simpl.
  - apply elem_of_list_to_map_1.
    + rewrite K. apply NoDup_seq.
    + by apply (elem_of_lookup_imap_2
        (fun i l => (i, default CNaN (c !! l))) idx l i).
  - apply not_elem_of_list_to_map_1. rewrite K, elem_of_seq.
    apply lookup_ge_None in Hi. lia.
Qed.

Lemma reset_series_at (df : DataFrame R) (perm : list nat -> list nat)
      (name : string) (s : Series R) (i p : nat) (cell : Cell R)
      (col : gmap nat (Cell R)) :
  df_col (reset_index (df_sample perm df)) name = Ok s ->
  perm (df_index df) !! i = Some p ->
  df_columns df !! name = Some col ->
  series_at s i = Ok cell -> cell = default CNaN (col !! p).
Proof.
  unfold df_col, reset_index, df_sample, series_at. simpl.
  rewrite lookup_fmap. intros E Hp Hc. rewrite Hc in E. simpl in E.
  injection E as <-. simpl. rewrite relabel_lookup, Hp. simpl.
  by intros [= <-].
Qed.

Lemma getitem_field (ds : SentimentData R) (i : nat)
      (d : gmap string (Tensor R)) (key : string) (s : Series R) (t : Tensor R) :
  SentimentData_getitem ds i = Ok d -> In (key, s) (sample_series ds) ->
  d !! key = Some t -> rbind (series_at s i) torch_tensor_float = Ok t.
Proof.
  unfold SentimentData_getitem. intros E Hin Hd. rbind_inv E.
  injection E as <-. unfold sample_series in Hin. simpl in Hin.
  repeat (destruct Hin as [[= <- <-]|Hin];
          [rewrite !lookup_insert_ne in Hd by (intros [=]);
           rewrite lookup_insert_eq in Hd; by injection Hd as <-|]).
  destruct Hin.
Qed.

Lemma init_series (df : DataFrame R) (tokenizer : Tokenizer R) (max_len : nat)
      (ds : SentimentData R) (key column : string) :
  SentimentData_init df tokenizer max_len = Ok ds ->
  In (key, column) field_columns ->
  exists s, In (key, s) (sample_series ds) /\ df_col df column = Ok s.
Proof.
  unfold SentimentData_init. intros E Hin. rbind_inv E. injection E as <-.
  unfold field_columns in Hin. simpl in Hin. unfold sample_series. simpl.
  repeat (destruct Hin as [[= <- <-]|Hin];
          [eexists; split; [|eassumption]; tauto|]).
  destruct Hin.
Qed.

Lemma init_text (df : DataFrame R) (tokenizer : Tokenizer R) (max_len : nat)
      (ds : SentimentData R) :
  SentimentData_init df tokenizer max_len = Ok ds ->
  df_col df "text" = Ok (sd_text ds) /\ sd_tokenizer ds = tokenizer /\
  sd_max_len ds = max_len.
Proof.
  unfold SentimentData_init. intros E. rbind_inv E. by injection E as <-.
Qed.

End Rows.

(** X8. The training set is built from the table in its sampled order
    with the rows relabelled by position. Every field of its sample [i]
    is read from one and the same row of the table, the row the sampling
    puts at position [i]: the token tensors from its text, every other
    field from the column of its key. Sampling and [reset_index] never
    pair the features of one row with the label of another. *)
Theorem training_sample_is_one_row {R : Type} `{Scalar R}
    (new_df : DataFrame R) (sample_perm : list nat -> list nat)
    (tokenizer : Tokenizer R) (max_len : nat) (training_set : SentimentData R)
    (i p : nat) (d : gmap string (Tensor R)) :
  SentimentData_init (reset_index (df_sample sample_perm new_df))
    tokenizer max_len = Ok training_set ->
  sample_perm (df_index new_df) !! i = Some p ->
  SentimentData_getitem training_set i = Ok d ->
  (forall col, df_columns new_df !! "text" = Some col ->
     let inputs := tokenizer (default CNaN (col !! p)) max_len in
     d !! "ids" = Some (Long1 (fst (fst inputs))) /\
     d !! "mask" = Some (Long1 (snd (fst inputs))) /\
     d !! "token_type_ids" = Some (Long1 (snd inputs))) /\
  (forall key column col t,
     In (key, column) field_columns ->
     df_columns new_df !! column = Some col ->
     d !! key = Some t ->
     torch_tensor_float (default CNaN (col !! p)) = Ok t).
Proof.
  intros Ei Hp Eg. split.
  - intros col Hc.
    destruct (init_text _ _ _ _ Ei) as (Et & Etok & Eml).
    unfold SentimentData_getitem in Eg. rbind_inv Eg. injection Eg as <-.
    rewrite (reset_series_at _ _ _ _ _ _ _ _ Et Hp Hc E), Etok, Eml.
    cbv zeta. split; [|split].
    + apply lookup_insert_eq.
    + rewrite lookup_insert_ne by (intros [=]). apply lookup_insert_eq.
    + rewrite !lookup_insert_ne by (intros [=]). apply lookup_insert_eq.
  - intros key column col t Hin Hc Hd.
    destruct (init_series _ _ _ _ _ _ Ei Hin) as (s & Hs & Es).
    pose proof (getitem_field _ _ _ _ _ _ Eg Hs Hd) as Et.
    apply rbind_Ok in Et as (cell & Ec & Et).
    by rewrite <- (reset_series_at _ _ _ _ _ _ _ _ Es Hp Hc Ec).
Qed.

Lemma training_sample_is_one_row_witness :
  (forall col, df_columns tiny_frame !! "text" = Some col ->
     let inputs := demo_tokenizer (default CNaN (col !! 2)) 4 in
     tiny_sample !! "ids" = Some (Long1 (fst (fst inputs))) /\
     tiny_sample !! "mask" = Some (Long1 (snd (fst inputs))) /\
     tiny_sample !! "token_type_ids" = Some (Long1 (snd inputs))) /\
  (forall key column col t,
     In (key, column) field_columns ->
     df_columns tiny_frame !! column = Some col ->
     tiny_sample !! key = Some t ->
     torch_tensor_float (default CNaN (col !! 2)) = Ok t).
Proof.
  apply (training_sample_is_one_row tiny_frame (@rev nat) demo_tokenizer 4
           tiny_training_set 0 2 tiny_sample).
  - apply is_Ok_value. vm_compute. reflexivity.
  - reflexivity.
  - apply is_Ok_value. vm_compute. reflexivity.
Defined.

Section Labels.
Context {R : Type} `{Scalar R}.

Lemma reset_col_at (df : DataFrame R) (name : string) (s : Series R) (i : nat) :
  df_col (reset_index df) name = Ok s ->
  s_index s = seq 0 (length (df_index df)) /\
  (i < length (df_index df) -> exists c, series_at s i = Ok c) /\
  (length (df_index df) <= i -> series_at s i = Err (LabelError i)).
Proof.
  unfold df_col, reset_index, series_at. simpl. rewrite lookup_fmap.
  destruct (df_columns df !! name) as [col|]; [|done]. simpl.
  intros [= <-]. simpl. rewrite relabel_lookup. repeat split.
  - intros Hi. apply lookup_lt_is_Some in Hi as [l ->]. simpl. by eexists.
  - intros Hi. apply lookup_ge_None in Hi. by rewrite Hi.
Qed.

Lemma tensor_of_cell_error (c : Cell R) (e : error) (l : nat) :
  torch_tensor_float c = Err e -> e <> LabelError l.
Proof. destruct c; simpl; intros [= <-]; done. Qed.

End Labels.

(** X9. After [reset_index] the row labels are the positions: a dataset
    built from such a table never raises a label error for a position
    below its length, and raises one for every position from its length
    on, which no sampler draws. *)
Theorem reset_index_makes_positions_labels {R : Type} `{Scalar R}
    (df : DataFrame R) (tokenizer : Tokenizer R) (max_len : nat)
    (dataset : SentimentData R) (i : nat) :
  SentimentData_init (reset_index df) tokenizer max_len = Ok dataset ->
  (i < SentimentData_len dataset ->
   forall l, SentimentData_getitem dataset i <> Err (LabelError l)) /\
  (SentimentData_len dataset <= i ->
   SentimentData_getitem dataset i = Err (LabelError i)).
Proof.
  unfold SentimentData_init. intros E. rbind_inv E. injection E as <-.
  unfold SentimentData_len, SentimentData_getitem. simpl.
  destruct (reset_col_at _ _ _ i E0) as (-> & Hlt & Hge).
  rewrite length_seq. split.
  - intros Hi l.
    repeat match goal with
           | E : df_col (reset_index df) _ = Ok ?s |- _ =>
               let c := fresh "c" in
               let Ec := fresh "Ec" in
               destruct (reset_col_at _ _ _ i E) as (_ & Hs & _);
               destruct (Hs Hi) as [c Ec]; rewrite Ec; clear Hs E
           end.
    simpl.
    repeat match goal with
           | |- rbind (torch_tensor_float ?c) _ <> _ =>
               let Et := fresh "Et" in
               destruct (torch_tensor_float c) eqn:Et; simpl;
               [|intros [= ->]; by eapply tensor_of_cell_error]
           end.
    done.
  - intros Hi. by rewrite (Hge Hi).
Qed.



Lemma reset_index_makes_positions_labels_witness :
  (1 < SentimentData_len tiny_training_set ->
   forall l, SentimentData_getitem tiny_training_set 1 <> Err (LabelError l)) /\
  (SentimentData_len tiny_training_set <= 1 ->
   SentimentData_getitem tiny_training_set 1 = Err (LabelError 1)).
Proof.
  apply (reset_index_makes_positions_labels (df_sample (@rev nat) tiny_frame)
           demo_tokenizer 4 tiny_training_set 1).
  apply is_Ok_value. vm_compute. reflexivity.
Defined.

(** X11. Over one table, a sample of [SentimentData_test] is the sample
    [SentimentData] gives for the same position without its [targets]:
    the two classes read the same cells into the same keys. *)
Theorem test_sample_is_sample_without_targets {R : Type} `{Scalar R}
    (df : DataFrame R) (tokenizer : Tokenizer R) (max_len : nat)
    (dataset : SentimentData R) (test : SentimentData_test R) (i : nat)
    (d : gmap string (Tensor R)) :
  SentimentData_init df tokenizer max_len = Ok dataset ->
  SentimentData_test_init df tokenizer max_len = Ok test ->
  SentimentData_getitem dataset i = Ok d ->
  SentimentData_test_getitem test i = Ok (delete "targets" d).
Proof.
  unfold SentimentData_init, SentimentData_test_init. intros E1 E2.
  rbind_inv E1. injection E1 as <-.
  repeat match goal with
         | E : df_col df ?n = Ok _ |- _ => rewrite E in E2; clear E
         end.
  simpl in E2. injection E2 as <-.
  unfold SentimentData_getitem, SentimentData_test_getitem. simpl.
  intros E. rbind_inv E. injection E as <-.
  repeat match goal with
         | E : _ = Ok _ |- _ => rewrite E; clear E
         end.
  simpl. apply (f_equal Ok).
  rewrite !delete_insert_ne by (intros [=]).
  rewrite delete_insert_eq.
  rewrite !delete_insert_ne by (intros [=]).
  by rewrite delete_empty.
Qed.

Lemma test_sample_is_sample_without_targets_witness :
  SentimentData_test_getitem tiny_test 1 = Ok (delete "targets" tiny_row).
Proof.
  apply (test_sample_is_sample_without_targets tiny_frame demo_tokenizer 4
           tiny_set tiny_test 1 tiny_row);
    apply is_Ok_value; vm_compute; reflexivity.
Defined.

(** ** The shapes [forward] accepts *)

Section ShapeInversion.
Context {R : Type} `{Scalar R}.

Lemma shape2_along (B W : nat) (a b : Tensor2 R) :
  shape2 B W a -> Forall2 (fun r s => length r = length s) a b -> shape2 B W b.
Proof.
  intros [La Wa] F. split; [by rewrite <- (Forall2_length _ _ _ F)|].
  clear La. induction F as [|r s a b E F IH]; [constructor|].
  inversion Wa; subst. constructor; [congruence|by apply IH].
Qed.

Lemma zip_smax_widths (W : nat) (a b : Tensor2 R) :
  Forall2 (fun r s => length r = length s) a b ->
  Forall (fun r => length r = W) (zip_with (zip_with smax) a b) ->
  shape2 (length a) W a /\ shape2 (length a) W b.
Proof.
  intros F Wz.
  assert (shape2 (length a) W a) as Sa.
  { split; [done|]. induction F as [|r s a b E F IH]; [constructor|].
    simpl in Wz. apply Forall_cons in Wz as [Hr Wz'].
    rewrite length_zip_with in Hr. constructor; [lia|by apply IH]. }
  split; [done|]. by eapply shape2_along.
Qed.

Lemma pairwise_fusion_Ok2 (a b v : Tensor2 R) :
  pairwise_fusion a b = Ok v ->
  Forall2 (fun r s => length r = length s) a b /\
  v = zip_with (zip_with smax) a b.
Proof. intros E. by apply pairwise_fusion_Ok_rows in E as (F & _ & _ & ->). Qed.

Variable m : RobertaClass R.

Lemma total_partial {A} (c : M R A) (Q : A -> Prop) :
  total m c Q -> partial m c Q.
Proof.
  intros T w Hw. destruct (T w Hw) as (a & w' & E & Hm & Qa). rewrite E.
  split; [done|]. by intros a' [= <-].
Qed.

Lemma shaped_fusion {A} (a b : Tensor2 R) (k : Tensor2 R -> M R A)
      (Q : A -> Prop) :
  (forall v, Forall2 (fun r s => length r = length s) a b -> 0 < length a ->
             v = zip_with (zip_with smax) a b -> partial m (k v) Q) ->
  partial m (bind (lift (cat3 (unsqueeze1 a) (unsqueeze1 b)))
                  (fun x => bind (lift (rbind (MaxPool2d x) squeeze1)) k)) Q.
Proof.
  intros Hk w Hw. rewrite fusion_steps. unfold bind, lift.
  destruct (pairwise_fusion a b) as [v|] eqn:E; [|by split].
  apply pairwise_fusion_Ok_rows in E as (F & Na & _ & ->).
  assert (0 < length a) as La by (destruct a; [done|simpl; lia]).
  by apply Hk.
Qed.

Lemma shaped_stage {A} (layer : RobertaClass R -> Linear R) (x : Tensor2 R)
      (k : Tensor2 R -> M R A) (Q : A -> Prop) :
  (forall v, shape2 (length x) (out_features (layer m)) v ->
             Forall (fun r => length r = in_features (layer m)) x ->
             partial m (k v) Q) ->
  partial m (bind (self_call layer x)
                  (fun y => bind (self_dropout (Tanh y)) k)) Q.
Proof.
  intros Hk.
  eapply partial_bind; [apply partial_call|]. intros y [-> Wx]. simpl.
  assert (shape2 (length x) (out_features (layer m))
            (Tanh (map (linear_row (layer m)) x))) as Sy.
  { apply Tanh_shape. split; [by rewrite length_map|].
    apply Forall_map, Forall_forall. intros r _. apply linear_row_length. }
  eapply partial_bind; [apply total_partial, total_dropout, Sy|].
  intros v Sv. by apply Hk.
Qed.

Hypothesis arch : architecture m.
Variables (input_ids attention_mask token_type_ids : LongTensor2).
Variables (visual_feature char_density char_number parsing1 parsing2
           gcn_bert_base : Tensor2 R).
Context {P : Type}.
Variable pos_emb : P.
Variable visual : Tensor2 R.
Variable B : nat.
Hypothesis enc_ok : encodes m input_ids attention_mask token_type_ids B.

Lemma forward_branches_shapes :
  partial m (forward_branches input_ids attention_mask token_type_ids
               visual_feature char_density char_number parsing1 parsing2
               gcn_bert_base pos_emb visual)
          (fun '(pooler, visual', parsing, density) =>
             0 < B /\
             length pooler = B /\ shape2 B 768 gcn_bert_base /\
             length visual' = length visual /\
             shape2 (length visual) 2048 visual /\
             shape2 (length visual) 768 visual_feature /\
             length parsing = length parsing1 /\
             shape2 (length parsing1) 768 parsing1 /\
             shape2 (length parsing1) 768 parsing2 /\
             shape2 (length char_density) 768 char_density /\
             shape2 (length char_density) 768 char_number).
Proof.
  unfold forward_branches.
  eapply partial_bind; [apply total_partial, total_l1, enc_ok|].
  intros hs Shs. simpl.
  apply partial_bind with (P := shape2 B 768).
  { apply partial_lift. intros p0 E0.
    destruct (select_first_shape _ _ _ Shs) as (p & Ep & Sp). congruence. }
  intros p0 [L0 W0].
  apply shaped_stage. rewrite L0, (arch_pre_out m arch). intros p1 S1 _.
  apply shaped_fusion. intros o1 F1 N1 ->.
  rewrite (proj1 S1) in N1.
  pose proof (shape2_along _ _ _ _ S1 F1) as Sgcn.
  pose proof (zip_smax_shape _ _ _ _ S1 Sgcn) as [Lo1 _].
  apply shaped_stage. rewrite Lo1. intros pooler [Lp _] _.
  apply shaped_fusion. intros pa1 F2 _ ->.
  apply shaped_stage. rewrite (arch_h2_in m arch). intros parsing [Lpa _] Wpa.
  destruct (zip_smax_widths _ _ _ F2 Wpa) as [Sp1 Sp2].
  rewrite length_zip_with, <- (Forall2_length _ _ _ F2), Nat.min_id in Lpa.
  apply shaped_fusion. intros d1 F3 _ ->.
  apply shaped_stage. rewrite (arch_h3_in m arch). intros density _ Wd.
  destruct (zip_smax_widths _ _ _ F3 Wd) as [Scd Scn].
  apply shaped_stage. rewrite (arch_hidden1_in m arch), (arch_hidden1_out m arch).
  intros v1 Sv1 Wv.
  apply shaped_fusion. intros o2 F4 _ ->.
  pose proof (shape2_along _ _ _ _ Sv1 F4) as Svf.
  pose proof (zip_smax_shape _ _ _ _ Sv1 Svf) as [Lo2 _].
  apply shaped_stage. rewrite Lo2. intros visual' [Lv' _] _.
  apply partial_ret.
  exact (conj N1 (conj Lp (conj Sgcn (conj Lv' (conj (conj eq_refl Wv)
          (conj Svf (conj Lpa (conj Sp1 (conj Sp2 (conj Scd Scn)))))))))).
Qed.

Lemma forward_shapes :
  partial m (forward input_ids attention_mask token_type_ids
               visual_feature char_density char_number parsing1 parsing2
               gcn_bert_base pos_emb visual)
          (fun _ =>
             0 < B /\
             shape2 B 768 visual_feature /\ shape2 B 768 char_density /\
             shape2 B 768 char_number /\ shape2 B 768 parsing1 /\
             shape2 B 768 parsing2 /\ shape2 B 768 gcn_bert_base /\
             shape2 B 2048 visual).
Proof.
  unfold forward, forward_concat.
  eapply partial_bind.
  { eapply partial_bind; [apply forward_branches_shapes|].
    intros [[[pooler visual'] parsing] density]
           (HB & Lp & Sgcn & Lv & Sv & Svf & Lpa & Sp1 & Sp2 & Scd & Scn).
    apply partial_lift. intros x Ex.
    apply cat2_4_Ok in Ex as (E1 & E2 & E3 & _).
    assert (length visual = B) as Ev by congruence.
    assert (length parsing1 = B) as Ep by congruence.
    assert (length char_density = B) as Ec by congruence.
    rewrite Ev in Sv, Svf. rewrite Ep in Sp1, Sp2. rewrite Ec in Scd, Scn.
    exact (conj HB (conj Svf (conj Scd (conj Scn (conj Sp1 (conj Sp2
            (conj Sgcn Sv))))))). }
  intros x Hx. simpl.
  eapply partial_weaken; [apply forward_head_partial|]. by intros.
Qed.

End ShapeInversion.

(** X12. Given the layer sizes of the constructor and an encoder that
    returns a hidden state of shape (B, L, 768), [forward] returns a value
    exactly when the batch is not empty (0 < B), the five auxiliary
    features it uses and [gcn_bert_base] have shape (B, 768) and [visual]
    has shape (B, 2048); on every other input it raises: on an empty batch
    the first max-pool refuses its input. The shape of [pos_emb] does not
    matter. *)
Theorem forward_returns_iff {R : Type} `{Scalar R}
    (input_ids attention_mask token_type_ids : LongTensor2)
    (visual_feature char_density char_number parsing1 parsing2
     gcn_bert_base pos_emb visual : Tensor2 R) (w : World R) (B : nat) :
  architecture (model w) ->
  encodes (model w) input_ids attention_mask token_type_ids B ->
  (exists out,
     fst (forward input_ids attention_mask token_type_ids visual_feature
            char_density char_number parsing1 parsing2 gcn_bert_base
            pos_emb visual w) = Ok out) <->
  0 < B /\
  shape2 B 768 visual_feature /\ shape2 B 768 char_density /\
  shape2 B 768 char_number /\ shape2 B 768 parsing1 /\
  shape2 B 768 parsing2 /\ shape2 B 768 gcn_bert_base /\
  shape2 B 2048 visual.
Proof.
  intros arch enc. split.
  - intros [out E].
    destruct (forward_shapes (model w) arch input_ids attention_mask
                token_type_ids visual_feature char_density char_number
                parsing1 parsing2 gcn_bert_base pos_emb visual B enc w eq_refl)
      as [_ Hs].
    by apply (Hs out).
  - intros (HB & Svf & Scd & Scn & Sp1 & Sp2 & Sgcn & Sv).
    destruct (forward_total (model w) arch input_ids attention_mask
                token_type_ids visual_feature char_density char_number
                parsing1 parsing2 gcn_bert_base pos_emb visual B HB enc
                Svf Scd Scn Sp1 Sp2 Sgcn Sv w eq_refl)
      as (out & w' & E & _ & _).
    exists out. by rewrite E.
Qed.

Lemma forward_returns_iff_witness :
  (exists out,
     fst (forward demo_ids demo_mask demo_types
            (const_tensor 2 768 1) (const_tensor 2 768 5) (const_tensor 2 768 2)
            (const_tensor 2 768 3) (const_tensor 2 768 4) (const_tensor 2 768 6)
            (const_tensor 2 768 7) (const_tensor 2 2048 8) demo_world) = Ok out) <->
  0 < 2 /\
  shape2 2 768 (const_tensor 2 768 1) /\ shape2 2 768 (const_tensor 2 768 5) /\
  shape2 2 768 (const_tensor 2 768 2) /\ shape2 2 768 (const_tensor 2 768 3) /\
  shape2 2 768 (const_tensor 2 768 4) /\ shape2 2 768 (const_tensor 2 768 6) /\
  shape2 2 2048 (const_tensor 2 2048 8).
Proof.
  apply (forward_returns_iff demo_ids demo_mask demo_types
           (const_tensor 2 768 1) (const_tensor 2 768 5) (const_tensor 2 768 2)
           (const_tensor 2 768 3) (const_tensor 2 768 4) (const_tensor 2 768 6)
           (const_tensor 2 768 7) (const_tensor 2 2048 8) demo_world 2).
  - apply init_architecture.
  - apply demo_encodes.
Defined.

(** ** The evaluation loops *)

Section Loops.
Context {R : Type} `{Scalar R}.

Lemma bind_Ok {A B} (c : M R A) (k : A -> M R B) (w : World R) (b : B) :
  fst (bind c k w) = Ok b ->
  exists a, fst (c w) = Ok a /\ fst (k a (snd (c w))) = Ok b.
Proof.
  unfold bind. destruct (c w) as [[a|e] w1]; simpl; [|done]. by exists a.
Qed.

Lemma squeeze_single (t : Tensor2 R) :
  length t = 1 -> torch_max_dim1 (squeeze t) = Err (IndexError "dim").
Proof.
  destruct t as [|r [|r' t]]; try done. intros _.
  by destruct r as [|x [|y r]].
Qed.

Lemma squeeze_Float2 (t t' : Tensor2 R) : squeeze t = Float2 t' -> t' = t.
Proof.
  unfold squeeze. destruct t as [|r [|r' t]].
  - simpl. by intros [= <-].
  - by destruct r as [|x [|y r]].
  - destruct r as [|x [|y r]];
      match goal with
      | |- context [if ?b then _ else _] => destruct b
      end; try done; by intros [= <-].
Qed.

Lemma torch_max_squeeze (t : Tensor2 R) (idx : LongTensor1) :
  torch_max_dim1 (squeeze t) = Ok idx -> rmapM argmax t = Ok idx.
Proof.
  destruct (squeeze t) as [| | | | |t'] eqn:E; try done.
  apply squeeze_Float2 in E as ->. done.
Qed.

Lemma argmax_from_bound (r : list R) (best : R) (best_i i : nat) :
  best_i < i -> argmax_from best best_i i r < i + length r.
Proof.
  revert best best_i i. induction r as [|x r IH]; intros best best_i i Hi; simpl.
  - lia.
  - destruct (sisnan x); [lia|]. destruct (sltb best x).
    + specialize (IH x i (S i)). lia.
    + specialize (IH best best_i (S i)). lia.
Qed.

Lemma argmax_bound (r : list R) (z : Z) :
  argmax r = Ok z -> (0 <= z < Z.of_nat (length r))%Z.
Proof.
  destruct r as [|x r]; [done|]. simpl. intros [= <-].
  pose proof (argmax_from_bound r x 0 1). destruct (sisnan x); lia.
Qed.

Lemma argmax_rows (W : nat) (t : Tensor2 R) (idx : LongTensor1) :
  Forall (fun r => length r = W) t -> rmapM argmax t = Ok idx ->
  length idx = length t /\ Forall (fun z => (0 <= z < Z.of_nat W)%Z) idx.
Proof.
  intros Wt E. split; [by apply rmapM_length in E|].
  apply Forall_forall. intros z Hz. apply list_elem_of_In in Hz.
  destruct (rmapM_In_r _ _ _ _ E Hz) as (r & Hr & Er).
  rewrite Forall_forall in Wt. rewrite <- (Wt r) by by apply list_elem_of_In.
  by apply argmax_bound.
Qed.

Lemma model_call_shape (args : ModelArgs R) (w : World R) (out : Tensor2 R) :
  fst (model_call args w) = Ok out ->
  shape2 (length (arg_char_density args))
         (out_features (classifier (model w))) out.
Proof.
  unfold model_call. intros E.
  destruct (forward_partial (model w) (arg_input_ids args)
              (arg_attention_mask args) (arg_token_type_ids args)
              (arg_visual_feature args) (arg_char_density args)
              (arg_char_number args) (arg_parsing1 args) (arg_parsing2 args)
              (arg_gcn_bert_base args) (arg_pos_emb args) (arg_visual args)
              w eq_refl) as [_ P].
  by destruct (P out E).
Qed.

(** The examples of a batch, read off the field [char_density] as the
    loops bind it. *)
Lemma bound_rows (data : gmap string (Tensor R)) (cd : Tensor2 R) :
  rbind (field data "char_density") to_float2 = Ok cd ->
  batch_rows data = length cd.
Proof.
  unfold field, batch_rows.
  destruct (data !! "char_density") as [t|]; [|done]. simpl.
  destruct t; simpl; try done; intros [= <-]; by rewrite ?length_map.
Qed.

Lemma test_inputs_char_density (data : gmap string (Tensor R))
      (args : ModelArgs R) :
  test_inputs data = Ok args ->
  rbind (field data "char_density") to_float2 = Ok (arg_char_density args).
Proof. unfold test_inputs. intros E. rbind_inv E. by injection E as <-. Qed.

Variable loss_function : Tensor R -> LongTensor1 -> result R.

(** What a turn of the loop of [valid] that returns has done. *)
Lemma valid_batch_Ok (c c' : Counters R)
      (item : result (gmap string (Tensor R))) (w : World R) :
  fst (valid_batch loss_function c item w) = Ok c' ->
  exists data args targets out l idx correct,
    item = Ok data /\ valid_inputs data = Ok (args, targets) /\
    fst (model_call args w) = Ok out /\
    loss_function (squeeze out) targets = Ok l /\
    torch_max_dim1 (squeeze out) = Ok idx /\
    calcuate_accuracy idx targets = Ok correct /\
    c' = mkCounters (n_correct c + correct)%Z (sadd (tr_loss c) l)
           (nb_tr_steps c + 1)%Z
           (nb_tr_examples c + Z.of_nat (length targets))%Z
           (output_list c ++ idx).
Proof.
  unfold valid_batch, bind, lift, ret.
  destruct item as [data|]; simpl; [|done].
  destruct (valid_inputs data) as [[args targets]|] eqn:Ev; simpl; [|done].
  destruct (model_call args w) as [[out|] w1] eqn:Ef; simpl; [|done].
  destruct (loss_function (squeeze out) targets) as [l|] eqn:El; simpl; [|done].
  destruct (torch_max_dim1 (squeeze out)) as [idx|] eqn:Ei; simpl; [|done].
  destruct (calcuate_accuracy idx targets) as [correct|] eqn:Ec; simpl; [|done].
  intros [= <-]. exists data, args, targets, out, l, idx, correct.
  by rewrite Ef.
Qed.

(** A turn of the loop of [valid] that returns has run [forward] with the
    field [gcn_bert_large] of the batch for [gcn_bert_base]. *)
Lemma valid_batch_feeds_gcn_bert_large (c c' : Counters R)
      (data : gmap string (Tensor R)) (w : World R) :
  fst (valid_batch loss_function c (Ok data) w) = Ok c' ->
  exists args targets large out,
    valid_inputs data = Ok (args, targets) /\
    rbind (field data "gcn_bert_large") to_float2 = Ok large /\
    fst (forward (arg_input_ids args) (arg_attention_mask args)
           (arg_token_type_ids args) (arg_visual_feature args)
           (arg_char_density args) (arg_char_number args)
           (arg_parsing1 args) (arg_parsing2 args) large
           (arg_pos_emb args) (arg_visual args) w) = Ok out.
Proof.
  intros E.
  apply valid_batch_Ok in E
    as (d & args & targets & out & l & idx & correct & [= <-] & Ev & Ef & _).
  exists args, targets, (arg_gcn_bert_base args), out.
  split; [done|]. split; [|done].
  by apply valid_inputs_Ok in Ev as (_ & _ & _ & _ & _ & _ & _ & G & _).
Qed.

Lemma test_batch_Ok (output_list output_list' : list Z)
      (item : result (gmap string (Tensor R))) (w : World R) :
  fst (test_batch output_list item w) = Ok output_list' ->
  exists data args out idx,
    item = Ok data /\ test_inputs data = Ok args /\
    fst (model_call args w) = Ok out /\
    torch_max_dim1 (squeeze out) = Ok idx /\
    output_list' = output_list ++ idx.
Proof.
  unfold test_batch, bind, lift, ret.
  destruct item as [data|]; simpl; [|done].
  destruct (test_inputs data) as [args|] eqn:Ev; simpl; [|done].
  destruct (model_call args w) as [[out|] w1] eqn:Ef; simpl; [|done].
  destruct (torch_max_dim1 (squeeze out)) as [idx|] eqn:Ei; simpl; [|done].
  intros [= <-]. exists data, args, out, idx. by rewrite Ef.
Qed.

Lemma valid_batch_single (c c' : Counters R) (data : gmap string (Tensor R))
      (w : World R) :
  batch_rows data = 1 ->
  fst (valid_batch loss_function c (Ok data) w) <> Ok c'.
Proof.
  intros Hr E.
  apply valid_batch_Ok in E
    as (d & args & targets & out & l & idx & correct & [= <-] & Ev & Ef & _ & Ei & _).
  apply valid_inputs_Ok in Ev as (_ & _ & _ & _ & Ecd & _).
  apply bound_rows in Ecd. apply model_call_shape in Ef as [Lo _].
  rewrite squeeze_single in Ei by congruence. done.
Qed.

Lemma test_batch_single (ol ol' : list Z) (data : gmap string (Tensor R))
      (w : World R) :
  batch_rows data = 1 -> fst (test_batch ol (Ok data) w) <> Ok ol'.
Proof.
  intros Hr E.
  apply test_batch_Ok in E as (d & args & out & idx & [= <-] & Ev & Ef & Ei & _).
  apply test_inputs_char_density, bound_rows in Ev.
  apply model_call_shape in Ef as [Lo _].
  rewrite squeeze_single in Ei by congruence. done.
Qed.

Lemma valid_loop_each (loader : list (result (gmap string (Tensor R))))
      (c c' : Counters R) (w : World R) :
  fst (valid_loop loss_function c loader w) = Ok c' ->
  Forall (fun item => exists c0 c1 w0,
            fst (valid_batch loss_function c0 item w0) = Ok c1) loader.
Proof.
  revert c w. induction loader as [|item rest IH]; intros c w E; [constructor|].
  simpl in E. apply bind_Ok in E as (c1 & E1 & E2). constructor.
  - by exists c, c1, w.
  - by eapply IH.
Qed.

Lemma test_loop_each (loader : list (result (gmap string (Tensor R))))
      (ol ol' : list Z) (w : World R) :
  fst (test_loop ol loader w) = Ok ol' ->
  Forall (fun item => exists o0 o1 w0,
            fst (test_batch o0 item w0) = Ok o1) loader.
Proof.
  revert ol w. induction loader as [|item rest IH]; intros ol w E; [constructor|].
  simpl in E. apply bind_Ok in E as (o1 & E1 & E2). constructor.
  - by exists ol, o1, w.
  - by eapply IH.
Qed.

(** What [valid] has done when it returns. *)
Lemma valid_Ok (loader : list (result (gmap string (Tensor R))))
      (w : World R) (r : Ratio * list Z) :
  fst (valid loss_function loader w) = Ok r ->
  exists c,
    fst (valid_loop loss_function (mkCounters 0%Z szero 0%Z 0%Z []) loader
           (mkWorld (set_training false (model w)) (gen w))) = Ok c /\
    nb_tr_steps c <> 0%Z /\
    true_div (n_correct c * 100)%Z (nb_tr_examples c) = Ok (fst r) /\
    snd r = output_list c.
Proof.
  unfold valid. unfold bind at 1. simpl. intros E.
  apply bind_Ok in E as (c & Ec & E). exists c. split; [done|].
  apply bind_Ok in E as (l & El & E). apply bind_Ok in E as (q & Eq & E).
  unfold lift, ret in *. simpl in *. injection E as <-. simpl.
  destruct (nb_tr_steps c =? 0)%Z eqn:Es; [done|].
  apply Z.eqb_neq in Es. done.
Qed.

Lemma test_label_generator_Ok (loader : list (result (gmap string (Tensor R))))
      (w : World R) (preds : list Z) :
  fst (test_label_generator loader w) = Ok preds ->
  fst (test_loop [] loader
         (mkWorld (set_training false (model w)) (gen w))) = Ok preds.
Proof.
  unfold test_label_generator. unfold bind at 1. simpl. intros E.
  apply bind_Ok in E as (ol & Eo & E). unfold ret in E. simpl in E.
  by injection E as <-.
Qed.

End Loops.

(** X13. [valid] cannot evaluate a loader that holds a batch of a single
    example, as the last batch is when the number of rows is one more than
    a multiple of the batch size: [squeeze()] removes the batch dimension
    of the (1, 4) output, the maximum along dimension 1 is refused, and
    [valid] raises whatever the loss and the other batches are. *)
Theorem valid_raises_on_single_example_batch {R : Type} `{Scalar R}
    (loss_function : Tensor R -> LongTensor1 -> result R)
    (loader : list (result (gmap string (Tensor R))))
    (data : gmap string (Tensor R)) (w : World R) :
  In (Ok data) loader -> batch_rows data = 1 ->
  exists e, fst (valid loss_function loader w) = Err e.
Proof.
  intros Hin Hr.
  destruct (fst (valid loss_function loader w)) as [r|e] eqn:E; [|by exists e].
  apply valid_Ok in E as (c & Ec & _).
  apply valid_loop_each in Ec. rewrite Forall_forall in Ec.
  destruct (Ec (Ok data)) as (c0 & c1 & w0 & E0); [by apply list_elem_of_In|].
  by apply valid_batch_single in E0.
Qed.

Lemma valid_raises_on_single_example_batch_witness :
  exists e, fst (valid demo_loss [Ok demo_single_batch] demo_world) = Err e.
Proof.
  apply (valid_raises_on_single_example_batch demo_loss
           [Ok demo_single_batch] demo_single_batch demo_world).
  - by left.
  - vm_compute. reflexivity.
Defined.

(** X14. [test_label_generator] squeezes the output in the same way and
    raises on every loader that holds a batch of a single example. *)
Theorem test_label_generator_raises_on_single_example_batch
    {R : Type} `{Scalar R}
    (loader : list (result (gmap string (Tensor R))))
    (data : gmap string (Tensor R)) (w : World R) :
  In (Ok data) loader -> batch_rows data = 1 ->
  exists e, fst (test_label_generator loader w) = Err e.
Proof.
  intros Hin Hr.
  destruct (fst (test_label_generator loader w)) as [r|e] eqn:E; [|by exists e].
  apply test_label_generator_Ok, test_loop_each in E.
  rewrite Forall_forall in E.
  destruct (E (Ok data)) as (o0 & o1 & w0 & E0); [by apply list_elem_of_In|].
  by apply test_batch_single in E0.
Qed.

Lemma test_label_generator_raises_on_single_example_batch_witness :
  exists e, fst (test_label_generator [Ok demo_single_batch] demo_world) = Err e.
Proof.
  apply (test_label_generator_raises_on_single_example_batch
           [Ok demo_single_batch] demo_single_batch demo_world).
  - by left.
  - vm_compute. reflexivity.
Defined.

Section LoopResults.
Context {R : Type} `{Scalar R}.

Lemma architecture_set_training (m : RobertaClass R) (b : bool) :
  architecture m -> architecture (set_training b m).
Proof. intros []. by split. Qed.

(** The predictions of a batch: one class index per example. *)
Lemma batch_predictions (args : ModelArgs R) (w : World R) (out : Tensor2 R)
      (idx : LongTensor1) :
  architecture (model w) ->
  fst (model_call args w) = Ok out ->
  torch_max_dim1 (squeeze out) = Ok idx ->
  length idx = length out /\
  length out = length (arg_char_density args) /\
  Forall (fun z => (0 <= z < 4)%Z) idx.
Proof.
  intros arch Ef Ei. apply model_call_shape in Ef as [Lo Wo].
  rewrite (arch_classifier_out _ arch) in Wo.
  apply torch_max_squeeze in Ei.
  destruct (argmax_rows 4 _ _ Wo Ei) as [Li Fi]. done.
Qed.

Variable loss_function : Tensor R -> LongTensor1 -> result R.
Hypothesis loss_checks : checks_batch_size loss_function.

Lemma valid_batch_counted (c c' : Counters R)
      (item : result (gmap string (Tensor R))) (w : World R) :
  architecture (model w) -> counted c ->
  fst (valid_batch loss_function c item w) = Ok c' -> counted c'.
Proof.
  intros arch (Ce & Cn & Cf) E.
  apply valid_batch_Ok in E
    as (data & args & targets & out & l & idx & correct & _ & _ & Ef & El & Ei & Ec & ->).
  destruct (batch_predictions _ _ _ _ arch Ef Ei) as (Li & _ & Fi).
  assert (squeeze out = Float2 out) as Es.
  { destruct (squeeze out) as [| | | | |t'] eqn:Es; try done.
    by apply squeeze_Float2 in Es as ->. }
  rewrite Es in El. apply loss_checks in El.
  apply calcuate_accuracy_bounds in Ec.
  unfold counted. simpl. rewrite length_app. repeat split.
  - lia.
  - lia.
  - lia.
  - by apply Forall_app.
Qed.

Lemma valid_loop_counted (loader : list (result (gmap string (Tensor R))))
      (c c' : Counters R) (w : World R) :
  architecture (model w) -> counted c ->
  fst (valid_loop loss_function c loader w) = Ok c' -> counted c'.
Proof.
  revert c w. induction loader as [|item rest IH]; intros c w arch Cc E.
  - simpl in E. by injection E as <-.
  - simpl in E. apply bind_Ok in E as (c1 & E1 & E2).
    apply (IH c1 (snd (valid_batch loss_function c item w))); [| |done].
    + by rewrite (proj1 (valid_batch_partial loss_function (model w) c item
                           w eq_refl)).
    + by eapply valid_batch_counted.
Qed.

End LoopResults.

(** X15. With a loss that refuses logits and targets of different batch
    sizes, what [valid] returns is consistent: the accuracy is the quotient
    of 100 times a count of correct predictions by the number of examples,
    which is positive and is the number of predictions in the returned
    list, the count is at most the number of examples, and every
    prediction is one of the class indices 0, 1, 2, 3. *)
Theorem valid_result_is_consistent {R : Type} `{Scalar R}
    (loss_function : Tensor R -> LongTensor1 -> result R)
    (loader : list (result (gmap string (Tensor R)))) (w : World R)
    (epoch_accu : Ratio) (predictions : list Z) :
  architecture (model w) -> checks_batch_size loss_function ->
  fst (valid loss_function loader w) = Ok (epoch_accu, predictions) ->
  den epoch_accu = Z.of_nat (length predictions) /\
  (0 < den epoch_accu)%Z /\
  (0 <= num epoch_accu <= 100 * den epoch_accu)%Z /\
  Forall (fun z => (0 <= z < 4)%Z) predictions.
Proof.
  intros arch Hl E. apply valid_Ok in E as (c & Ec & _ & Ed & Ep).
  simpl in Ed, Ep. subst predictions.
  apply (valid_loop_counted loss_function Hl) in Ec as (Ce & Cn & Cf).
  - unfold true_div in Ed.
    destruct (nb_tr_examples c =? 0)%Z eqn:Ez; [done|].
    apply Z.eqb_neq in Ez. injection Ed as <-. simpl.
    repeat split; try done; lia.
  - by apply architecture_set_training.
  - repeat split; simpl; try done; lia.
Qed.

Section OneBatch.
Context {R : Type} `{Scalar R}.

(** [valid] on a loader of one batch, step by step. *)
Lemma valid_one_batch (loss_function : Tensor R -> LongTensor1 -> result R)
      (data : gmap string (Tensor R)) (args : ModelArgs R)
      (targets idx : LongTensor1) (out : Tensor2 R) (l : R) (n : Z)
      (w : World R) :
  valid_inputs data = Ok (args, targets) ->
  model_call args (mkWorld (set_training false (model w)) (gen w))
  = (Ok out, mkWorld (set_training false (model w)) (gen w)) ->
  loss_function (squeeze out) targets = Ok l ->
  torch_max_dim1 (squeeze out) = Ok idx ->
  calcuate_accuracy idx targets = Ok n ->
  length targets <> 0 ->
  fst (valid loss_function [Ok data] w)
  = Ok (mkRatio (n * 100) (Z.of_nat (length targets)), idx).
Proof.
  intros Ev Ef El Ei Ec Hn. unfold valid. unfold bind at 1. simpl.
  unfold valid_batch, bind, lift, ret. simpl.
  rewrite Ev. simpl. rewrite Ef. simpl. rewrite El. simpl.
  rewrite Ei. simpl. rewrite Ec. simpl.
  unfold true_div. simpl.
  rewrite !Z.add_0_l.
  destruct (Z.of_nat (length targets) =? 0)%Z eqn:Ez; [lia|]. done.
Qed.

(** [test_label_generator] on a loader of one batch. *)
Lemma test_one_batch (data : gmap string (Tensor R)) (args : ModelArgs R)
      (idx : LongTensor1) (out : Tensor2 R) (w : World R) :
  test_inputs data = Ok args ->
  model_call args (mkWorld (set_training false (model w)) (gen w))
  = (Ok out, mkWorld (set_training false (model w)) (gen w)) ->
  torch_max_dim1 (squeeze out) = Ok idx ->
  fst (test_label_generator [Ok data] w) = Ok idx.
Proof.
  intros Ev Ef Ei. unfold test_label_generator. unfold bind at 1. simpl.
  unfold test_batch, bind, lift, ret. simpl.
  rewrite Ev. simpl. rewrite Ef. simpl. by rewrite Ei.
Qed.

End OneBatch.

Lemma demo_loss_checks : checks_batch_size demo_loss.
Proof.
  intros t targets x. unfold demo_loss.
  destruct (length t =? length targets) eqn:E; [|done].
  by apply Nat.eqb_eq in E.
Qed.

(** [forward] does not read [pos_emb], of whatever type it is. *)
Lemma forward_pos_emb_of_any_type {R : Type} `{Scalar R} {P P' : Type}
      (input_ids attention_mask token_type_ids : LongTensor2)
      (visual_feature char_density char_number parsing1 parsing2
       gcn_bert_base : Tensor2 R) (pos_emb : P) (pos_emb' : P')
      (visual : Tensor2 R) :
  forward input_ids attention_mask token_type_ids visual_feature char_density
          char_number parsing1 parsing2 gcn_bert_base pos_emb visual
  = forward input_ids attention_mask token_type_ids visual_feature
            char_density char_number parsing1 parsing2 gcn_bert_base pos_emb'
            visual.
Proof. reflexivity. Qed.

Lemma demo_model_call :
  model_call (demo_args 2048)
    (mkWorld (set_training false (model demo_world)) (gen demo_world))
  = (Ok (const_tensor 2 4 0),
     mkWorld (set_training false (model demo_world)) (gen demo_world)).
Proof.
  unfold model_call.
  rewrite (forward_pos_emb_of_any_type _ _ _ _ _ _ _ _ _
             (arg_pos_emb (demo_args 2048)) (const_tensor 2 768 7)).
  exact (demo_forward_run demo_world eq_refl).
Qed.

Lemma demo_valid_run :
  fst (valid demo_loss [Ok demo_valid_batch] demo_world)
  = Ok (mkRatio 100 2, [0; 0]%Z).
Proof.
  apply (valid_one_batch demo_loss demo_valid_batch (demo_args 2048)
           [0; 1]%Z [0; 0]%Z (const_tensor 2 4 0) 0%Z 1%Z demo_world).
  - vm_compute. reflexivity.
  - apply demo_model_call.
  - reflexivity.
  - reflexivity.
  - reflexivity.
  - done.
Qed.

Lemma valid_result_is_consistent_witness :
  den (mkRatio 100 2) = Z.of_nat (length [0; 0]%Z) /\
  (0 < den (mkRatio 100 2))%Z /\
  (0 <= num (mkRatio 100 2) <= 100 * den (mkRatio 100 2))%Z /\
  Forall (fun z => (0 <= z < 4)%Z) [0; 0]%Z.
Proof.
  apply (valid_result_is_consistent demo_loss [Ok demo_valid_batch] demo_world
           (mkRatio 100 2) [0; 0]%Z).
  - apply init_architecture.
  - apply demo_loss_checks.
  - apply demo_valid_run.
Defined.

Section LabelGenerator.
Context {R : Type} `{Scalar R}.

Lemma test_batch_partial (m : RobertaClass R) (ol : list Z)
      (item : result (gmap string (Tensor R))) :
  partial m (test_batch ol item) (fun _ => True).
Proof.
  unfold test_batch.
  apply partial_bind with (P := fun _ => True); [by apply partial_lift|].
  intros data _.
  apply partial_bind with (P := fun _ => True); [by apply partial_lift|].
  intros args _.
  apply partial_bind with (P := fun _ => True); [apply model_call_partial|].
  intros outputs _. cbv zeta.
  apply partial_bind with (P := fun _ => True); [by apply partial_lift|].
  intros big_idx _. by apply partial_ret.
Qed.

Lemma test_loop_partial (m : RobertaClass R)
      (loader : list (result (gmap string (Tensor R)))) (ol : list Z) :
  partial m (test_loop ol loader) (fun _ => True).
Proof.
  revert ol. induction loader as [|item rest IH]; intros ol; simpl.
  - by apply partial_ret.
  - apply partial_bind with (P := fun _ => True); [apply test_batch_partial|].
    intros ol' _. apply IH.
Qed.

Lemma test_label_generator_model
      (loader : list (result (gmap string (Tensor R)))) (w : World R) :
  model (snd (test_label_generator loader w)) = set_training false (model w).
Proof.
  unfold test_label_generator. unfold bind at 1. simpl.
  assert (partial (set_training false (model w))
            (bind (test_loop [] loader) (fun output_list => ret output_list))
            (fun _ => True)) as P.
  { apply partial_bind with (P := fun _ => True); [apply test_loop_partial|].
    intros ol _. by apply partial_ret. }
  apply (P (mkWorld (set_training false (model w)) (gen w)) eq_refl).
Qed.

Lemma test_loop_predictions (loader : list (result (gmap string (Tensor R))))
      (ol ol' : list Z) (w : World R) :
  architecture (model w) ->
  fst (test_loop ol loader w) = Ok ol' ->
  exists new, ol' = ol ++ new /\ length new = loader_examples loader /\
              Forall (fun z => (0 <= z < 4)%Z) new.
Proof.
  revert ol w. induction loader as [|item rest IH]; intros ol w arch E.
  - simpl in E. injection E as <-. exists []. by rewrite app_nil_r.
  - simpl in E. apply bind_Ok in E as (o1 & E1 & E2).
    apply IH in E2 as (new & -> & Ln & Fn).
    2:{ by rewrite (proj1 (test_batch_partial (model w) ol item w eq_refl)). }
    apply test_batch_Ok in E1 as (data & args & out & idx & -> & Ev & Ef & Ei & ->).
    destruct (batch_predictions _ _ _ _ arch Ef Ei) as (Li & Lo & Fi).
    apply test_inputs_char_density, bound_rows in Ev.
    exists (idx ++ new). rewrite <- app_assoc. split; [done|]. split.
    + unfold loader_examples in *. simpl. rewrite length_app. lia.
    + by apply Forall_app.
Qed.

End LabelGenerator.

(** X16. When [test_label_generator] returns, it returns one prediction
    for every example of the batches of the loader, in the order of the
    loader, and every prediction is one of the class indices 0, 1, 2, 3. *)
Theorem test_label_generator_predictions {R : Type} `{Scalar R}
    (loader : list (result (gmap string (Tensor R)))) (w : World R)
    (predictions : list Z) :
  architecture (model w) ->
  fst (test_label_generator loader w) = Ok predictions ->
  length predictions = loader_examples loader /\
  Forall (fun z => (0 <= z < 4)%Z) predictions.
Proof.
  intros arch E. apply test_label_generator_Ok in E.
  apply test_loop_predictions in E as (new & -> & Ln & Fn).
  - done.
  - by apply architecture_set_training.
Qed.

Lemma demo_test_run :
  fst (test_label_generator [Ok demo_wide_batch] demo_world) = Ok [0; 0]%Z.
Proof.
  apply (test_one_batch demo_wide_batch (demo_args 2048) [0; 0]%Z
           (const_tensor 2 4 0) demo_world).
  - vm_compute. reflexivity.
  - apply demo_model_call.
  - reflexivity.
Qed.

Lemma test_label_generator_predictions_witness :
  length [0; 0]%Z = loader_examples [Ok demo_wide_batch] /\
  Forall (fun z => (0 <= z < 4)%Z) [0; 0]%Z.
Proof.
  apply (test_label_generator_predictions [Ok demo_wide_batch] demo_world
           [0; 0]%Z).
  - apply init_architecture.
  - apply demo_test_run.
Defined.

(** X17. [test_label_generator] leaves every parameter of the module as
    it found it and leaves the module in evaluation mode, whether it
    returns or raises; [valid] leaves the module in evaluation mode too.
    Neither switches back to training mode. *)
Theorem evaluation_leaves_the_module_in_eval_mode {R : Type} `{Scalar R}
    (loss_function : Tensor R -> LongTensor1 -> result R)
    (loader : list (result (gmap string (Tensor R)))) (w : World R) :
  parameters (model (snd (test_label_generator loader w)))
  = parameters (model w) /\
  training (model (snd (test_label_generator loader w))) = false /\
  training (model (snd (valid loss_function loader w))) = false.
Proof.
  rewrite test_label_generator_model, valid_model. done.
Qed.

(** ** The data preparation cells *)

Section Frames.
Context {R : Type} `{Scalar R}.

Lemma df_select_Ok (df : DataFrame R) (names : list string) :
  Forall (fun n => is_Some (df_columns df !! n)) names ->
  exists df', df_select df names = Ok df'.
Proof.
  intros F. unfold df_select.
  assert (exists cols,
            rmapM (fun name => match df_columns df !! name with
                               | Some c => Ok (name, c)
                               | None => Err (KeyError name)
                               end) names = Ok cols) as [cols ->].
  { induction F as [|n names [c Hc] F [cols IH]]; [by eexists|].
    simpl. rewrite Hc, IH. simpl. by eexists. }
  simpl. by eexists.
Qed.

Lemma df_select_present (df df' : DataFrame R) (names : list string) :
  df_select df names = Ok df' ->
  Forall (fun n => is_Some (df_columns df !! n)) names.
Proof.
  unfold df_select. intros E. rbind_inv E. clear E.
  apply Forall_forall. intros n Hn. apply list_elem_of_In in Hn.
  destruct (rmapM_In_l _ _ _ _ E0 Hn) as (b & _ & Eb).
  by destruct (df_columns df !! n).
Qed.

Lemma df_select_absent (df df' : DataFrame R) (names : list string)
      (name : string) :
  df_select df names = Ok df' -> ~ In name names ->
  df_columns df' !! name = None.
Proof.
  unfold df_select. intros E Hn. rbind_inv E. injection E as <-. simpl.
  apply not_elem_of_list_to_map_1. intros Hin. apply Hn.
  apply rmapM_fst in E0.
  - change (name ∈ map fst x) in Hin. rewrite E0 in Hin.
    by apply list_elem_of_In.
  - intros a b Ea. destruct (df_columns df !! a); [|done].
    by injection Ea as <-.
Qed.

Lemma df_set_present (df : DataFrame R) (s : Series R) (name n : string) :
  is_Some (df_columns (df_set df name s) !! n) <->
  n = name \/ is_Some (df_columns df !! n).
Proof.
  unfold df_set. simpl. destruct (decide (name = n)) as [->|Hne].
  - rewrite lookup_insert_eq. split; [by left|by eexists].
  - rewrite lookup_insert_ne by done. split; [by right|].
    by intros [->|?].
Qed.

End Frames.

(** X18. The preparation cells return the two tables exactly when both
    visual tables have a column [visual_embedding] and the training and
    the testing table have every other selected column; a column
    [visual_embedding] of their own is not needed, and one that is there
    is overwritten. In every other case the cells raise. *)
Theorem prepare_frames_returns_iff {R : Type} `{Scalar R} (files : Pickles R) :
  (exists frames, prepare_frames files = Ok frames) <->
  is_Some (df_columns (visual_test_pkl files) !! "visual_embedding") /\
  is_Some (df_columns (visual_train_pkl files) !! "visual_embedding") /\
  Forall (fun n => n = "visual_embedding" \/
                   (is_Some (df_columns (training_dataset_pkl files) !! n) /\
                    is_Some (df_columns (testing_dataset_pkl files) !! n)))
    selected_columns.
Proof.
  unfold prepare_frames. cbv zeta. unfold df_col. split.
  - intros [frames E]. rbind_inv E.
    destruct (df_columns (visual_test_pkl files) !! "visual_embedding")
      as [test_col|]; [|done].
    destruct (df_columns (visual_train_pkl files) !! "visual_embedding")
      as [train_col|]; [|done].
    split; [by eexists|]. split; [by eexists|].
    apply df_select_present in E2, E3.
    rewrite Forall_forall in E2, E3. apply Forall_forall. intros n Hn.
    specialize (E2 n Hn). specialize (E3 n Hn).
    apply df_set_present in E2, E3. tauto.
  - intros ([test_col ->] & [train_col ->] & F). simpl.
    rewrite Forall_forall in F.
    destruct (df_select_Ok
                (df_set (training_dataset_pkl files) "visual_embedding"
                   (mkSeries (df_index (visual_test_pkl files)) test_col))
                selected_columns) as [new_df ->].
    { apply Forall_forall. intros n Hn. apply df_set_present.
      specialize (F n Hn). tauto. }
    destruct (df_select_Ok
                (df_set (testing_dataset_pkl files) "visual_embedding"
                   (mkSeries (df_index (visual_train_pkl files)) train_col))
                selected_columns) as [new_df_test ->].
    { apply Forall_forall. intros n Hn. apply df_set_present.
      specialize (F n Hn). tauto. }
    simpl. by eexists.
Qed.

(** X19. The tables the preparation cells return keep the row labels of
    the training and of the testing table, hold every selected column but
    [visual_embedding] exactly as the table has it, and hold no column
    that is not selected. *)
Theorem prepare_frames_keeps_the_other_columns {R : Type} `{Scalar R}
    (files : Pickles R) (new_df new_df_test : DataFrame R) :
  prepare_frames files = Ok (new_df, new_df_test) ->
  df_index new_df = df_index (training_dataset_pkl files) /\
  df_index new_df_test = df_index (testing_dataset_pkl files) /\
  (forall n, In n selected_columns -> n <> "visual_embedding" ->
     df_columns new_df !! n = df_columns (training_dataset_pkl files) !! n /\
     df_columns new_df_test !! n
     = df_columns (testing_dataset_pkl files) !! n) /\
  (forall n, ~ In n selected_columns ->
     df_columns new_df !! n = None /\ df_columns new_df_test !! n = None).
Proof.
  unfold prepare_frames. cbv zeta. intros E. rbind_inv E.
  injection E as <- <-.
  pose proof (df_select_lookup _ _ _ "text" E2) as [I1 _];
    [unfold selected_columns; simpl; tauto|].
  pose proof (df_select_lookup _ _ _ "text" E3) as [I2 _];
    [unfold selected_columns; simpl; tauto|].
  repeat split; try done.
  - destruct (df_select_lookup _ _ _ n E2) as [_ ->]; [done|].
    simpl. by rewrite lookup_insert_ne.
  - destruct (df_select_lookup _ _ _ n E3) as [_ ->]; [done|].
    simpl. by rewrite lookup_insert_ne.
  - by eapply df_select_absent.
  - by eapply df_select_absent.
Qed.

Lemma prepare_frames_keeps_the_other_columns_witness :
  df_index (fst demo_frames) = df_index (training_dataset_pkl demo_files) /\
  df_index (snd demo_frames) = df_index (testing_dataset_pkl demo_files) /\
  (forall n, In n selected_columns -> n <> "visual_embedding" ->
     df_columns (fst demo_frames) !! n
     = df_columns (training_dataset_pkl demo_files) !! n /\
     df_columns (snd demo_frames) !! n
     = df_columns (testing_dataset_pkl demo_files) !! n) /\
  (forall n, ~ In n selected_columns ->
     df_columns (fst demo_frames) !! n = None /\
     df_columns (snd demo_frames) !! n = None).
Proof.
  apply (prepare_frames_keeps_the_other_columns demo_files).
  rewrite <- surjective_pairing. apply is_Ok_value. vm_compute. reflexivity.
Defined.

(** ** What [forward] does not read *)

Section Simulation.
Context {R : Type} `{Scalar R}.

Lemma same_shape_sym (a b : Tensor2 R) : same_shape a b -> same_shape b a.
Proof. unfold same_shape. induction 1; by constructor. Qed.

Lemma same_shape_trans (a b c : Tensor2 R) :
  same_shape a b -> same_shape b c -> same_shape a c.
Proof.
  unfold same_shape. intros F. revert c.
  induction F as [|r s a b E F IH]; intros c G; inversion G; subst;
    constructor; [congruence|by apply IH].
Qed.

Lemma zip_smax_same_shape (a b b' : Tensor2 R) :
  same_shape a b -> same_shape a b' ->
  same_shape (zip_with (zip_with smax) a b) (zip_with (zip_with smax) a b').
Proof.
  unfold same_shape. intros F. revert b'.
  induction F as [|r s a b E F IH]; intros b' G; inversion G; subst; simpl;
    constructor; [rewrite !length_zip_with; lia|by apply IH].
Qed.

(** The two checks of a fusion read the shapes alone. *)
Lemma fusion_checks_same_shape (a b b' : Tensor2 R) :
  same_shape b b' ->
  (length a =? length b) && forallb uniform_width (stack a b)
  = (length a =? length b') && forallb uniform_width (stack a b') /\
  pool_check (stack a b) = pool_check (stack a b').
Proof.
  intros Sb. split.
  - apply Bool.eq_iff_eq_true. rewrite !cat_check_rows. split; intros F.
    + by apply (same_shape_trans a b b').
    + apply (same_shape_trans a b' b); [done|by apply same_shape_sym].
  - unfold pool_check, stack. rewrite !length_zip_with.
    rewrite (Forall2_length _ _ _ Sb). f_equal.
    revert a. induction Sb as [|s s' b b' E Sb IH]; intros [|r a]; try done.
    cbn [zip_with forallb length]. by rewrite IH, E.
Qed.

Lemma width_check_same_shape (n : nat) (x x' : Tensor2 R) :
  same_shape x x' ->
  forallb (fun r => length r =? n) x = forallb (fun r => length r =? n) x'.
Proof. induction 1 as [|r s x x' E F IH]; simpl; [done|]. by rewrite E, IH. Qed.

Lemma linear_rows_same_shape (l : Linear R) (x x' : Tensor2 R) :
  same_shape x x' ->
  same_shape (Tanh (map (linear_row l) x)) (Tanh (map (linear_row l) x')).
Proof.
  unfold same_shape, Tanh. induction 1 as [|r s x x' E F IH]; simpl;
    constructor; [|done]. by rewrite !length_map, !linear_row_length.
Qed.

Lemma drop_rows_same_shape (d : nat -> bool) (c : nat) (y y' : Tensor2 R) :
  same_shape y y' ->
  snd (drop_rows d c y) = snd (drop_rows d c y') /\
  same_shape (fst (drop_rows d c y)) (fst (drop_rows d c y')).
Proof.
  intros F. revert c. induction F as [|r s y y' E F IH]; intros c; simpl.
  - split; [done|constructor].
  - rewrite E. specialize (IH (c + length s)).
    destruct (drop_rows d (c + length s) y) as [u c1].
    destruct (drop_rows d (c + length s) y') as [u' c1']. simpl in *.
    destruct IH as [-> Su]. split; [done|].
    constructor; [|done]. by rewrite !drop_row_length.
Qed.

Variable m : RobertaClass R.

Lemma sim_bind {A B} (Rel : A -> A -> Prop) (Rel' : B -> B -> Prop)
      (c c' : M R A) (k k' : A -> M R B) :
  simulates m Rel c c' ->
  (forall a a', Rel a a' -> simulates m Rel' (k a) (k' a')) ->
  simulates m Rel' (bind c k) (bind c' k').
Proof.
  intros Hc Hk w Hw. unfold bind. destruct (Hc w Hw) as (Es & Hm & Hr).
  destruct (c w) as [[a|e] w1], (c' w) as [[a'|e'] w1']; simpl in *;
    try done.
  subst w1'. by apply Hk.
Qed.

Lemma sim_same {A B} (P : A -> Prop) (Rel : B -> B -> Prop)
      (c : M R A) (k k' : A -> M R B) :
  partial m c P ->
  (forall a, simulates m Rel (k a) (k' a)) ->
  simulates m Rel (bind c k) (bind c k').
Proof.
  intros Hc Hk w Hw. unfold bind. destruct (Hc w Hw) as [Hm _].
  destruct (c w) as [[a|e] w1]; simpl in *; [by apply Hk|done].
Qed.

Lemma sim_refl {A} (P : A -> Prop) (c : M R A) :
  partial m c P -> simulates m eq c c.
Proof.
  intros Hc w Hw. destruct (Hc w Hw) as [Hm _]. split; [done|].
  split; [done|]. by destruct (fst (c w)).
Qed.

Lemma sim_ret {A} (Rel : A -> A -> Prop) (a a' : A) :
  Rel a a' -> simulates m Rel (ret a) (ret a').
Proof. by intros Ha w Hw. Qed.

Lemma sim_fusion {A} (Rel : A -> A -> Prop) (a b b' : Tensor2 R)
      (k k' : Tensor2 R -> M R A) :
  same_shape b b' ->
  (forall v v', same_shape v v' -> simulates m Rel (k v) (k' v')) ->
  simulates m Rel
    (bind (lift (cat3 (unsqueeze1 a) (unsqueeze1 b)))
          (fun x => bind (lift (rbind (MaxPool2d x) squeeze1)) k))
    (bind (lift (cat3 (unsqueeze1 a) (unsqueeze1 b')))
          (fun x => bind (lift (rbind (MaxPool2d x) squeeze1)) k')).
Proof.
  intros Sb Hk w Hw. rewrite !fusion_steps. unfold bind, lift.
  rewrite !pairwise_fusion_checks.
  destruct (fusion_checks_same_shape a b b' Sb) as [<- <-].
  destruct (_ && _) eqn:C; [|done].
  destruct (pool_check (stack a b)); [|done].
  apply Hk; [|done]. apply cat_check_rows in C.
  apply zip_smax_same_shape; [done|]. by apply (same_shape_trans a b b').
Qed.

Lemma sim_call (layer : RobertaClass R -> Linear R) (x x' : Tensor2 R) :
  same_shape x x' ->
  simulates m (fun y y' => same_shape (Tanh y) (Tanh y'))
    (self_call layer x) (self_call layer x').
Proof.
  intros Sx w Hw. unfold self_call, Linear_forward. simpl.
  rewrite (width_check_same_shape _ _ _ Sx).
  destruct (forallb _ x'); [|done].
  split; [done|]. split; [done|]. by apply linear_rows_same_shape.
Qed.

Lemma sim_dropout (u u' : Tensor2 R) :
  same_shape u u' ->
  simulates m same_shape (self_dropout u) (self_dropout u').
Proof.
  intros Su w Hw. unfold self_dropout. destruct (training (model w)); [|done].
  destruct (drop_rows_same_shape (draws (gen w)) (cursor (gen w)) _ _ Su)
    as [Ec Sd].
  destruct (drop_rows _ _ u) as [y c1]. destruct (drop_rows _ _ u') as [y' c1'].
  simpl in *. by subst c1'.
Qed.

Lemma sim_stage {A} (Rel : A -> A -> Prop)
      (layer : RobertaClass R -> Linear R) (x x' : Tensor2 R)
      (k k' : Tensor2 R -> M R A) :
  same_shape x x' ->
  (forall v v', same_shape v v' -> simulates m Rel (k v) (k' v')) ->
  simulates m Rel
    (bind (self_call layer x) (fun y => bind (self_dropout (Tanh y)) k))
    (bind (self_call layer x') (fun y => bind (self_dropout (Tanh y)) k')).
Proof.
  intros Sx Hk.
  eapply sim_bind; [by apply sim_call|]. intros y y' Sy. simpl in Sy.
  eapply sim_bind; [by apply sim_dropout|]. done.
Qed.

End Simulation.

Ltac same_step m :=
  eapply (sim_same m);
  [first [apply partial_l1 | apply partial_call | apply partial_dropout
         | apply (partial_lift m _ (fun _ => True)); done]
  |intros ?; cbv beta zeta].

(** X20. The outcome of [forward] and the world it leaves do not depend
    on the values of [char_number]: two calls from the same world that
    differ only in [char_number], with tensors of the same shape, return
    the same logits or raise the same error, in training mode as in
    evaluation mode. The branch that fuses [char_density] with
    [char_number] is computed and dropped. *)
Theorem forward_ignores_the_values_of_char_number {R : Type} `{Scalar R}
    (input_ids attention_mask token_type_ids : LongTensor2)
    (visual_feature char_density char_number char_number' parsing1 parsing2
     gcn_bert_base pos_emb visual : Tensor2 R) (w : World R) :
  same_shape char_number char_number' ->
  forward input_ids attention_mask token_type_ids visual_feature char_density
          char_number parsing1 parsing2 gcn_bert_base pos_emb visual w
  = forward input_ids attention_mask token_type_ids visual_feature char_density
            char_number' parsing1 parsing2 gcn_bert_base pos_emb visual w.
Proof.
  intros Sc.
  assert (simulates (model w) eq
            (forward input_ids attention_mask token_type_ids visual_feature
               char_density char_number parsing1 parsing2 gcn_bert_base
               pos_emb visual)
            (forward input_ids attention_mask token_type_ids visual_feature
               char_density char_number' parsing1 parsing2 gcn_bert_base
               pos_emb visual)) as S.
  { unfold forward.
    apply sim_bind with (Rel := eq);
      [|intros x ? <-; eapply sim_refl, forward_head_partial].
    unfold forward_concat.
    apply sim_bind
      with (Rel := fun a a' : Tensor2 R * Tensor2 R * Tensor2 R * Tensor2 R =>
                     fst a = fst a').
    2:{ intros [[[p v] pa] d] [[[p' v'] pa'] d'] [= -> -> ->].
        eapply sim_refl, (partial_lift _ _ (fun _ => True)). done. }
    unfold forward_branches.
    do 12 same_step (model w).
    apply sim_fusion; [done|]. intros d1 d1' Sd1.
    apply sim_stage; [done|]. intros density density' Sd.
    do 6 same_step (model w).
    by apply sim_ret. }
  destruct (S w eq_refl) as (Es & _ & Er).
  destruct (forward _ _ _ _ _ char_number _ _ _ _ _ w) as [[a|e] w1],
           (forward _ _ _ _ _ char_number' _ _ _ _ _ w) as [[a'|e'] w1'];
    simpl in *; try done; by subst.
Qed.

Lemma forward_ignores_the_values_of_char_number_witness :
  forward demo_ids demo_mask demo_types
    (const_tensor 2 768 1) (const_tensor 2 768 5) (const_tensor 2 768 2)
    (const_tensor 2 768 3) (const_tensor 2 768 4) (const_tensor 2 768 6)
    (const_tensor 2 768 7) (const_tensor 2 2048 8) demo_world
  = forward demo_ids demo_mask demo_types
      (const_tensor 2 768 1) (const_tensor 2 768 5) (const_tensor 2 768 9)
      (const_tensor 2 768 3) (const_tensor 2 768 4) (const_tensor 2 768 6)
      (const_tensor 2 768 7) (const_tensor 2 2048 8) demo_world.
Proof.
  apply forward_ignores_the_values_of_char_number.
  apply (shape2_Forall2 2 768); apply const_tensor_shape.
Defined.

(** ** The batches of the testing loader *)

Section TestingLoader.
Context {R : Type} `{Scalar R}.

Lemma loader_of_item (getitem : nat -> result (gmap string (Tensor R)))
      (batch_size : nat) (order : list nat) (batch : gmap string (Tensor R)) :
  In (Ok batch) (loader_of getitem batch_size order) ->
  exists p ps elem rest,
    getitem p = Ok elem /\ rmapM getitem ps = Ok rest /\
    collate (elem :: rest) = Ok batch.
Proof.
  unfold loader_of. intros Hin.
  apply in_map_iff in Hin as (positions & E & Hp). rbind_inv E.
  destruct x as [|elem rest]; [discriminate|].
  apply rmapM_cons_inv in E0 as (p & ps & -> & Ep & Eps).
  by exists p, ps, elem, rest.
Qed.

End TestingLoader.

(** A loader over [SentimentData_test] yields batches for
    [test_label_generator] alone. *)
Lemma test_loader_batches {R : Type} `{Scalar R}
    (test : SentimentData_test R) (batch_size : nat) (order : list nat)
    (batch : gmap string (Tensor R)) :
  typed_test_dataset test ->
  In (Ok batch) (loader_of (SentimentData_test_getitem test) batch_size order) ->
  (exists args, test_inputs batch = Ok args) /\
  train_inputs batch = Err (KeyError "targets") /\
  valid_inputs batch = Err (KeyError "targets").
Proof.
  intros Tf Hin.
  destruct (loader_of_item _ _ _ _ Hin) as (p & ps & elem & rest & Ep & _ & Ec).
  unfold SentimentData_test_getitem in Ep. rbind_inv Ep. injection Ep as <-.
  unfold typed_test_dataset in Tf.
  repeat match goal with
         | T : Forall _ (_ :: _) |- _ => apply Forall_cons in T as [? T]
         end.
  repeat match goal with
         | E : rbind (series_at ?s p) torch_tensor_float = Ok _,
           T : map_Forall _ (s_values ?s) |- _ =>
             apply (vec_cell_tensor _ _ _ T) in E as [? ->]
         end.
  set (elem := insert "ids" _ _) in Ec.
  assert (exists v, elem !! "ids" = Some (Long1 v)) as [? Hids]
    by (eexists; subst elem; sample_lookup).
  assert (exists v, elem !! "mask" = Some (Long1 v)) as [? Hmask]
    by (eexists; subst elem; sample_lookup).
  assert (exists v, elem !! "token_type_ids" = Some (Long1 v)) as [? Htti]
    by (eexists; subst elem; sample_lookup).
  assert (elem !! "targets" = None) as Htargets.
  { subst elem. rewrite !lookup_insert_ne by (intros [=]). apply lookup_empty. }
  assert (forall key, In key ["visual_feature"; "gcn_bert_base"; "parsing1";
            "parsing2"; "char_density"; "char_number"; "pos_emb"; "visual"] ->
          exists v, elem !! key = Some (Float1 v)) as Hf.
  { intros key Hkey. simpl in Hkey. subst elem.
    repeat (destruct Hkey as [<-|Hkey]; [eexists; sample_lookup|]).
    destruct Hkey. }
  clearbody elem.
  destruct (batch_long2 _ _ _ _ _ Ec Hids) as [ids Eids].
  destruct (batch_long2 _ _ _ _ _ Ec Hmask) as [mask Emask].
  destruct (batch_long2 _ _ _ _ _ Ec Htti) as [tti Etti].
  assert (field batch "targets" = Err (KeyError "targets")) as Etargets.
  { unfold field. by rewrite (collate_no_key _ _ _ _ Ec Htargets). }
  assert (forall key, In key ["visual_feature"; "gcn_bert_base"; "parsing1";
            "parsing2"; "char_density"; "char_number"; "pos_emb"; "visual"] ->
          exists rows, rbind (field batch key) to_float2 = Ok rows) as Hb.
  { intros key Hkey. destruct (Hf key Hkey) as [v Hv].
    by eapply batch_float2. }
  destruct (Hb "visual_feature") as [vf Evf]; [simpl; tauto|].
  destruct (Hb "gcn_bert_base") as [gcn Egcn]; [simpl; tauto|].
  destruct (Hb "parsing1") as [p1 Ep1]; [simpl; tauto|].
  destruct (Hb "parsing2") as [p2 Ep2]; [simpl; tauto|].
  destruct (Hb "char_density") as [cd Ecd]; [simpl; tauto|].
  destruct (Hb "char_number") as [cn Ecn]; [simpl; tauto|].
  destruct (Hb "pos_emb") as [pe Epe]; [simpl; tauto|].
  assert (exists t, field batch "pos_emb" = Ok t) as [pt Ept]
    by (destruct (field batch "pos_emb"); [by eexists|done]).
  destruct (Hb "visual") as [v Ev]; [simpl; tauto|].
  unfold train_inputs, valid_inputs, test_inputs.
  rewrite Eids, Emask, Etti, Etargets, Evf, Egcn, Ep1, Ep2, Ecd, Ecn, Ept, Ev.
  simpl. split; [by eexists|done].
Qed.

Lemma typed_column {R : Type} (df df' : DataFrame R) (column : string)
      (s : Series R) :
  typed_table df = true -> df_select df selected_columns = Ok df' ->
  In column feature_columns -> df_col df' column = Ok s ->
  map_Forall (fun _ c => is_vec c = true) (s_values s).
Proof.
  unfold typed_table, df_col. intros T Es Hc E.
  rewrite forallb_forall in T. specialize (T column Hc).
  destruct (df_select_lookup df df' selected_columns column Es) as [_ El].
  { unfold feature_columns in Hc. unfold selected_columns. simpl in *. tauto. }
  rewrite El in E. destruct (df_columns df !! column) as [col|]; [|done].
  injection E as <-. simpl. apply map_Forall_to_list, Forall_forall.
  intros [l c] Hl. rewrite forallb_forall in T.
  apply (T (l, c)). by apply list_elem_of_In.
Qed.

(** X21. When the feature cells of [new_df_test] are vectors,
    [test_label_generator] can bind every batch of the testing loader the
    cells build over [SentimentData_test]. The same batch has no
    [targets]: [train] and [valid] raise a KeyError for it after they have
    bound the three token tensors. *)
Theorem testing_batches_are_for_the_label_generator {R : Type} `{Scalar R}
    (new_df_test : DataFrame R) (tokenizer : Tokenizer R)
    (testing_loader : list (result (gmap string (Tensor R))))
    (batch : gmap string (Tensor R)) :
  typed_table new_df_test = true ->
  build_testing_loader new_df_test tokenizer = Ok testing_loader ->
  In (Ok batch) testing_loader ->
  (exists args, test_inputs batch = Ok args) /\
  train_inputs batch = Err (KeyError "targets") /\
  valid_inputs batch = Err (KeyError "targets").
Proof.
  unfold build_testing_loader. intros T E Hin. rbind_inv E.
  injection E as <-. apply test_loader_batches in Hin; [done|].
  unfold SentimentData_test_init in E1. rbind_inv E1. injection E1 as <-.
  unfold typed_test_dataset. simpl.
  repeat first
    [ apply List.Forall_nil
    | apply List.Forall_cons;
      [eapply (typed_column new_df_test); [done|done| |eassumption];
       unfold feature_columns; simpl; tauto|] ].
Qed.

Lemma testing_batches_are_for_the_label_generator_witness :
  (exists args, test_inputs tiny_test_batch = Ok args) /\
  train_inputs tiny_test_batch = Err (KeyError "targets") /\
  valid_inputs tiny_test_batch = Err (KeyError "targets").
Proof.
  apply (testing_batches_are_for_the_label_generator tiny_frame demo_tokenizer
           tiny_testing_loader tiny_test_batch).
  - vm_compute. reflexivity.
  - apply is_Ok_value. vm_compute. reflexivity.
  - apply yields_batch_first. vm_compute. reflexivity.
Defined.

Section ReadsOnly.
Context {R : Type} `{Scalar R}.

Lemma reads_bind {A B} (c : M R A) (k : A -> M R B) :
  reads_only c -> (forall a, reads_only (k a)) -> reads_only (bind c k).
Proof.
  intros Hc Hk w w' Hw. unfold bind. destruct (Hc w w' Hw) as [Er Ew].
  destruct (c w) as [[a|e] w1], (c w') as [[a'|e'] w1']; simpl in *;
    try done.
  - injection Er as <-. by apply Hk.
  - injection Er as <-. by split.
Qed.

Lemma reads_ret {A} (a : A) : reads_only (ret a : M R A).
Proof. by intros w w' Hw. Qed.

Lemma reads_lift {A} (r : result A) : reads_only (lift r : M R A).
Proof. by intros w w' Hw. Qed.

Lemma reads_dropout (x : Tensor2 R) : reads_only (self_dropout x).
Proof.
  intros w w' [Hm Hg]. unfold self_dropout.
  assert (training (model w) = training (model w')) as <-
    by (unfold read_by_forward in Hm; congruence).
  rewrite <- Hg. destruct (training (model w)); [|done].
  destruct (drop_rows _ _ x) as [y c]. done.
Qed.

Lemma reads_l1 (ids mask tti : LongTensor2) :
  reads_only (self_l1 ids mask tti : M R (Tensor3 R)).
Proof.
  intros w w' [Hm Hg]. unfold self_l1.
  assert (training (model w) = training (model w')) as <-
    by (unfold read_by_forward in Hm; congruence).
  assert (l1 (model w) = l1 (model w')) as <-
    by (unfold read_by_forward in Hm; congruence).
  rewrite <- Hg. destruct (training (model w)); [|done].
  destruct (enc_train _ _ _ _ _) as [r g]. done.
Qed.

Lemma reads_call (layer : RobertaClass R -> Linear R) (x : Tensor2 R) :
  (forall m m', read_by_forward m = read_by_forward m' -> layer m = layer m') ->
  reads_only (self_call layer x).
Proof.
  intros Hl w w' [Hm Hg]. unfold self_call. simpl.
  by rewrite (Hl _ _ Hm).
Qed.

End ReadsOnly.

Ltac reads_step :=
  first
    [ apply reads_ret
    | apply reads_lift
    | apply reads_dropout
    | apply reads_l1
    | apply reads_call; intros ? ? ?; unfold read_by_forward in *; congruence
    | apply reads_bind; [|intros ?; cbv beta zeta] ].

(** X22. [forward] reads of the module only the encoder, the mode and
    the nine linear layers it calls: from two worlds that agree on these
    and on the state of the random generator it has the same outcome. In
    particular the layers [hidden0] and [hidden4], which the constructor
    builds, have no effect on the logits, whatever their weights. *)
Theorem forward_never_reads_hidden0_and_hidden4 {R : Type} `{Scalar R}
    (input_ids attention_mask token_type_ids : LongTensor2)
    (visual_feature char_density char_number parsing1 parsing2
     gcn_bert_base pos_emb visual : Tensor2 R)
    (a b : Linear R) (w : World R) :
  fst (forward input_ids attention_mask token_type_ids visual_feature
         char_density char_number parsing1 parsing2 gcn_bert_base pos_emb
         visual (mkWorld (with_unused_layers a b (model w)) (gen w)))
  = fst (forward input_ids attention_mask token_type_ids visual_feature
           char_density char_number parsing1 parsing2 gcn_bert_base pos_emb
           visual w).
Proof.
  assert (reads_only
            (forward input_ids attention_mask token_type_ids visual_feature
               char_density char_number parsing1 parsing2 gcn_bert_base
               pos_emb visual)) as Hr.
  { unfold forward, forward_head, forward_concat.
    apply reads_bind; [|intros x; repeat reads_step].
    apply reads_bind; [|intros [[[p v] pa] d]; apply reads_lift].
    unfold forward_branches. repeat reads_step. }
  apply Hr. by split.
Qed.

(** ** The training loop *)

Section TrainingSteps.
Context {R : Type} `{Scalar R}.

Lemma argmax_total (W : nat) (t : Tensor2 R) :
  Forall (fun r => length r = S W) t ->
  exists idx, rmapM argmax t = Ok idx /\ length idx = length t.
Proof.
  induction 1 as [|r t Hr Ht (idx & E & L)]; [by exists []|].
  destruct r as [|x r]; [done|].
  eexists. simpl. rewrite E. simpl. split; [done|]. simpl. by rewrite L.
Qed.

Lemma calcuate_accuracy_total (idx targets : LongTensor1) :
  length idx = length targets ->
  exists n, calcuate_accuracy idx targets = Ok n.
Proof.
  intros E. unfold calcuate_accuracy, torch_eq. rewrite E, Nat.eqb_refl.
  by eexists.
Qed.

Variable loss_function : Tensor R -> LongTensor1 -> result R.
Variable Optimizer : Type.
Variable optimizer_step :
  Optimizer -> RobertaClass R -> Generator -> ModelArgs R -> LongTensor1 ->
  Optimizer * RobertaClass R.
Variable Inv : RobertaClass R -> Prop.
Hypothesis HInv : training_invariant optimizer_step Inv.

Lemma train_batch_returns (opt : Optimizer) (c : Counters R) (step : nat)
      (item : result (gmap string (Tensor R))) (w : World R) :
  Inv (model w) -> trainable loss_function Inv item ->
  (0 <= nb_tr_examples c)%Z ->
  exists opt' c' w',
    train_batch loss_function optimizer_step opt c step item w
    = (Ok (opt', c'), w') /\
    Inv (model w') /\
    (nb_tr_examples c < nb_tr_examples c')%Z /\
    nb_tr_steps c' = (nb_tr_steps c + 1)%Z.
Proof.
  intros HI (data & args & targets & B & -> & Et & HB & Lt & Svf & Scd & Scn
             & Sp1 & Sp2 & Sgcn & Sv & Henc & Hloss) Hc.
  destruct HInv as [Hgood Hstep]. destruct (Hgood _ HI) as [arch mode].
  destruct (forward_total (model w) arch _ _ _ _ _ _ _ _ _
              (arg_pos_emb args) _ B HB (Henc _ HI) Svf Scd Scn Sp1 Sp2 Sgcn Sv
              w eq_refl) as (out & w1 & Ef & Hm1 & So).
  destruct (Hloss out So) as [l El].
  destruct (argmax_total 3 out (proj2 So)) as (idx & Ei & Li).
  destruct (calcuate_accuracy_total idx targets) as [n En].
  { rewrite Li, (proj1 So). done. }
  destruct (optimizer_step opt (model w) (gen w) args targets)
    as [opt' m'] eqn:Eo.
  exists opt',
    (mkCounters (n_correct c + n)%Z (sadd (tr_loss c) l) (nb_tr_steps c + 1)%Z
       (nb_tr_examples c + Z.of_nat (length targets))%Z (output_list c)),
    (mkWorld (set_training (training (model w)) m') (gen w1)).
  split; [|split; [|split]].
  - unfold train_batch, bind, lift, ret, current_generator, optimizer_update.
    set (b := step mod 5000 =? 0). clearbody b.
    simpl. rewrite Et. simpl. unfold model_call. rewrite Ef. simpl.
    rewrite El. simpl. rewrite Ei. simpl. rewrite En. simpl.
    assert (true_div ((n_correct c + n) * 100)
              (nb_tr_examples c + Z.of_nat (length targets))
            = Ok (mkRatio ((n_correct c + n) * 100)
                    (nb_tr_examples c + Z.of_nat (length targets)))) as ->.
    { unfold true_div.
      destruct (_ =? 0)%Z eqn:Ez; [|done]. apply Z.eqb_eq in Ez. lia. }
    destruct b; simpl; by rewrite Hm1, Eo.
  - simpl. specialize (Hstep opt (model w) (gen w) args targets HI).
    by rewrite Eo in Hstep.
  - simpl. lia.
  - done.
Qed.

Lemma train_loop_returns (loader : list (result (gmap string (Tensor R))))
      (opt : Optimizer) (c : Counters R) (step : nat) (w : World R) :
  Inv (model w) -> Forall (trainable loss_function Inv) loader ->
  (0 <= nb_tr_examples c)%Z ->
  exists opt' c' w',
    train_loop loss_function optimizer_step opt c step loader w
    = (Ok (opt', c'), w') /\
    Inv (model w') /\
    (nb_tr_examples c <= nb_tr_examples c')%Z /\
    (loader <> [] -> (nb_tr_examples c < nb_tr_examples c')%Z) /\
    nb_tr_steps c' = (nb_tr_steps c + Z.of_nat (length loader))%Z.
Proof.
  revert opt c step w.
  induction loader as [|item rest IH]; intros opt c step w HI Hl Hc.
  - exists opt, c, w. simpl. repeat split; try done; lia.
  - apply Forall_cons in Hl as [Hitem Hrest].
    destruct (train_batch_returns opt c step item w HI Hitem Hc)
      as (opt1 & c1 & w1 & E1 & HI1 & Lt1 & St1).
    destruct (IH opt1 c1 (S step) w1 HI1 Hrest)
      as (opt2 & c2 & w2 & E2 & HI2 & Le2 & _ & St2); [lia|].
    exists opt2, c2, w2. split.
    + cbn [train_loop]. unfold bind. by rewrite E1.
    + cbn [length]. repeat split; try done; lia.
Qed.

End TrainingSteps.

(** X23. An epoch of [train] returns on every loader of at least one
    batch whose batches all bind and have the shapes [forward] needs, for
    any number of examples per batch from one on, as long as the encoder
    and the loss accept them and the optimizer keeps the layer sizes.
    A last batch of a single example, on which [valid] and
    [test_label_generator] raise, is trained on. The module is left in
    training mode. *)
Theorem train_returns {R : Type} `{Scalar R}
    (loss_function : Tensor R -> LongTensor1 -> result R) (Optimizer : Type)
    (optimizer_step :
       Optimizer -> RobertaClass R -> Generator -> ModelArgs R ->
       LongTensor1 -> Optimizer * RobertaClass R)
    (Inv : RobertaClass R -> Prop) (opt : Optimizer)
    (training_loader : list (result (gmap string (Tensor R)))) (w : World R) :
  training_invariant optimizer_step Inv ->
  Inv (set_training true (model w)) ->
  training_loader <> [] ->
  Forall (trainable loss_function Inv) training_loader ->
  exists opt',
    fst (train loss_function optimizer_step opt training_loader w) = Ok opt' /\
    training (model (snd (train loss_function optimizer_step opt
                            training_loader w))) = true.
Proof.
  intros HInv HI Hne Hl.
  destruct (train_loop_returns loss_function Optimizer optimizer_step Inv HInv
              training_loader opt (mkCounters 0%Z szero 0%Z 0%Z []) 0
              (mkWorld (set_training true (model w)) (gen w)) HI Hl)
    as (opt' & c' & w' & E & HI' & _ & Lt & St); [done|].
  specialize (Lt Hne). simpl in Lt, St.
  assert ((nb_tr_examples c' =? 0)%Z = false) as Ez by (apply Z.eqb_neq; lia).
  assert ((nb_tr_steps c' =? 0)%Z = false) as Es.
  { apply Z.eqb_neq. destruct training_loader; [done|]. simpl in St. lia. }
  assert (train loss_function optimizer_step opt training_loader w
          = (Ok opt', w')) as ->.
  { unfold train. unfold bind at 1. simpl. unfold bind at 1. rewrite E.
    simpl. unfold bind, lift, ret, true_div. by rewrite Ez, Es. }
  exists opt'. split; [done|]. by apply (proj1 HInv).
Qed.

Lemma demo_training_encodes (g : Generator) :
  exists hs,
    fst (enc_train (l1 demo_training_model) g demo_ids demo_mask demo_types)
    = Ok hs /\ hidden_shape 2 768 hs.
Proof.
  exists (map (map (fun _ => replicate 768 0%Z)) demo_ids).
  split; [reflexivity|]. split; [reflexivity|].
  do 2 (constructor;
        [exists (replicate 768 0%Z), (replicate 2 (replicate 768 0%Z));
         split; [reflexivity|apply length_replicate]|]).
  constructor.
Qed.

Lemma train_returns_witness :
  exists opt',
    fst (train demo_loss idle_step tt [Ok demo_wide_batch] demo_world)
    = Ok opt' /\
    training (model (snd (train demo_loss idle_step tt [Ok demo_wide_batch]
                            demo_world))) = true.
Proof.
  apply (train_returns demo_loss unit idle_step
           (fun m => m = demo_training_model) tt [Ok demo_wide_batch]
           demo_world).
  - split.
    + intros m ->. split; [apply init_architecture|reflexivity].
    + intros opt m g args targets ->. reflexivity.
  - reflexivity.
  - discriminate.
  - constructor; [|constructor].
    exists demo_wide_batch, (demo_args 2048), [0; 1]%Z, 2.
    split; [reflexivity|]. split; [vm_compute; reflexivity|].
    split; [lia|]. split; [reflexivity|].
    do 7 (split; [apply const_tensor_shape|]). split.
    + intros m ->. intros g. apply demo_training_encodes.
    + intros out [Lo _]. unfold demo_loss. rewrite Lo. by eexists.
Defined.

(** X24. On a loader that yields nothing, [valid] and [train] raise
    ZeroDivisionError, from the quotients they take after the loop, where
    [test_label_generator] returns the empty list. Whenever [valid]
    returns, its loader has yielded a batch and the divisor of the
    accuracy is not zero. *)
Theorem loops_on_an_empty_loader {R : Type} `{Scalar R}
    (loss_function : Tensor R -> LongTensor1 -> result R) (Optimizer : Type)
    (optimizer_step :
       Optimizer -> RobertaClass R -> Generator -> ModelArgs R ->
       LongTensor1 -> Optimizer * RobertaClass R)
    (opt : Optimizer) (w : World R) :
  fst (valid loss_function [] w) = Err ZeroDivisionError /\
  fst (train loss_function optimizer_step opt [] w) = Err ZeroDivisionError /\
  fst (test_label_generator [] w) = Ok [] /\
  forall loader epoch_accu predictions,
    fst (valid loss_function loader w) = Ok (epoch_accu, predictions) ->
    loader <> [] /\ den epoch_accu <> 0%Z.
Proof.
  split; [done|]. split; [done|]. split; [done|].
  intros loader epoch_accu predictions E. split.
  - intros ->. apply valid_Ok in E as (c & Ec & Hs & _).
    simpl in Ec. by injection Ec as <-.
  - apply valid_Ok in E as (c & _ & _ & Ed & _). simpl in Ed.
    unfold true_div in Ed.
    destruct (nb_tr_examples c =? 0)%Z eqn:Ez; [done|].
    injection Ed as <-. simpl. by apply Z.eqb_neq.
Qed.
